(** * api2ts: the service generator (serviceGenerator.ts, util.ts)

    A shallow embedding of the schema-resolution and operation-grouping
    engine.  The OpenAPI document is a tree of JavaScript values; objects
    are association lists in property-enumeration order, because the order
    of [Object.keys] decides the order of everything that is emitted.
    Functions that can throw return a [Res]; the recursive ones that follow
    references or descend through schemas take a fuel argument.

    Strings are sequences of code units; the model covers code units below
    256, so the CJK range tests of [resolveTypeName] are written out but
    never fire.  Numbers are integers.  Property lookup is own-property
    lookup. *)

From Stdlib Require Import ZArith List String Ascii Bool Lia Sorted.
From stdpp Require Import base gmap strings list pretty.

Local Open Scope string_scope.
Local Open Scope list_scope.

(** ** JavaScript values *)

#[warnings="-register-all"]
Inductive JsVal : Type :=
| JUndef
| JNull
| JBool (b : bool)
| JNum (n : Z)
| JNaN
| JStr (s : string)
| JArr (items : list JsVal)
| JObj (fields : list (string * JsVal)).

Inductive Exn : Type :=
| TypeError
| DataError (msg : string).

(** Outcome of a call: a value, a thrown exception, the model's fuel ran
    out (unbounded recursion in the program), or the program went on with a
    value the model does not represent (a named property written to an
    array, a function found under an inherited name). *)
Inductive Res (A : Type) : Type :=
| Ok (a : A)
| Throw (e : Exn)
| OutOfFuel
| Unmodelled.

Arguments Ok {A} a.
Arguments Throw {A} e.
Arguments OutOfFuel {A}.
Arguments Unmodelled {A}.

Definition bind {A B} (m : Res A) (k : A -> Res B) : Res B :=
  match m with
  | Ok a => k a
  | Throw e => Throw e
  | OutOfFuel => OutOfFuel
  | Unmodelled => Unmodelled
  end.

Notation "'let*' x ':=' m 'in' k" := (bind m (fun x => k))
  (at level 10, x pattern, m at level 100, k at level 200).

Fixpoint mapR {A B} (f : A -> Res B) (l : list A) : Res (list B) :=
  match l with
  | [] => Ok []
  | x :: l' => let* y := f x in let* ys := mapR f l' in Ok (y :: ys)
  end.

Fixpoint foldR {A S} (f : S -> A -> Res S) (l : list A) (s : S) : Res S :=
  match l with
  | [] => Ok s
  | x :: l' => let* s' := f s x in foldR f l' s'
  end.

(** ** Strings: the String.prototype and RegExp calls the generator makes *)

Module Str.

Definition startsWith (p s : string) : bool := String.prefix p s.

Fixpoint drop (n : nat) (s : string) : string :=
  match n, s with
  | 0, _ => s
  | S n', String _ s' => drop n' s'
  | S _, EmptyString => EmptyString
  end.

Fixpoint take (n : nat) (s : string) : string :=
  match n, s with
  | S n', String c s' => String c (take n' s')
  | _, _ => EmptyString
  end.

Definition endsWith (p s : string) : bool :=
  (String.length p <=? String.length s)%nat
  && String.eqb (drop (String.length s - String.length p) s) p.

(** [s.includes(p)] *)
Fixpoint includes (p s : string) : bool :=
  String.prefix p s ||
  match s with
  | EmptyString => false
  | String _ s' => includes p s'
  end.

(** [s.replace(pat, rep)] with a string pattern: the first occurrence only.
    The replacement strings used by the generator contain no [$] pattern
    that replace would expand. *)
Fixpoint replaceFirst (pat rep s : string) : string :=
  if String.prefix pat s then rep +:+ drop (String.length pat) s
  else match s with
       | EmptyString => EmptyString
       | String c s' => String c (replaceFirst pat rep s')
       end.

(** [s.split(sep)] for a non-empty separator.  [skip] counts the
    code units of a matched separator still to be passed over. *)
Fixpoint split_aux (sep : string) (skip : nat) (cur : string) (s : string)
  : list string :=
  match s with
  | EmptyString => [cur]
  | String c s' =>
      match skip with
      | S k => split_aux sep k cur s'
      | 0 =>
          if String.prefix sep s
          then cur :: split_aux sep (String.length sep - 1) EmptyString s'
          else split_aux sep 0 (cur +:+ String c EmptyString) s'
      end
  end.

Definition split (sep s : string) : list string := split_aux sep 0 EmptyString s.

Definition join (sep : string) (l : list string) : string := String.concat sep l.

Definition isDigit (c : ascii) : bool :=
  let n := nat_of_ascii c in (48 <=? n)%nat && (n <=? 57)%nat.

Definition isUpper (c : ascii) : bool :=
  let n := nat_of_ascii c in (65 <=? n)%nat && (n <=? 90)%nat.

Definition isLower (c : ascii) : bool :=
  let n := nat_of_ascii c in (97 <=? n)%nat && (n <=? 122)%nat.

(** [\w] *)
Definition isWord (c : ascii) : bool :=
  isDigit c || isUpper c || isLower c || Ascii.eqb c "_".

(** [\s], on code units below 256 *)
Definition isSpace (c : ascii) : bool :=
  let n := nat_of_ascii c in
  ((9 <=? n)%nat && (n <=? 13)%nat) || (n =? 32)%nat || (n =? 160)%nat.

(** [.] excludes the line terminators *)
Definition isLineTerminator (c : ascii) : bool :=
  let n := nat_of_ascii c in (n =? 10)%nat || (n =? 13)%nat.

Definition inRange (lo hi : N) (c : ascii) : bool :=
  let n := N_of_ascii c in (lo <=? n)%N && (n <=? hi)%N.

(** [toUpperCase] of one code unit, on the letters that reach it (ASCII) *)
Definition toUpperChar (c : ascii) : ascii :=
  if isLower c then ascii_of_nat (nat_of_ascii c - 32) else c.

Definition toLowerChar (c : ascii) : ascii :=
  if isUpper c then ascii_of_nat (nat_of_ascii c + 32) else c.

Fixpoint toUpperCase (s : string) : string :=
  match s with
  | EmptyString => EmptyString
  | String c s' => String (toUpperChar c) (toUpperCase s')
  end.

Fixpoint filterChars (keep : ascii -> bool) (s : string) : string :=
  match s with
  | EmptyString => EmptyString
  | String c s' => if keep c then String c (filterChars keep s') else filterChars keep s'
  end.

Fixpoint allChars (p : ascii -> bool) (s : string) : bool :=
  match s with
  | EmptyString => true
  | String c s' => p c && allChars p s'
  end.

Fixpoint existsChar (p : ascii -> bool) (s : string) : bool :=
  match s with
  | EmptyString => false
  | String c s' => p c || existsChar p s'
  end.

(** [s.replace(/[seps](\w)/g, (_all, letter) => letter.toUpperCase())] *)
Fixpoint upperAfter (sep : ascii -> bool) (s : string) : string :=
  match s with
  | EmptyString => EmptyString
  | String c s' =>
      match s' with
      | String d s'' =>
          if sep c && isWord d
          then String (toUpperChar d) (upperAfter sep s'')
          else String c (upperAfter sep s')
      | EmptyString => String c EmptyString
      end
  end.

(** the separator class [[-_ ]] *)
Definition isDashUnderscoreSpace (c : ascii) : bool :=
  Ascii.eqb c "-" || Ascii.eqb c "_" || Ascii.eqb c " ".

(** the separator class [[-_ .]] *)
Definition isDashUnderscoreSpaceDot (c : ascii) : bool :=
  isDashUnderscoreSpace c || Ascii.eqb c ".".

(** [/^\d+$/.test(s)] *)
Definition allDigits (s : string) : bool :=
  negb (String.eqb s EmptyString) && allChars isDigit s.

(** [/^\d$/.test(s)] *)
Definition oneDigit (s : string) : bool :=
  match s with
  | String c EmptyString => isDigit c
  | _ => false
  end.

(** The greedy [.+\]\]] after an opening [[[]: the largest count [k >= 1]
    of code units, none a line terminator, that is followed by []]]. *)
Fixpoint greedyClose (j : nat) (s : string) : option nat :=
  match s with
  | EmptyString => None
  | String c s' =>
      let here := if (1 <=? j)%nat && String.prefix "]]" s then Some j else None in
      if isLineTerminator c then here
      else match greedyClose (S j) s' with
           | Some k => Some k
           | None => here
           end
  end.

(** [s.match(/\[\[.+\]\]/g)?.[0]]: the leftmost match *)
Fixpoint matchNested (s : string) : option string :=
  match s with
  | EmptyString => None
  | String _ s' =>
      match (if String.prefix "[[" s then greedyClose 0 (drop 2 s) else None) with
      | Some k => Some ("[[" +:+ take k (drop 2 s) +:+ "]]")
      | None => matchNested s'
      end
  end.

Definition last (l : list string) : string := List.last l EmptyString.

(** [Array.from(new Set(l))] on strings: first occurrences, in order *)
Fixpoint uniq_acc (seen : list string) (l : list string) : list string :=
  match l with
  | [] => []
  | x :: l' =>
      if existsb (String.eqb x) seen then uniq_acc seen l'
      else x :: uniq_acc (x :: seen) l'
  end.

Definition uniq (l : list string) : list string := uniq_acc [] l.

(** [s.replace(/(-\w)+/g, (_match, p1) => p1?.slice(1).toUpperCase())]:
    a run of dash-letter pairs becomes its last letter, in upper case *)
Fixpoint upperDashRuns (s : string) : string :=
  match s with
  | EmptyString => EmptyString
  | String c s' =>
      match s' with
      | String d s'' =>
          if Ascii.eqb c "-" && isWord d then
            match s'' with
            | String e (String f _) =>
                if Ascii.eqb e "-" && isWord f then upperDashRuns s''
                else String (toUpperChar d) (upperDashRuns s'')
            | _ => String (toUpperChar d) (upperDashRuns s'')
            end
          else String c (upperDashRuns s')
      | EmptyString => String c EmptyString
      end
  end.

(** the lines of a string, for the [m] flag *)
Fixpoint lines_aux (cur : string) (s : string) : list string :=
  match s with
  | EmptyString => [cur]
  | String c s' =>
      if isLineTerminator c then cur :: lines_aux EmptyString s'
      else lines_aux (cur +:+ String c EmptyString) s'
  end.

(** [s.match(/^{.+}$/gim)] finds a match *)
Definition matchBraced (s : string) : bool :=
  existsb (fun l => (3 <=? String.length l)%nat
                    && String.prefix "{" l
                    && String.eqb (drop (String.length l - 1) l) "}")
          (lines_aux EmptyString s).

(** [text.charAt(0).toUpperCase() + text.slice(1)] *)
Definition toUpperFirstLetter (text : string) : string :=
  match text with
  | EmptyString => EmptyString
  | String c rest => String (toUpperChar c) rest
  end.

(** the longest run of word characters that opens [s], and what follows *)
Fixpoint spanWord (s : string) : string * string :=
  match s with
  | EmptyString => (EmptyString, EmptyString)
  | String c s' =>
      if isWord c then let (w, r) := spanWord s' in (String c w, r)
      else (EmptyString, s)
  end.

(** every capture of [/\{(\w+)\}/g], left to right; [skip] counts the
    code units of a match still to be passed over *)
Fixpoint braceTokens_aux (skip : nat) (s : string) : list string :=
  match s with
  | EmptyString => []
  | String c s' =>
      match skip with
      | S k => braceTokens_aux k s'
      | 0 =>
          if Ascii.eqb c "{" then
            let (w, r) := spanWord s' in
            if negb (String.eqb w EmptyString) && String.prefix "}" r
            then w :: braceTokens_aux (String.length w + 1) s'
            else braceTokens_aux 0 s'
          else braceTokens_aux 0 s'
      end
  end.

Definition braceTokens (s : string) : list string := braceTokens_aux 0 s.

(** the longest run of code units satisfying [p] that opens [s] *)
Fixpoint takeWhile (p : ascii -> bool) (s : string) : string :=
  match s with
  | EmptyString => EmptyString
  | String c s' => if p c then String c (takeWhile p s') else EmptyString
  end.

(** The rewrite of path variables in [getServiceTP]: the pattern is a
    colon followed by every code unit up to the next slash, or a brace
    pair around code units other than the closing brace.  Either becomes a
    template variable named by the capture; an empty colon capture leaves
    [str || str2] [undefined]. *)
Fixpoint templateVars_aux (skip : nat) (s : string) : string :=
  match s with
  | EmptyString => EmptyString
  | String c s' =>
      match skip with
      | S k => templateVars_aux k s'
      | 0 =>
          if Ascii.eqb c ":" then
            let str := takeWhile (fun x => negb (Ascii.eqb x "/")) s' in
            "${" +:+ (if String.eqb str EmptyString then "undefined" else str) +:+ "}"
            +:+ templateVars_aux (String.length str) s'
          else if Ascii.eqb c "{" then
            let str2 := takeWhile (fun x => negb (Ascii.eqb x "}")) s' in
            if String.prefix "}" (drop (String.length str2) s')
            then "${" +:+ str2 +:+ "}" +:+ templateVars_aux (String.length str2 + 1) s'
            else String c (templateVars_aux 0 s')
          else String c (templateVars_aux 0 s')
      end
  end.

Definition templateVars (s : string) : string := templateVars_aux 0 s.

(** [s.replace(/\*/g, '&#42;')] *)
Fixpoint escapeStars (s : string) : string :=
  match s with
  | EmptyString => EmptyString
  | String c s' =>
      if Ascii.eqb c "*" then "&#42;" +:+ escapeStars s' else String c (escapeStars s')
  end.

Fixpoint dropWhile (p : ascii -> bool) (s : string) : string :=
  match s with
  | EmptyString => EmptyString
  | String c s' => if p c then dropWhile p s' else s
  end.

Fixpoint rev_acc (acc s : string) : string :=
  match s with
  | EmptyString => acc
  | String c s' => rev_acc (String c acc) s'
  end.

(** [s.trim()], white space being [\s] *)
Definition trim (s : string) : string :=
  rev_acc EmptyString
    (dropWhile isSpace (rev_acc EmptyString (dropWhile isSpace s))).

(** the double quote, code unit 34 *)
Definition dquote : ascii := Ascii false true false false false true false false.

(** [`"${v.replace(/"/g, '"')}"`]: the replacement writes each quote back *)
Definition quoted (s : string) : string :=
  String dquote s +:+ String dquote EmptyString.

(** decimal digits of a canonical array index *)
Fixpoint parseNat_aux (acc : nat) (s : string) : option nat :=
  match s with
  | EmptyString => Some acc
  | String c s' =>
      if isDigit c then parseNat_aux (10 * acc + (nat_of_ascii c - 48)) s' else None
  end.

Definition arrayIndex (k : string) : option nat :=
  match k with
  | EmptyString => None
  | _ => match parseNat_aux 0 k with
         | Some n => if String.eqb (pretty n) k then Some n else None
         | None => None
         end
  end.

End Str.

(** ** Operations on values *)

Module Js.

(** ToBoolean *)
Definition truthy (v : JsVal) : bool :=
  match v with
  | JUndef | JNull | JNaN => false
  | JBool b => b
  | JNum n => negb (n =? 0)%Z
  | JStr s => negb (String.eqb s EmptyString)
  | JArr _ | JObj _ => true
  end.

(** [a || b] *)
Definition or (a b : JsVal) : JsVal := if truthy a then a else b.

(** ToString; an array joins its elements with a comma, writing nothing
    for [undefined] and [null] *)
Fixpoint toStr (v : JsVal) : string :=
  match v with
  | JUndef => "undefined"
  | JNull => "null"
  | JBool true => "true"
  | JBool false => "false"
  | JNum n => pretty n
  | JNaN => "NaN"
  | JStr s => s
  | JArr l =>
      String.concat ","
        (map (fun x => match x with JUndef | JNull => EmptyString | _ => toStr x end) l)
  | JObj _ => "[object Object]"
  end.

(** the string an element contributes to [Array.prototype.join] *)
Definition joinStr (v : JsVal) : string :=
  match v with
  | JUndef | JNull => EmptyString
  | _ => toStr v
  end.

Definition join (sep : string) (l : list JsVal) : string :=
  String.concat sep (map joinStr l).

Fixpoint assoc (k : string) (l : list (string * JsVal)) : option JsVal :=
  match l with
  | [] => None
  | (k', v) :: l' => if String.eqb k k' then Some v else assoc k l'
  end.

Fixpoint chars (s : string) : list JsVal :=
  match s with
  | EmptyString => []
  | String c s' => JStr (String c EmptyString) :: chars s'
  end.

(** [v[k]] on a value that is neither [undefined] nor [null] *)
Definition get (k : string) (v : JsVal) : JsVal :=
  match v with
  | JObj l => match assoc k l with Some x => x | None => JUndef end
  | JArr l =>
      if String.eqb k "length" then JNum (Z.of_nat (length l))
      else match Str.arrayIndex k with
           | Some i => nth i l JUndef
           | None => JUndef
           end
  | JStr s =>
      if String.eqb k "length" then JNum (Z.of_nat (String.length s))
      else match Str.arrayIndex k with
           | Some i => nth i (chars s) JUndef
           | None => JUndef
           end
  | _ => JUndef
  end.

(** [v[k]], which throws on [undefined] and [null] *)
Definition getR (k : string) (v : JsVal) : Res JsVal :=
  match v with
  | JUndef | JNull => Throw TypeError
  | _ => Ok (get k v)
  end.

(** [v?.[k]] *)
Definition getOpt (k : string) (v : JsVal) : JsVal :=
  match v with
  | JUndef | JNull => JUndef
  | _ => get k v
  end.

Fixpoint indexed_from {A} (i : nat) (l : list A) : list (string * A) :=
  match l with
  | [] => []
  | x :: l' => (pretty i, x) :: indexed_from (S i) l'
  end.

(** own enumerable properties, as [{...v}] and [Object.keys(v)] see them *)
Definition ownProps (v : JsVal) : list (string * JsVal) :=
  match v with
  | JObj l => l
  | JArr l => indexed_from 0 l
  | JStr s => indexed_from 0 (chars s)
  | _ => []
  end.

(** [Object.keys(v)], which throws on [undefined] and [null] *)
Definition keys (v : JsVal) : Res (list string) :=
  match v with
  | JUndef | JNull => Throw TypeError
  | _ => Ok (map fst (ownProps v))
  end.

(** [o[k] = v] on a property list: the value changes in place when the
    key exists, and the key is added last when it does not *)
Fixpoint setField (k : string) (v : JsVal) (l : list (string * JsVal))
  : list (string * JsVal) :=
  match l with
  | [] => [(k, v)]
  | (k', v') :: l' =>
      if String.eqb k k' then (k, v) :: l' else (k', v') :: setField k v l'
  end.

(** the properties of an object literal, written left to right *)
Definition setFields (base more : list (string * JsVal)) : list (string * JsVal) :=
  fold_left (fun acc kv => setField (fst kv) (snd kv) acc) more base.

(** [k in v] for an object; the [in] operator throws on a primitive *)
Definition hasProp (k : string) (v : JsVal) : Res bool :=
  match v with
  | JObj l => Ok (match assoc k l with Some _ => true | None => false end)
  | JArr l =>
      Ok (String.eqb k "length" ||
          match Str.arrayIndex k with
          | Some i => (i <? length l)%nat
          | None => false
          end)
  | _ => Throw TypeError
  end.

(** [v === s] for a string constant *)
Definition isStr (s : string) (v : JsVal) : bool :=
  match v with
  | JStr t => String.eqb t s
  | _ => false
  end.

Definition isArray (v : JsVal) : bool :=
  match v with JArr _ => true | _ => false end.

(** [typeof v === 'object'] *)
Definition typeofObject (v : JsVal) : bool :=
  match v with JNull | JArr _ | JObj _ => true | _ => false end.

(** SameValueZero on the primitives; two objects are the same only by
    identity, which two separately built values never share *)
Definition sameValueZero (a b : JsVal) : bool :=
  match a, b with
  | JUndef, JUndef | JNull, JNull | JNaN, JNaN => true
  | JBool x, JBool y => Bool.eqb x y
  | JNum x, JNum y => (x =? y)%Z
  | JStr x, JStr y => String.eqb x y
  | _, _ => false
  end.

(** [l.includes(x)] *)
Definition includes (x : JsVal) (l : list JsVal) : bool :=
  existsb (sameValueZero x) l.

(** [Array.from(new Set(l))]: first occurrences, in order *)
Fixpoint dedup_acc (seen : list JsVal) (l : list JsVal) : list JsVal :=
  match l with
  | [] => []
  | x :: l' =>
      if includes x seen then dedup_acc seen l'
      else x :: dedup_acc (x :: seen) l'
  end.

Definition dedup (l : list JsVal) : list JsVal := dedup_acc [] l.

(** [l.includes(v)] for a list of string constants *)
Definition oneOf (l : list string) (v : JsVal) : bool :=
  existsb (fun s => isStr s v) l.

(** the elements of an array, where the program calls an Array method *)
Definition asArray (v : JsVal) : Res (list JsVal) :=
  match v with
  | JArr l => Ok l
  | _ => Throw TypeError
  end.

(** the string, where the program calls a String method *)
Definition asString (v : JsVal) : Res string :=
  match v with
  | JStr s => Ok s
  | _ => Throw TypeError
  end.

(** ToNumber on the primitives that are not strings *)
Definition toNumber (v : JsVal) : option Z :=
  match v with
  | JNull => Some 0%Z
  | JBool true => Some 1%Z
  | JBool false => Some 0%Z
  | JNum n => Some n
  | _ => None
  end.

(** [a + b]: concatenation as soon as one side is a string (or an object,
    whose primitive is a string), a number otherwise *)
Definition add (a b : JsVal) : JsVal :=
  match a, b with
  | (JStr _ | JArr _ | JObj _), _ | _, (JStr _ | JArr _ | JObj _) =>
      JStr (toStr a +:+ toStr b)
  | _, _ =>
      match toNumber a, toNumber b with
      | Some x, Some y => JNum (x + y)
      | _, _ => JNaN
      end
  end.

(** [a && b] *)
Definition and (a b : JsVal) : JsVal := if truthy a then b else a.

(** [a === b] on primitives; two objects are equal only by identity *)
Definition strictEq (a b : JsVal) : bool :=
  match a, b with
  | JUndef, JUndef | JNull, JNull => true
  | JBool x, JBool y => Bool.eqb x y
  | JNum x, JNum y => (x =? y)%Z
  | JStr x, JStr y => String.eqb x y
  | _, _ => false
  end.

Fixpoint removeField (k : string) (l : list (string * JsVal))
  : list (string * JsVal) :=
  match l with
  | [] => []
  | (k', v) :: l' =>
      if String.eqb k k' then l' else (k', v) :: removeField k l'
  end.

(** The properties of [Object.prototype].  A plain object is read through
    it: under these names a lookup finds a value of the host (a function,
    or the prototype itself under [__proto__]) when the object has no such
    property of its own. *)
Definition objectPrototypeKeys : list string :=
  ["constructor"; "hasOwnProperty"; "isPrototypeOf"; "propertyIsEnumerable";
   "toLocaleString"; "toString"; "valueOf"; "__proto__";
   "__defineGetter__"; "__defineSetter__"; "__lookupGetter__"; "__lookupSetter__"].

Definition inherited (k : string) : bool := existsb (String.eqb k) objectPrototypeKeys.

(** what [Number.prototype] adds to them; [Boolean.prototype] adds nothing *)
Definition numberPrototypeKeys : list string := ["toExponential"; "toFixed"; "toPrecision"].

(** [v[k]] where the key comes from the data: [get] reads the properties
    a value has of its own, which is all there is to read under the keys
    the program writes out; a key taken from the data can also name an
    inherited property, a value of the host the model has no term for.  On
    an array or a string every name that is neither an index nor [length]
    may be one of the many methods of its prototype. *)
Definition read (k : string) (v : JsVal) : Res JsVal :=
  match v with
  | JUndef | JNull => Throw TypeError
  | JObj l =>
      match assoc k l with
      | Some x => Ok x
      | None => if inherited k then Unmodelled else Ok JUndef
      end
  | JArr _ | JStr _ =>
      if String.eqb k "length" then Ok (get k v)
      else match Str.arrayIndex k with
           | Some _ => Ok (get k v)
           | None => Unmodelled
           end
  | JBool _ => if inherited k then Unmodelled else Ok JUndef
  | JNum _ | JNaN =>
      if inherited k || existsb (String.eqb k) numberPrototypeKeys then Unmodelled
      else Ok JUndef
  end.

End Js.

(** ** What the generator takes from outside *)

(** The libraries the generator calls, and the one String method whose
    result depends on the host's collation. *)
Class Platform : Type := {
  (** reserved-words: [ReservedDict.check(word)] *)
  ReservedDict_check : JsVal -> bool;
  (** tiny-pinyin: [pinyin.convertToPinyin(s, '', true)] *)
  convertToPinyin : string -> string;
  (** lodash: [camelCase(value)] *)
  camelCase : JsVal -> string;
  (** [a.localeCompare(b)] *)
  localeCompare : string -> string -> Z
}.

Inductive ApiPrefix : Type :=
| ApiPrefixNone
| ApiPrefixString (s : string)
| ApiPrefixFunction (f : JsVal -> JsVal).

(** [config.hook]; every hook is optional *)
Record Hook : Type := {
  afterOpenApiDataInited : option (JsVal -> JsVal);
  customFunctionName : option (JsVal -> JsVal);
  customTypeName : option (JsVal -> JsVal);
  customOptionsDefaultValue : option (JsVal -> JsVal);
  customClassName : option (string -> JsVal);
  customType : option (JsVal -> JsVal -> JsVal);
  customFileNames : option (JsVal -> string -> string -> JsVal)
}.

Definition noHook : Hook :=
  {| afterOpenApiDataInited := None; customFunctionName := None;
     customTypeName := None; customOptionsDefaultValue := None;
     customClassName := None; customType := None; customFileNames := None |}.

Record GenerateServiceProps : Type := {
  namespace : JsVal;
  apiPrefix : ApiPrefix;
  enumStyle : JsVal;
  dataFields : JsVal;
  isCamelCase : bool;
  hook : Hook
}.

(** ** Names *)

Section Names.
Context `{Platform}.

(** [getTypeLastName] on a string; each nested call is on a shorter string *)
Fixpoint getTypeLastName_str (fuel : nat) (tempTypeName : string) : Res string :=
  match fuel with
  | 0 => OutOfFuel
  | S fuel' =>
      match Str.matchNested tempTypeName with
      | None =>
          let publicKeyToken :=
            Str.replaceFirst "null" ""
              (nth 1 (Str.split "PublicKeyToken=" tempTypeName) "") in
          let firstTempTypeName :=
            hd tempTypeName (Str.split "," tempTypeName) in
          let typeLastName :=
            Str.last (Str.split "." (Str.last (Str.split "/" firstTempTypeName))) in
          let typeLastName :=
            if Str.endsWith "[]" typeLastName
            then Str.take (String.length typeLastName - 2) typeLastName +:+ "Array"
            else typeLastName in
          let isCsharpSystemType := Str.startsWith "System." firstTempTypeName in
          if String.eqb publicKeyToken "" || isCsharpSystemType
          then Ok typeLastName
          else Ok (typeLastName +:+ "_" +:+ publicKeyToken)
      | Some childrenTypeName =>
          let* currentTypeName :=
            getTypeLastName_str fuel' (Str.replaceFirst childrenTypeName "" tempTypeName) in
          let* childrenTypeNameLastName :=
            getTypeLastName_str fuel'
              (Str.take (String.length childrenTypeName - 4) (Str.drop 2 childrenTypeName)) in
          Ok (currentTypeName +:+ "_" +:+ childrenTypeNameLastName)
      end
  end.

(** [typeName || ''], then the String methods: a truthy value that is not a
    string has no [match] method *)
Definition getTypeLastName (typeName : JsVal) : Res string :=
  match Js.or typeName (JStr "") with
  | JStr s => getTypeLastName_str (S (String.length s)) s
  | _ => Throw TypeError
  end.

(** the class [[^\w^\s^\u4e00-\u9fa5]] removes every code unit that is
    not a word character, a caret, white space or in the CJK range *)
Definition keptInName (c : ascii) : bool :=
  Str.isWord c || Ascii.eqb c "^" || Str.isSpace c || Str.inRange 19968%N 40869%N c.

Definition resolveTypeName (typeName : JsVal) : Res string :=
  if ReservedDict_check typeName then Ok ("__openAPI__" +:+ Js.toStr typeName)
  else
    let* typeLastName := getTypeLastName typeName in
    let name :=
      Str.filterChars keptInName
        (Str.upperAfter Str.isDashUnderscoreSpace typeLastName) in
    if String.eqb name "_" || Str.allDigits name then Ok ("Pinyin_" +:+ name)
    else if negb (Str.existsChar (Str.inRange 12832%N 64041%N) name)
            && negb (Str.oneDigit name)
    then Ok name
    else
      let noBlankName := Str.filterChars (fun c => negb (Ascii.eqb c " ")) name in
      Ok (convertToPinyin noBlankName).

(** [getRefName] on an object whose [$ref] is truthy *)
Definition getRefName (refObject : JsVal) : Res JsVal :=
  if negb (Js.typeofObject refObject) || negb (Js.truthy (Js.getOpt "$ref" refObject))
  then Ok refObject
  else
    let* ref := Js.asString (Js.get "$ref" refObject) in
    let refPaths := Str.split "/" ref in
    let* name := resolveTypeName (JStr (Str.last refPaths)) in
    Ok (JStr name).

(** util.ts: [stripDot] *)
Definition stripDot (str : JsVal) : Res string :=
  let* s := Js.asString str in
  Ok (Str.upperAfter Str.isDashUnderscoreSpaceDot s).

End Names.

(** ** Type expressions *)

Definition numberEnum : list string :=
  ["integer"; "long"; "float"; "double"; "number"; "int"; "float"; "double";
   "int32"; "int64"].

Definition dateEnum : list string :=
  ["Date"; "date"; "dateTime"; "date-time"; "datetime"].

Definition stringEnum : list string :=
  ["string"; "email"; "password"; "url"; "byte"; "binary"].

Definition DEFAULT_SCHEMA : JsVal :=
  JObj [("type", JStr "object");
        ("properties", JObj [("id", JObj [("type", JStr "number")])])].

Definition isBoolean (v : JsVal) : bool :=
  match v with JBool _ => true | _ => false end.

(** The required flag of one property of an inline object type: three
    tests in a row, each of which can only set the flag. *)
Definition propertyRequired (schemaObject : JsVal) (key : string) : Res bool :=
  let required := false in
  let required :=
    if isBoolean (Js.get "required" schemaObject)
       && Js.truthy (Js.get "required" schemaObject)
    then true else required in
  let required :=
    match Js.get "required" schemaObject with
    | JArr l => if Js.includes (JStr key) l then true else required
    | _ => required
    end in
  let property := Js.or (Js.get key (Js.get "properties" schemaObject)) (JObj []) in
  let* declared := Js.hasProp "required" property in
  Ok (if declared && Js.truthy (Js.get "required" property) then true else required).

(** the default of the [namespace] parameter *)
Definition normalNamespace (namespace : JsVal) : JsVal :=
  match namespace with JUndef => JStr "" | _ => namespace end.

Section Types.
Context `{Platform}.

(** The branches of [defaultGetType] that descend into the schema take the
    function to call on the parts, [defaultGetType] itself with the fuel
    that is left. *)

(** [type === 'array'] *)
Definition arrayType (rec : JsVal -> JsVal -> Res JsVal) (schemaObject namespace : JsVal)
  : Res JsVal :=
  let items := Js.get "items" schemaObject in
  let items :=
    if Js.truthy (Js.get "schema" schemaObject)
    then Js.get "items" (Js.get "schema" schemaObject) else items in
  match items with
  | JArr l =>
      let* arrayItemType :=
        mapR (fun subType =>
                let* inner := Js.getR "schema" subType in
                rec (Js.or inner subType) namespace) l in
      Ok (JStr ("[" +:+ Js.toStr (JArr arrayItemType) +:+ "]"))
  | _ =>
      let* arrayType := rec items namespace in
      let* arrayType := Js.asString arrayType in
      Ok (JStr (if Str.includes " | " arrayType
                then "(" +:+ arrayType +:+ ")[]"
                else arrayType +:+ "[]"))
  end.

(** [type === 'enum'] *)
Definition enumType (rec : JsVal -> JsVal -> Res JsVal) (schemaObject : JsVal)
  : Res JsVal :=
  match Js.get "enum" schemaObject with
  | JArr l =>
      let* members :=
        mapR (fun v =>
                match v with
                | JStr s => Ok (JStr (Str.quoted s))
                | _ => rec v JUndef
                end) l in
      Ok (JStr (Js.join " | " (Js.dedup members)))
  | _ => Ok (JStr "string")
  end.

(** [schemaObject[k] && schemaObject[k].length] *)
Definition composed (schemaObject : JsVal) (k : string) : bool :=
  Js.truthy (Js.get k schemaObject)
  && Js.truthy (Js.get "length" (Js.get k schemaObject)).

(** [schemaObject[k].map((item) => defaultGetType(item, namespace))] *)
Definition memberTypes (rec : JsVal -> JsVal -> Res JsVal) (schemaObject namespace : JsVal)
    (k : string) : Res (list JsVal) :=
  let* l := Js.asArray (Js.get k schemaObject) in
  mapR (fun item => rec item namespace) l.

(** one property of an inline object type *)
Definition propertyEntry (rec : JsVal -> JsVal -> Res JsVal) (schemaObject namespace : JsVal)
    (key : string) : Res string :=
  let* required := propertyRequired schemaObject key in
  let* t := rec (Js.get key (Js.get "properties" schemaObject)) namespace in
  Ok ("'" +:+ key +:+ "'" +:+ (if required then "" else "?")
      +:+ ": " +:+ Js.toStr t +:+ "; ").

(** [schemaObject.type === 'object' || schemaObject.properties] *)
Definition objectType (rec : JsVal -> JsVal -> Res JsVal) (schemaObject namespace : JsVal)
  : Res JsVal :=
  let* ks := Js.keys (Js.or (Js.get "properties" schemaObject) (JObj [])) in
  match ks with
  | [] => Ok (JStr "Record<string, any>")
  | _ =>
      let* entries := mapR (propertyEntry rec schemaObject namespace) ks in
      Ok (JStr ("{ " +:+ String.concat "" entries +:+ "}"))
  end.

Fixpoint defaultGetType (fuel : nat) (schemaObject : JsVal) (namespace : JsVal)
  : Res JsVal :=
  match fuel with
  | 0 => OutOfFuel
  | S fuel' =>
    let namespace := normalNamespace namespace in
    match schemaObject with
    | JUndef | JNull => Ok (JStr "any")
    | _ =>
    if negb (Js.typeofObject schemaObject) then Ok schemaObject
    else if Js.truthy (Js.get "$ref" schemaObject) then
      let* name := getRefName schemaObject in
      Ok (JStr (Js.join "." (List.filter Js.truthy [namespace; name])))
    else
    let type := Js.get "type" schemaObject in
    if Js.isStr "null" type then Ok (JStr "null")
    else
    let type :=
      if Js.oneOf numberEnum (Js.get "format" schemaObject)
      then JStr "number" else type in
    let type :=
      if Js.truthy (Js.get "enum" schemaObject) then JStr "enum" else type in
    if Js.oneOf numberEnum type then Ok (JStr "number")
    else if Js.oneOf dateEnum type then Ok (JStr "Date")
    else if Js.oneOf stringEnum type then Ok (JStr "string")
    else if Js.isStr "boolean" type then Ok (JStr "boolean")
    else if Js.isStr "array" type then
      arrayType (defaultGetType fuel') schemaObject namespace
    else if Js.isStr "enum" type then
      enumType (defaultGetType fuel') schemaObject
    else if composed schemaObject "oneOf" then
      let* ts := memberTypes (defaultGetType fuel') schemaObject namespace "oneOf" in
      Ok (JStr (Js.join " | " ts))
    else if composed schemaObject "anyOf" then
      let* ts := memberTypes (defaultGetType fuel') schemaObject namespace "anyOf" in
      Ok (JStr (Js.join " | " ts))
    else if composed schemaObject "allOf" then
      let* ts := memberTypes (defaultGetType fuel') schemaObject namespace "allOf" in
      Ok (JStr ("(" +:+ Js.join " & " ts +:+ ")"))
    else if Js.isStr "object" (Js.get "type" schemaObject)
            || Js.truthy (Js.get "properties" schemaObject) then
      objectType (defaultGetType fuel') schemaObject namespace
    else Ok (JStr "any")
    end
  end.

(** [getType]: the [customType] hook wins when it returns a string *)
Definition getType (config : GenerateServiceProps) (fuel : nat)
    (schemaObject : JsVal) (namespace : JsVal) : Res JsVal :=
  match
    match customType (hook config) with
    | Some hookFunc =>
        match hookFunc schemaObject namespace with
        | JStr t => Some t
        | _ => None
        end
    | None => None
    end
  with
  | Some t => Ok (JStr t)
  | None => defaultGetType fuel schemaObject namespace
  end.

End Types.

(** ** Schema resolution *)

(** [refPaths.forEach((node) => { obj = obj[node]; })], from the document;
    the segments of a reference are data, and [constructor] as a segment
    finds the function every object inherits under that name *)
Definition walkRef (openAPIData : JsVal) (refPaths : list string) : Res JsVal :=
  foldR (fun obj node => Js.read node obj) refPaths openAPIData.

Section Resolver.
Context `{Platform}.
Variable config : GenerateServiceProps.
Variable openAPIData : JsVal.

(** [resolveRefObject]; the fuel bounds the chain of references followed *)
Fixpoint resolveRefObject (fuel : nat) (refObject : JsVal) : Res JsVal :=
  if negb (Js.truthy refObject) || negb (Js.truthy (Js.get "$ref" refObject))
  then Ok refObject
  else
    let* ref := Js.asString (Js.get "$ref" refObject) in
    let refPaths := Str.split "/" ref in
    if String.eqb (hd "" refPaths) "#" then
      let* obj := walkRef openAPIData (tl refPaths) in
      if negb (Js.truthy obj)
      then Throw (DataError ("[GenSDK] Data Error! Notfoud: " +:+ ref))
      else
        match fuel with
        | 0 => OutOfFuel
        | S fuel' =>
            let* resolved := resolveRefObject fuel' obj in
            let* type :=
              if Js.truthy (Js.get "$ref" obj)
              then let* again := resolveRefObject fuel' obj in Ok (Js.get "type" again)
              else Ok obj in
            Ok (JObj (Js.setFields (Js.ownProps resolved) [("type", type)]))
        end
    else Ok refObject.

(** [propName.replace(/[\[|\]]/g, '')] *)
Definition stripBrackets (propName : string) : string :=
  Str.filterChars
    (fun c => negb (Ascii.eqb c "[" || Ascii.eqb c "|" || Ascii.eqb c "]")) propName.

(** [getProps]: the property list of one object schema *)
Definition getProps (fuel : nat) (schemaObject : JsVal) : Res (list JsVal) :=
  let requiredPropKeys :=
    match Js.getOpt "required" schemaObject with
    | JUndef | JNull => JBool false
    | r => r
    end in
  let* properties := Js.getR "properties" schemaObject in
  if Js.truthy properties then
    let* ks := Js.keys properties in
    mapR (fun propName =>
            let schema := Js.or (Js.get propName properties) DEFAULT_SCHEMA in
            let propName := stripBrackets propName in
            let* type := getType config fuel schema JUndef in
            let desc :=
              Js.join " "
                (List.filter Js.truthy [Js.get "title" schema; Js.get "description" schema]) in
            let* required :=
              if Js.truthy requiredPropKeys then
                let* l := Js.asArray requiredPropKeys in
                Ok (existsb (Js.isStr propName) l)
              else Ok false in
            Ok (JObj (Js.setFields (Js.ownProps schema)
                        [("name", JStr propName); ("type", type);
                         ("desc", JStr desc); ("required", JBool required)])))
         ks
  else Ok [].

Definition resolveArray (schemaObject : JsVal) : Res JsVal :=
  let* ref := Js.getR "$ref" (Js.get "items" schemaObject) in
  if Js.truthy ref then
    let* r := Js.asString ref in
    let refObj := Str.split "/" r in
    Ok (JObj [("type", JStr (Str.last refObj +:+ "[]"))])
  else Ok (JStr "any[]").

Definition resolveProperties (fuel : nat) (schemaObject : JsVal) : Res JsVal :=
  let* props := getProps fuel schemaObject in
  Ok (JObj [("props", JArr [JArr props])]).

Definition resolveEnumObject (fuel : nat) (schemaObject : JsVal) : Res JsVal :=
  let enumArray := Js.get "enum" schemaObject in
  let* enumStr :=
    if Js.isStr "enum" (enumStyle config) then
      let* l := Js.asArray enumArray in
      Ok (JStr ("{" +:+
                String.concat ","
                  (map (fun v => Js.toStr v +:+ "=" +:+ Str.quoted (Js.toStr v)) l)
                +:+ "}"))
    else if Js.isStr "string-literal" (enumStyle config) then
      let* l := Js.asArray enumArray in
      let* members :=
        mapR (fun v =>
                match v with
                | JStr s => Ok (JStr (Str.quoted s))
                | _ => getType config fuel v JUndef
                end) l in
      Ok (JStr (Js.join " | " (Js.dedup members)))
    else Ok JUndef in
  Ok (JObj [("isEnum", JBool (Js.isStr "enum" (enumStyle config)));
            ("type", if Js.isArray enumArray then enumStr else JStr "string")]).

(** one member of an [allOf] list: a reference keeps its own fields and
    takes the referenced name as [type]; anything else is expanded *)
Definition allOfMember (fuel : nat) (item : JsVal) : Res JsVal :=
  let* ref := Js.getR "$ref" item in
  if Js.truthy ref then
    let* t := getType config fuel item JUndef in
    let* t := Js.asString t in
    Ok (JArr [JObj (Js.setFields (Js.ownProps item)
                      [("type", JStr (Str.last (Str.split "/" t)))])])
  else
    let* props := getProps fuel item in
    Ok (JArr props).

Definition resolveAllOfObject (fuel : nat) (schemaObject : JsVal) : Res JsVal :=
  let* members := Js.asArray (Js.or (Js.get "allOf" schemaObject) (JArr [])) in
  let* props := mapR (allOfMember fuel) members in
  if Js.truthy (Js.get "properties" schemaObject) then
    let* extProps := getProps fuel schemaObject in
    Ok (JObj [("props", JArr (props ++ [JArr extProps]))])
  else Ok (JObj [("props", JArr props)]).

(** What the claim says one member contributes: a referenced member its own fields with
    the referenced name as [type], any other member its property list *)
Definition memberGroup (fuel : nat) (item group : JsVal) : Prop :=
  if Js.truthy (Js.get "$ref" item)
  then exists name,
         getType config fuel item JUndef = Ok (JStr name)
         /\ group = JArr [JObj (Js.setFields (Js.ownProps item)
                            [("type", JStr (Str.last (Str.split "/" name)))])]
  else exists props, getProps fuel item = Ok props /\ group = JArr props.

Definition resolveObject (fuel : nat) (schemaObject : JsVal) : Res JsVal :=
  let schemaObject :=
    match schemaObject with JUndef | JNull => JObj [] | _ => schemaObject end in
  if Js.truthy (Js.get "$ref" schemaObject) then resolveRefObject fuel schemaObject
  else if Js.truthy (Js.get "enum" schemaObject) then resolveEnumObject fuel schemaObject
  else if Js.truthy (Js.get "allOf" schemaObject)
          && Js.truthy (Js.get "length" (Js.get "allOf" schemaObject))
  then resolveAllOfObject fuel schemaObject
  else if Js.truthy (Js.get "properties" schemaObject)
  then resolveProperties fuel schemaObject
  else if Js.truthy (Js.get "items" schemaObject)
          && Js.isStr "array" (Js.get "type" schemaObject)
  then resolveArray schemaObject
  else Ok schemaObject.

End Resolver.

(** ** Grouping operations by tag (the constructor) *)

(** [TagAPIDataType]: tag to operations, in insertion order *)
Definition TagAPIDataType : Type := list (string * list JsVal).

Definition methods : list string := ["get"; "put"; "post"; "delete"; "patch"].

Definition defaultGetFileTag (operationObject : JsVal) (apiPath : string)
    (_apiMethod : string) : JsVal :=
  if Js.truthy (Js.get "x-swagger-router-controller" operationObject)
  then JArr [Js.get "x-swagger-router-controller" operationObject]
  else
    Js.or (Js.get "tags" operationObject)
      (Js.or (JArr [Js.get "operationId" operationObject])
         (JArr [match nth_error (Str.split "/" (Str.replaceFirst "/" "" apiPath)) 1 with
                | Some segment => JStr segment
                | None => JUndef
                end])).

(** [if (!apiData[tag]) apiData[tag] = []; apiData[tag].push(api)] *)
Fixpoint pushApi (tag : string) (api : JsVal) (apiData : TagAPIDataType)
  : TagAPIDataType :=
  match apiData with
  | [] => [(tag, [api])]
  | (t, l) :: rest =>
      if String.eqb tag t then (t, l ++ [api]) :: rest
      else (t, l) :: pushApi tag api rest
  end.

(** [apiData[tag]] finds something for a tag the table inherits before any
    operation is filed there: no list is made, and what is found has no
    [push] to call *)
Definition fileApi (tag : string) (api : JsVal) (apiData : TagAPIDataType)
  : Res TagAPIDataType :=
  if Js.inherited tag && negb (existsb (String.eqb tag) (map fst apiData))
  then Throw TypeError
  else Ok (pushApi tag api apiData).

Section Grouping.
Context `{Platform}.
Variable config : GenerateServiceProps.

(** the document the generator keeps: the hook's result when it is truthy *)
Definition initOpenAPIData (openAPIData : JsVal) : JsVal :=
  match afterOpenApiDataInited (hook config) with
  | Some f => Js.or (f openAPIData) openAPIData
  | None => openAPIData
  end.

Definition hookCustomFileNames (operationObject : JsVal) (p method : string) : JsVal :=
  match customFileNames (hook config) with
  | Some f => f operationObject p method
  | None => defaultGetFileTag operationObject p method
  end.

(** the body of the loop over the five methods *)
Definition groupMethod (p : string) (pathItem : JsVal) (apiData : TagAPIDataType)
    (method : string) : Res TagAPIDataType :=
  let* operationObject := Js.getR method pathItem in
  if negb (Js.truthy operationObject) then Ok apiData
  else
    let tags := hookCustomFileNames operationObject p method in
    let tags :=
      if negb (Js.truthy tags) then defaultGetFileTag operationObject p method
      else tags in
    let* tagStrings := Js.asArray tags in
    foldR (fun apiData tagString =>
             let* name := resolveTypeName tagString in
             let tag := if isCamelCase config then camelCase (JStr name) else name in
             fileApi tag
               (JObj (Js.setFields [("path", JStr ("" +:+ p)); ("method", JStr method)]
                        (Js.ownProps operationObject)))
               apiData)
          tagStrings apiData.

Definition groupPath (paths : JsVal) (apiData : TagAPIDataType) (p : string)
  : Res TagAPIDataType :=
  foldR (groupMethod p (Js.get p paths)) methods apiData.

(** the constructor's traversal: [this.apiData] for a document *)
Definition groupOperations (openAPIData : JsVal) : Res TagAPIDataType :=
  let openAPIData := initOpenAPIData openAPIData in
  let* info := Js.getR "info" openAPIData in
  let* version := Js.getR "version" info in
  let* paths := Js.getR "paths" openAPIData in
  let* ps := Js.keys (Js.or paths (JObj [])) in
  foldR (groupPath paths) ps [].

End Grouping.

(** ** Function and type names *)

(** one path more in the column table of [getBasePrefix] *)
Fixpoint pushColumns (arr : list (list string)) (pathItem : list string)
  : list (list string) :=
  match pathItem, arr with
  | [], _ => arr
  | item :: rest, [] => [item] :: pushColumns [] rest
  | item :: rest, column :: arr' => (column ++ [item]) :: pushColumns arr' rest
  end.

(** [every] stops at the first column with more than one distinct entry *)
Fixpoint leadingSingletons (columns : list (list string)) : list (list string) :=
  match columns with
  | [item] :: rest => [item] :: leadingSingletons rest
  | _ => []
  end.

Definition getBasePrefix (paths : list string) : string :=
  let arr := fold_left pushColumns (map (Str.split "/") paths) [] in
  let res := leadingSingletons (map Str.uniq arr) in
  Str.join "/" (map (Str.join ",") res) +:+ "/".

Section FunctionNames.
Context `{Platform}.
Variable config : GenerateServiceProps.
Variable openAPIData : JsVal.

Definition genDefaultSegment (str : string) : Res string :=
  let* s := resolveTypeName (JStr str) in
  let s := if Str.includes "-" s then Str.upperDashRuns s else s in
  if Str.matchBraced s
  then Ok ("By" +:+ Str.toUpperFirstLetter
                      (Str.take (String.length s - 2) (Str.drop 1 s)))
  else Ok (Str.toUpperFirstLetter s).

(** [genDefaultFunctionName]; the optional chain yields [undefined] for a
    missing path *)
Definition genDefaultFunctionName (path : JsVal) (pathBasePrefix : string) : Res JsVal :=
  match path with
  | JUndef | JNull => Ok JUndef
  | _ =>
      let* p := Js.asString path in
      let* segments :=
        mapR genDefaultSegment (Str.split "/" (Str.replaceFirst pathBasePrefix "" p)) in
      Ok (JStr (Str.join "" segments))
  end.

Definition resolveFunctionName (functionName : string) (methodName : JsVal) : Res string :=
  if ReservedDict_check (JStr functionName) then
    let* m := Js.asString methodName in
    Ok (functionName +:+ "Using" +:+ Str.toUpperCase m)
  else Ok functionName.

Definition getFuncationName (data : JsVal) : Res JsVal :=
  let* paths := Js.getR "paths" openAPIData in
  let* ps := Js.keys paths in
  let pathBasePrefix := getBasePrefix ps in
  match customFunctionName (hook config) with
  | Some f => Ok (f data)
  | None =>
      if Js.truthy (Js.get "operationId" data) then
        let* stripped := stripDot (Js.get "operationId" data) in
        let* name := resolveFunctionName stripped (Js.get "method" data) in
        Ok (JStr name)
      else
        let* rest := genDefaultFunctionName (Js.get "path" data) pathBasePrefix in
        Ok (Js.add (Js.get "method" data) rest)
  end.

Definition getTypeName (data : JsVal) : Res string :=
  let namespace :=
    if Js.truthy (namespace config) then Js.toStr (namespace config) +:+ "." else "" in
  let* typeName :=
    match
      match customTypeName (hook config) with
      | Some f => f data
      | None => JUndef
      end
    with
    | custom => if Js.truthy custom then Ok custom else getFuncationName data
    end in
  let typeName :=
    match typeName with
    | JUndef | JNull => Js.get "operationId" data
    | _ => typeName
    end in
  resolveTypeName (JStr (namespace +:+ Js.toStr typeName +:+ "Params")).

End FunctionNames.

(** ** Parameters of one operation *)

Definition DEFAULT_PATH_PARAM : list (string * JsVal) :=
  [("in", JStr "path"); ("name", JNull);
   ("schema", JObj [("type", JStr "string")]);
   ("required", JBool true); ("isObject", JBool false); ("type", JStr "string")].

(** [Array.prototype.sort] with a comparator: the stable sort, an element
    staying ahead of the later ones it does not compare greater than *)
Fixpoint insertBy {A} (cmp : A -> A -> Z) (x : A) (l : list A) : list A :=
  match l with
  | [] => [x]
  | y :: l' => if (cmp x y <=? 0)%Z then x :: l else y :: insertBy cmp x l'
  end.

Definition sortBy {A} (cmp : A -> A -> Z) (l : list A) : list A :=
  fold_right (insertBy cmp) [] l.

Fixpoint filterR {A} (f : A -> Res bool) (l : list A) : Res (list A) :=
  match l with
  | [] => Ok []
  | x :: l' =>
      let* keep := f x in
      let* rest := filterR f l' in
      Ok (if keep then x :: rest else rest)
  end.

(** a path token joins the path parameters unless one has its name *)
Definition addImplied (pathParams : list JsVal) (name : string) : list JsVal :=
  if existsb (fun p => Js.isStr name (Js.getOpt "name" p)) pathParams
  then pathParams
  else pathParams ++ [JObj (Js.setFields DEFAULT_PATH_PARAM [("name", JStr name)])].

Section Parameters.
Context `{Platform}.
Variable config : GenerateServiceProps.
Variable openAPIData : JsVal.

(** one resolved parameter, as the template sees it *)
Definition describeParam (fuel : nat) (p : JsVal) : Res JsVal :=
  let schema := Js.or (Js.get "schema" p) (JObj []) in
  let isDirectObject :=
    Js.isStr "object" (Js.or (Js.get "type" schema) (Js.get "type" p)) in
  let* refStr :=
    Js.asString (Js.or (Js.get "$ref" schema) (Js.or (Js.get "$ref" p) (JStr ""))) in
  let ref := Str.last (Str.split "/" refStr) in
  let schemas :=
    Js.or (Js.and (Js.get "components" openAPIData)
                  (Js.get "schemas" (Js.get "components" openAPIData)))
          (JObj []) in
  let deRefObj :=
    match Js.assoc ref (Js.ownProps schemas) with
    | Some v => v
    | None => JUndef
    end in
  let isRefObject := Js.isStr "object" (Js.get "type" (Js.or deRefObj (JObj []))) in
  let* type :=
    getType config fuel (Js.or (Js.get "schema" p) DEFAULT_SCHEMA) (namespace config) in
  Ok (JObj (Js.setFields (Js.ownProps p)
              [("isObject", JBool (isDirectObject || isRefObject)); ("type", type)])).

Definition paramsOfSource (fuel : nat) (parameters : list JsVal)
    (templateParams : list (string * JsVal)) (source : string)
  : Res (list (string * JsVal)) :=
  let* resolved := mapR (resolveRefObject openAPIData fuel) parameters in
  let* located :=
    filterR (fun p => let* i := Js.getR "in" p in Ok (Js.isStr source i)) resolved in
  let* params := mapR (describeParam fuel) located in
  match params with
  | [] => Ok templateParams
  | _ => Ok (Js.setField source (JArr params) templateParams)
  end.

Definition getParamsTP (fuel : nat) (parameters : JsVal) (path : JsVal)
  : Res (list (string * JsVal)) :=
  let parameters := match parameters with JUndef => JArr [] | _ => parameters end in
  let* templateParams :=
    if Js.truthy parameters && Js.truthy (Js.get "length" parameters) then
      let* l := Js.asArray parameters in
      foldR (paramsOfSource fuel l) ["query"; "path"; "cookie"] []
    else Ok [] in
  if Js.truthy path
     && match Js.get "length" path with JNum n => (0 <? n)%Z | _ => false end
  then
    let* declared :=
      Js.asArray
        (Js.or (match Js.assoc "path" templateParams with Some v => v | None => JUndef end)
               (JArr [])) in
    let pathParams := fold_left addImplied (Str.braceTokens (Js.toStr path)) declared in
    match pathParams with
    | [] => Ok (Js.removeField "path" templateParams)
    | _ => Ok (Js.setField "path" (JArr pathParams) templateParams)
    end
  else Ok templateParams.

End Parameters.

(** ** Request bodies (getBodyTP, getFileTP, resolveFileTP) *)

(** [schema.required?.includes(fieldName) ?? false] *)
Definition requiredOf (schema : JsVal) (fieldName : string) : Res JsVal :=
  match Js.get "required" schema with
  | JUndef | JNull => Ok (JBool false)
  | JArr l => Ok (JBool (Js.includes (JStr fieldName) l))
  | JStr s => Ok (JBool (Str.includes fieldName s))
  | _ => Throw TypeError
  end.

Section Bodies.
Context `{Platform}.
Variable config : GenerateServiceProps.
Variable openAPIData : JsVal.

(** a property of a body schema that is sent as a file: its format, or
    the format of its items when it is an array, is binary or base64.
    The items are read only when the type asks for them. *)
Definition sentAsFile (property : JsVal) : Res bool :=
  if Js.oneOf ["binary"; "base64"] (Js.or (Js.get "format" property) (JStr "")) then Ok true
  else if Js.oneOf ["string[]"; "array"] (Js.or (Js.get "type" property) (JStr "")) then
    let* format := Js.getR "format" (Js.get "items" property) in
    Ok (Js.oneOf ["binary"; "base64"] (Js.or format (JStr "")))
  else Ok false.

(** one element of the [map] over the keys of [schema.properties]:
    [undefined] for a missing property and for a file *)
Definition bodyProperty (fuel : nat) (schema : JsVal) (p : string) : Res JsVal :=
  let property := Js.get p (Js.get "properties" schema) in
  if negb (Js.truthy property) then Ok JUndef
  else
    let* file := sentAsFile property in
    if file then Ok JUndef
    else
      let* type := getType config fuel property (namespace config) in
      let* required := requiredOf schema p in
      Ok (JObj [("key", JStr p);
                ("schema", JObj (Js.setFields (Js.ownProps property)
                                   [("type", type); ("required", required)]))]).

(** [typeof requestBody.required === 'boolean' ? requestBody.required : false] *)
Definition bodyRequired (requestBody : JsVal) : JsVal :=
  match Js.get "required" requestBody with
  | JBool b => JBool b
  | _ => JBool false
  end.

Definition getBodyTP (fuel : nat) (requestBody : JsVal) : Res JsVal :=
  let requestBody := match requestBody with JUndef => JObj [] | _ => requestBody end in
  let* reqBody := resolveRefObject openAPIData fuel requestBody in
  if negb (Js.truthy reqBody) then Ok JNull
  else
    let reqContent := Js.get "content" reqBody in
    if negb (Js.typeofObject reqContent) then Ok JNull
    else
      let* ks := Js.keys reqContent in
      let mediaType := match ks with [] => JUndef | k :: _ => JStr k end in
      let* declared := Js.getR "schema" (Js.get (Js.toStr mediaType) reqContent) in
      let schema := Js.or declared DEFAULT_SCHEMA in
      let mediaType := if Js.isStr "*/*" mediaType then JStr "" else mediaType in
      let required := bodyRequired requestBody in
      if Js.isStr "object" (Js.get "type" schema) && Js.truthy (Js.get "properties" schema)
      then
        let* ps := Js.keys (Js.get "properties" schema) in
        let* entries := mapR (bodyProperty fuel schema) ps in
        let propertiesList := List.filter Js.truthy entries in
        Ok (JObj (Js.setFields [("mediaType", mediaType)]
                    (Js.ownProps schema
                     ++ [("required", required); ("propertiesList", JArr propertiesList)])))
      else
        let* type := getType config fuel schema (namespace config) in
        Ok (JObj [("mediaType", mediaType); ("required", required); ("type", type)]).

(** the filter of [resolveFileTP]: the format is compared first, and the
    items are read only for an array that is not a file by its format *)
Definition isFileProp (p : JsVal) : Res bool :=
  let* format := Js.getR "format" p in
  if Js.isStr "binary" format || Js.isStr "base64" format then Ok true
  else if Js.isStr "string[]" (Js.get "type" p) || Js.isStr "array" (Js.get "type" p) then
    let* itemsFormat := Js.getR "format" (Js.get "items" p) in
    Ok (Js.isStr "binary" itemsFormat || Js.isStr "base64" itemsFormat)
  else Ok false.

Definition fileEntry (p : JsVal) : JsVal :=
  JObj [("title", Js.get "name" p);
        ("multiple",
         JBool (Js.isStr "string[]" (Js.get "type" p) || Js.isStr "array" (Js.get "type" p)))].

(** the file properties among [resolved.props[0]]; a length that is no
    number is left unmodelled *)
Definition fileProps (resolved : JsVal) : Res (list JsVal) :=
  let props := Js.get "props" resolved in
  if negb (Js.truthy props) then Ok []
  else
    match Js.get "length" props with
    | JNum n =>
        if (0 <? n)%Z then
          let* first := Js.asArray (Js.get "0" props) in
          filterR isFileProp first
        else Ok []
    | JUndef => Ok []
    | _ => Unmodelled
    end.

(** [resolveFileTP]; the fuel bounds the descent through [type] *)
Fixpoint resolveFileTP (fuel : nat) (obj : JsVal) : Res (list JsVal) :=
  match fuel with
  | 0 => OutOfFuel
  | S fuel' =>
      let* resolved := resolveObject config openAPIData fuel' obj in
      let* props := fileProps resolved in
      let ret := map fileEntry props in
      if Js.truthy (Js.get "type" resolved) then
        let* more := resolveFileTP fuel' (Js.get "type" resolved) in
        Ok (ret ++ more)
      else Ok ret
  end.

Definition getFileTP (fuel : nat) (requestBody : JsVal) : Res JsVal :=
  let requestBody := match requestBody with JUndef => JObj [] | _ => requestBody end in
  let* reqBody := resolveRefObject openAPIData fuel requestBody in
  let form :=
    Js.and reqBody
      (Js.and (Js.get "content" reqBody)
              (Js.get "multipart/form-data" (Js.get "content" reqBody))) in
  if Js.truthy form then
    let* ret := resolveFileTP fuel (Js.get "schema" form) in
    match ret with
    | [] => Ok JNull
    | _ => Ok (JArr ret)
    end
  else Ok JNull.

End Bodies.

(** ** Operation descriptors (getServiceTP) *)

(** The collision counter of one tag: the first use of a name records 1,
    every later use adds one and appends the new count.  [tmpFunctionRD]
    holds the counts the loop has written; the program keeps them in a
    plain object, so a name that object inherits ([toString], say) is found
    there at its first use already: the test passes, and [+= 1] adds one to
    a value of the host, whose text the suffix then is. *)
Definition dedupFunctionName (tmpFunctionRD : gmap string nat) (functionName : JsVal)
  : Res (JsVal * gmap string nat) :=
  if Js.truthy functionName then
    match tmpFunctionRD !! Js.toStr functionName with
    | Some (S n) =>
        Ok (JStr (Js.toStr functionName +:+ "_" +:+ pretty (S (S n))),
            <[Js.toStr functionName := S (S n)]> tmpFunctionRD)
    | Some 0 => Ok (functionName, <[Js.toStr functionName := 1]> tmpFunctionRD)
    | None =>
        if Js.inherited (Js.toStr functionName) then Unmodelled
        else Ok (functionName, <[Js.toStr functionName := 1]> tmpFunctionRD)
    end
  else Ok (functionName, tmpFunctionRD).

(** [api.path.includes('${')], the test of the filter *)
Definition hasTemplateVariable (api : JsVal) : Res bool :=
  match Js.get "path" api with
  | JStr s => Ok (Str.includes "${" s)
  | JArr l => Ok (Js.includes (JStr "${") l)
  | _ => Throw TypeError
  end.

(** [{ ...ele, alias: `param${index}` }] for each path parameter *)
Fixpoint aliasFrom (index : nat) (pathParams : list JsVal) : list JsVal :=
  match pathParams with
  | [] => []
  | ele :: rest =>
      JObj (Js.setFields (Js.ownProps ele) [("alias", JStr ("param" +:+ pretty index))])
      :: aliasFrom (S index) rest
  end.

(** one step of the [forEach] that writes the aliases into the path *)
Definition replaceAlias (formattedPath : string) (param : JsVal) : string :=
  Str.replaceFirst ("${" +:+ Js.toStr (Js.getOpt "name" param) +:+ "}")
                   ("${" +:+ Js.toStr (Js.getOpt "alias" param) +:+ "}")
                   formattedPath.

(** [replaceDot] *)
Definition replaceDot (s : string) : string :=
  Str.upperAfter Str.isDashUnderscoreSpace
    (string_of_list_ascii
       (map (fun c => if Ascii.eqb c "." then "_"%char else c) (list_ascii_of_string s))).

(** state carried along one tag's operations *)
Record TagState : Type := {
  tmpFunctionRD : gmap string nat;
  mappings : list JsVal
}.

Section Service.
Context `{Platform}.
Variable config : GenerateServiceProps.
Variable openAPIData : JsVal.

Definition getPrefixPath (tag : string) (newApi functionName : JsVal)
    (formattedPath : string) : string :=
  match apiPrefix config with
  | ApiPrefixNone | ApiPrefixString EmptyString => formattedPath
  | given =>
      let prefix :=
        match given with
        | ApiPrefixFunction f =>
            Str.trim (Js.toStr (f (JObj [("path", JStr formattedPath);
                                         ("method", Js.get "method" newApi);
                                         ("namespace", JStr tag);
                                         ("functionName", functionName)])))
        | ApiPrefixString p => Str.trim p
        | ApiPrefixNone => EmptyString
        end in
      if String.eqb prefix EmptyString then formattedPath
      else if String.prefix "'" prefix
              || String.prefix (String Str.dquote EmptyString) prefix
              || String.prefix "`" prefix
      then
        let finalPrefix := Str.take (String.length prefix - 2) (Str.drop 1 prefix) in
        if String.prefix finalPrefix formattedPath
           || String.prefix ("/" +:+ finalPrefix) formattedPath
        then formattedPath
        else finalPrefix +:+ formattedPath
      else "${" +:+ prefix +:+ "}" +:+ formattedPath
  end.

(** [(body.mediaType || '').includes('form-data')] *)
Definition sentAsForm (body : JsVal) : Res bool :=
  match Js.or (Js.get "mediaType" body) (JStr "") with
  | JStr s => Ok (Str.includes "form-data" s)
  | JArr l => Ok (Js.includes (JStr "form-data") l)
  | _ => Throw TypeError
  end.

(** The body of the [map] over one tag's operations.  Between [getBodyTP]
    and [getFileTP] the program calls [getResponseTP], which fills the
    field [response], writes into the document and can abort the run; that
    call is left out here, and the descriptor carries every other field.
    A vendor path that is not a string makes the first String method
    called on it throw. *)
Definition describeOperation (fuel : nat) (tag : string) (st : TagState) (api : JsVal)
  : Res (JsVal * TagState) :=
  let newApi := api in
  let* allParams :=
    getParamsTP config openAPIData fuel (Js.get "parameters" newApi) (Js.get "path" newApi) in
  let* body := getBodyTP config openAPIData fuel (Js.get "requestBody" newApi) in
  let params := allParams in
  let* file := getFileTP config openAPIData fuel (Js.get "requestBody" newApi) in
  let* formData :=
    if Js.truthy body then
      let* form := sentAsForm body in
      Ok (form || Js.truthy file)
    else Ok (Js.truthy file) in
  let* functionName := getFuncationName config openAPIData newApi in
  let* (functionName, rd) := dedupFunctionName (tmpFunctionRD st) functionName in
  let* path := Js.asString (Js.get "path" newApi) in
  let formattedPath := JStr (Str.templateVars path) in
  let bundle :=
    Js.and (Js.get "extensions" newApi)
           (Js.get "x-antTech-description" (Js.get "extensions" newApi)) in
  let '(formattedPath, maps, newApi) :=
    if Js.truthy bundle then
      let formattedPath := Js.or (Js.get "antTechApiName" bundle) formattedPath in
      (formattedPath,
       mappings st ++ [JObj [("antTechApi", formattedPath);
                             ("popAction", Js.get "apiName" bundle);
                             ("popProduct", Js.get "productCode" bundle);
                             ("antTechVersion", Js.get "antTechVersion" bundle)]],
       JObj (Js.setField "antTechVersion" (Js.get "antTechVersion" bundle)
               (Js.ownProps newApi)))
    else (formattedPath, mappings st, newApi) in
  let* formattedPath := Js.asString formattedPath in
  let* pathParams :=
    Js.asArray
      (Js.or (match Js.assoc "path" params with Some v => v | None => JUndef end)
             (JArr [])) in
  let escapedPathParams := aliasFrom 0 pathParams in
  let formattedPath := fold_left replaceAlias escapedPathParams formattedPath in
  let finalParams :=
    match escapedPathParams with
    | [] => params
    | _ => Js.setField "path" (JArr escapedPathParams) params
    end in
  let* finalParams :=
    match Js.assoc "query" finalParams with
    | Some query =>
        if Js.truthy query then
          let* l := Js.asArray query in
          Ok (Js.setField "query"
                (JArr (map (fun ele =>
                              JObj (Js.setFields (Js.ownProps ele)
                                      [("isComplexType", Js.getOpt "isObject" ele)])) l))
                finalParams)
        else Ok finalParams
    | None => Ok finalParams
    end in
  let* typeName := getTypeName config openAPIData newApi in
  let desc :=
    if Js.strictEq functionName (Js.get "summary" newApi)
    then Js.get "description" newApi
    else
      let returned := Js.getOpt "description" (Js.getOpt "default" (Js.get "responses" newApi)) in
      JStr (Js.join " "
              (List.filter Js.truthy
                 [Js.get "summary" newApi; Js.get "description" newApi;
                  if Js.truthy returned
                  then JStr ("Return Value: " +:+ Js.toStr returned)
                  else JStr ""])) in
  let options :=
    Js.or (match customOptionsDefaultValue (hook config) with
           | Some f => f newApi
           | None => JUndef
           end) (JObj []) in
  Ok (JObj (Js.setFields (Js.ownProps newApi)
              [("functionName",
                if isCamelCase config then JStr (camelCase functionName) else functionName);
               ("typeName", JStr typeName);
               ("path", JStr (getPrefixPath tag newApi functionName formattedPath));
               ("pathInComment", JStr (Str.escapeStars formattedPath));
               ("hasPathVariables", JBool (Str.includes "{" formattedPath));
               ("hasApiPrefix",
                JBool match apiPrefix config with
                      | ApiPrefixNone | ApiPrefixString EmptyString => false
                      | _ => true
                      end);
               ("method", Js.get "method" newApi);
               ("desc", desc);
               ("hasHeader",
                JBool (match Js.assoc "header" params with
                       | Some header => Js.truthy header
                       | None => false
                       end
                       || Js.truthy (Js.and body (Js.get "mediaType" body))));
               ("params", JObj finalParams);
               ("hasParams", JBool (negb (Nat.eqb (length finalParams) 0)));
               ("options", options);
               ("body", body);
               ("file", file);
               ("hasFormData", JBool formData)]),
      {| tmpFunctionRD := rd; mappings := maps |}).

(** [a.path.localeCompare(b.path)] *)
Definition comparePath (a b : JsVal) : Z :=
  localeCompare (Js.toStr (Js.get "path" a)) (Js.toStr (Js.get "path" b)).

(** the descriptors of one tag, before they are sorted: the operations
    whose path holds no template variable, mapped in order *)
Fixpoint describeAll (fuel : nat) (tag : string) (st : TagState) (apis : list JsVal)
  : Res (list JsVal * TagState) :=
  match apis with
  | [] => Ok ([], st)
  | api :: rest =>
      let* (d, st') := describeOperation fuel tag st api in
      let* (ds, st'') := describeAll fuel tag st' rest in
      Ok (d :: ds, st'')
  end.

Definition genParamsOf (fuel : nat) (tag : string) (maps : list JsVal) (apis : list JsVal)
  : Res (list JsVal * list JsVal) :=
  let* kept := filterR (fun api => let* v := hasTemplateVariable api in Ok (negb v)) apis in
  let* (ds, st) := describeAll fuel tag {| tmpFunctionRD := ∅; mappings := maps |} kept in
  Ok (sortBy comparePath ds, mappings st).

(** one entry of the result of [getServiceTP] *)
Record ServiceTP : Type := {
  className : JsVal;
  instanceName : string;
  list_ : list JsVal
}.

(** what [getServiceTP] leaves behind: the entries, [this.mappings] and
    [this.classNameList] *)
Record ServiceOutput : Type := {
  services : list ServiceTP;
  outMappings : list JsVal;
  classNameList : list JsVal
}.

Definition serviceOfTag (fuel : nat) (acc : ServiceOutput * nat) (entry : string * list JsVal)
  : Res (ServiceOutput * nat) :=
  let '(out, index) := acc in
  let '(tag, apis) := entry in
  let* (genParams, maps) := genParamsOf fuel tag (outMappings out) apis in
  let fileName :=
    match replaceDot tag with
    | EmptyString => "api" +:+ pretty index
    | f => f
    end in
  let className :=
    match customClassName (hook config) with
    | Some f => f tag
    | None => JStr fileName
    end in
  let instanceName :=
    match fileName with
    | EmptyString => "undefined"
    | String c rest => String (Str.toLowerChar c) rest
    end in
  let tp := {| className := className; instanceName := instanceName; list_ := genParams |} in
  Ok ({| services :=
           match genParams with
           | [] => services out
           | _ => services out ++ [tp]
           end;
         outMappings := maps;
         classNameList :=
           match genParams with
           | [] => classNameList out
           | _ => classNameList out
                  ++ [JObj [("fileName", className); ("controllerName", className)]]
           end |},
      S index).

(** [getServiceTP]; [maps] and [classNames] are [this.mappings] and
    [this.classNameList] as the call finds them, both empty on a new
    generator *)
Definition getServiceTP (fuel : nat) (apiData : TagAPIDataType) (maps classNames : list JsVal)
  : Res ServiceOutput :=
  let* (out, _) :=
    foldR (serviceOfTag fuel) apiData
          ({| services := []; outMappings := maps; classNameList := classNames |}, 0) in
  Ok out.

End Service.

(** ** Writes into the document

    Two places assign into objects that belong to the input document.  The
    document is a tree, so a node is named by the keys that lead to it, and
    a function that writes takes the document and returns it. *)

Fixpoint lookup (loc : list string) (doc : JsVal) : JsVal :=
  match loc with
  | [] => doc
  | k :: rest => lookup rest (Js.getOpt k doc)
  end.

Fixpoint alterField (k : string) (f : JsVal -> JsVal) (l : list (string * JsVal))
  : list (string * JsVal) :=
  match l with
  | [] => []
  | (k', v) :: l' =>
      if String.eqb k k' then (k', f v) :: l' else (k', v) :: alterField k f l'
  end.

(** the document with [f] applied to the node at [loc], if there is one *)
Fixpoint updateAt (loc : list string) (f : JsVal -> JsVal) (doc : JsVal) : JsVal :=
  match loc with
  | [] => f doc
  | k :: rest =>
      match doc with
      | JObj l => JObj (alterField k (updateAt rest f) l)
      | JArr l =>
          match Str.arrayIndex k with
          | Some i => JArr (alter (updateAt rest f) i l)
          | None => doc
          end
      | _ => doc
      end
  end.

(** [node[k] = v] in strict mode: an object takes the property, a primitive
    throws, and an array would keep a named property the model has no place
    for, unless the value is [undefined], which is what a read of the
    missing property gives anyway *)
Definition assignProp (k : string) (v : JsVal) (node : JsVal) : Res JsVal :=
  match node with
  | JObj l => Ok (JObj (Js.setField k v l))
  | JArr _ => match v with JUndef => Ok node | _ => Unmodelled end
  | _ => Throw TypeError
  end.

(** a computation that reads and writes the document *)
Definition St (A : Type) : Type := JsVal -> Res A * JsVal.

Definition sret {A} (a : A) : St A := fun doc => (Ok a, doc).

Definition sbind {A B} (m : St A) (k : A -> St B) : St B :=
  fun doc =>
    match m doc with
    | (Ok a, doc') => k a doc'
    | (Throw e, doc') => (Throw e, doc')
    | (OutOfFuel, doc') => (OutOfFuel, doc')
    | (Unmodelled, doc') => (Unmodelled, doc')
    end.

Definition lift {A} (r : Res A) : St A := fun doc => (r, doc).

Definition readAt (loc : list string) : St JsVal := fun doc => (Ok (lookup loc doc), doc).

Definition getDoc : St JsVal := fun doc => (Ok doc, doc).

(** [node[k] = v] for the node at [loc] *)
Definition assignAt (loc : list string) (k : string) (v : JsVal) : St unit :=
  fun doc =>
    match assignProp k v (lookup loc doc) with
    | Ok node' => (Ok tt, updateAt loc (fun _ => node') doc)
    | Throw e => (Throw e, doc)
    | OutOfFuel => (OutOfFuel, doc)
    | Unmodelled => (Unmodelled, doc)
    end.

Notation "'do*' x ':=' m 'in' k" := (sbind m (fun x => k))
  (at level 10, x pattern, m at level 100, k at level 200).

Fixpoint foldS {A S} (f : S -> A -> St S) (l : list A) (s : S) : St S :=
  match l with
  | [] => sret s
  | x :: l' => do* s' := f s x in foldS f l' s'
  end.

Section Interface.
Context `{Platform}.
Variable config : GenerateServiceProps.

(** one named schema of [components.schemas] *)
Definition defineEntry (fuel : nat) (openAPIData defines : JsVal) (typeName : string)
  : Res JsVal :=
  let* result := resolveObject config openAPIData fuel (Js.get typeName defines) in
  let type :=
    if Js.truthy (Js.get "type" result)
    then if Js.isStr "object" (Js.getOpt "type" (Js.get typeName defines))
         then JBool true else Js.get "type" result
    else JStr "Record<string, any>" in
  let* name := resolveTypeName (JStr typeName) in
  Ok (JObj [("typeName", JStr name); ("type", type);
            ("parent", Js.get "parent" result);
            ("props", Js.or (Js.get "props" result) (JArr []));
            ("isEnum", Js.get "isEnum" result)]).

(** [data]: a falsy value, or the list holding the list of named schemas *)
Definition interfaceDefines (fuel : nat) (openAPIData : JsVal) : Res JsVal :=
  let* components := Js.getR "components" openAPIData in
  if negb (Js.truthy components) then Ok components
  else if negb (Js.truthy (Js.get "schemas" components)) then Ok (Js.get "schemas" components)
  else
    let defines := Js.get "schemas" components in
    let* ks := Js.keys defines in
    let* entries := mapR (defineEntry fuel openAPIData defines) ks in
    Ok (JArr [JArr entries]).

(** [operationObject.parameters?.filter(item => item?.in !== 'header')] *)
Definition withoutHeaders (parameters : JsVal) : Res JsVal :=
  match parameters with
  | JUndef | JNull => Ok JUndef
  | JArr l => Ok (JArr (List.filter (fun item => negb (Js.isStr "header" (Js.getOpt "in" item))) l))
  | _ => Throw TypeError
  end.

Definition paramProp (fuel : nat) (parameter : JsVal) : Res JsVal :=
  let* description := Js.getR "description" parameter in
  let* type := getType config fuel (Js.get "schema" parameter) JUndef in
  Ok (JObj [("desc", match description with JUndef | JNull => JStr "" | d => d end);
            ("name", Js.get "name" parameter);
            ("required", Js.get "required" parameter);
            ("type", type)]).

Definition paramProps (fuel : nat) (parameters : JsVal) : Res (list JsVal) :=
  if Js.truthy parameters then
    let* l := Js.asArray parameters in mapR (paramProp fuel) l
  else Ok [].

(** what follows the assignment: the parameter list is read back, and the
    operation gets a Params type when it has parameters *)
Definition interfaceEntry (fuel : nat) (p method : string) (data pathItem : JsVal)
  : St JsVal :=
  do* operationObject := readAt ["paths"; p; method] in
  do* own := lift (paramProps fuel (Js.get "parameters" operationObject)) in
  do* shared := lift (paramProps fuel (Js.get "parameters" pathItem)) in
  let props := own ++ shared in
  match props, Js.truthy data with
  | _ :: _, true =>
      do* openAPIData := getDoc in
      do* typeName :=
        lift (getTypeName config openAPIData
                (JObj (Js.setFields (Js.ownProps operationObject)
                         [("method", JStr method); ("path", JStr p)]))) in
      do* entries := lift (Js.asArray data) in
      sret (JArr (entries ++
                  [JArr [JObj [("typeName", JStr typeName);
                               ("type", JStr "Record<string, any>");
                               ("parent", JUndef);
                               ("props", JArr [JArr props]);
                               ("isEnum", JBool false)]]]))
  | _, _ => sret data
  end.

(** the body of the loop over the methods of one path: the operation's
    parameter list is replaced in the document *)
Definition interfaceMethod (fuel : nat) (p : string) (data : JsVal) (method : string)
  : St JsVal :=
  do* pathItem := readAt ["paths"; p] in
  do* operationObject := lift (Js.getR method pathItem) in
  if negb (Js.truthy operationObject) then sret data
  else
    do* kept := lift (withoutHeaders (Js.get "parameters" operationObject)) in
    do* _ := assignAt ["paths"; p; method] "parameters" kept in
    interfaceEntry fuel p method data pathItem.

Definition interfacePath (fuel : nat) (data : JsVal) (p : string) : St JsVal :=
  foldS (interfaceMethod fuel p) methods data.

(** [a.typeName.localeCompare(b.typeName)] *)
Definition compareTypeName (a b : JsVal) : Z :=
  localeCompare (Js.toStr (Js.get "typeName" a)) (Js.toStr (Js.get "typeName" b)).

(** [data.reduce((p, c) => p && c && p.concat(c), [])] on a list of lists *)
Fixpoint concatAll (data : list JsVal) : Res (list JsVal) :=
  match data with
  | [] => Ok []
  | c :: rest =>
      let* l := Js.asArray c in
      let* ls := concatAll rest in
      Ok (l ++ ls)
  end.

Definition getInterfaceTP (fuel : nat) : St JsVal :=
  do* openAPIData := getDoc in
  do* data := lift (interfaceDefines fuel openAPIData) in
  do* paths := lift (Js.getR "paths" openAPIData) in
  do* ps := lift (Js.keys (Js.or paths (JObj []))) in
  do* data := foldS (interfacePath fuel) ps data in
  if Js.truthy data then
    do* lists := lift (Js.asArray data) in
    do* all := lift (concatAll lists) in
    sret (JArr (sortBy compareTypeName all))
  else sret data.

End Interface.

Section Response.
Context `{Platform}.
Variable config : GenerateServiceProps.

(** Where the fields of [resolveRefObject(v)] live in the document, for a
    node [v] found at [vloc]: the spread copies the fields of the last
    node of the reference chain, so all but [type] are shared with it. *)
Fixpoint refTargetLoc (fuel : nat) (openAPIData : JsVal) (v : JsVal) (vloc : list string)
  : list string :=
  if negb (Js.truthy v) || negb (Js.truthy (Js.get "$ref" v)) then vloc
  else
    match Js.get "$ref" v with
    | JStr ref =>
        let refPaths := Str.split "/" ref in
        if String.eqb (hd "" refPaths) "#" then
          match fuel with
          | 0 => vloc
          | S fuel' =>
              refTargetLoc fuel' openAPIData (lookup (tl refPaths) openAPIData) (tl refPaths)
          end
        else vloc
    | _ => vloc
    end.

Definition defaultResponse : JsVal :=
  JObj [("mediaType", JStr "*/*"); ("type", JStr "any")].

(** the first configured envelope field that the named schema declares *)
Fixpoint firstDataField (properties : JsVal) (fields : list JsVal)
  : Res (option (string * JsVal)) :=
  match fields with
  | [] => Ok None
  | field :: rest =>
      let* v := Js.read (Js.toStr field) properties in
      let* later := firstDataField properties rest in
      Ok (if Js.truthy v then Some (Js.toStr field, v) else later)
  end.

(** [responses.default || responses['200'] || responses['201']], and where
    the operand that is taken lives *)
Definition pickResponse (responses : JsVal) (loc : list string) : JsVal * list string :=
  if Js.truthy (Js.get "default" responses)
  then (Js.get "default" responses, loc ++ ["default"])
  else if Js.truthy (Js.get "200" responses)
  then (Js.get "200" responses, loc ++ ["200"])
  else (Js.get "201" responses, loc ++ ["201"]).

(** the schema of the media type, or the shared default schema, which is
    no part of the document *)
Definition declaredSchema (declared : JsVal) (base : list string) (mediaType : string)
  : JsVal * option (list string) :=
  if Js.truthy declared
  then (declared, Some (base ++ ["content"; mediaType; "schema"]))
  else (DEFAULT_SCHEMA, None).

(** a reference to a named object schema is replaced by the first
    configured data field that the named schema declares; under a name the
    table of schemas only inherits, what is found has no [type], and the
    test fails on it as it does on [undefined] *)
Definition envelopeSchema (openAPIData : JsVal) (original : JsVal * option (list string))
  : Res (JsVal * option (list string)) :=
  let components := Js.get "components" openAPIData in
  if Js.truthy (Js.get "$ref" (fst original)) then
    let* ref := Js.asString (Js.get "$ref" (fst original)) in
    let refName := Str.last (Str.split "/" ref) in
    let* schemas := Js.getR "schemas" components in
    let* childrenSchema := Js.getR refName schemas in
    let* declares :=
      if Js.isStr "object" (Js.getOpt "type" childrenSchema)
      then Js.hasProp "properties" childrenSchema else Ok false in
    if declares && Js.truthy (dataFields config) then
      let* fields := Js.asArray (dataFields config) in
      let* found := firstDataField (Js.get "properties" childrenSchema) fields in
      match found with
      | Some (field, v) =>
          Ok (v, Some ["components"; "schemas"; refName; "properties"; field])
      | None => Ok original
      end
    else Ok original
  else Ok original.

(** Everything [getResponseTP] does before it writes: the media type, the
    schema it is about to render, and where that schema lives in the
    document ([None] for the shared default schema).  [None] as a whole is
    the default response. *)
Definition responsePlan (fuel : nat) (openAPIData : JsVal) (loc : list string)
  : Res (option (string * JsVal * option (list string))) :=
  let responses := match lookup loc openAPIData with JUndef => JObj [] | r => r end in
  if negb (Js.truthy responses) then Ok None
  else
    let picked := pickResponse responses loc in
    let* response := resolveRefObject openAPIData fuel (fst picked) in
    if negb (Js.truthy response) then Ok None
    else
      let base := refTargetLoc fuel openAPIData (fst picked) (snd picked) in
      let resContent := Js.get "content" response in
      let* resContentMediaTypes := Js.keys (Js.or resContent (JObj [])) in
      let mediaType :=
        if existsb (String.eqb "application/json") resContentMediaTypes
        then "application/json" else hd "" resContentMediaTypes in
      if negb (Js.typeofObject resContent) || String.eqb mediaType ""
      then Ok None
      else
        let* declared := Js.getR "schema" (Js.get mediaType resContent) in
        let* chosen := envelopeSchema openAPIData (declaredSchema declared base mediaType) in
        Ok (Some (mediaType, fst chosen, snd chosen)).

(** [schema.properties[fieldName]['required'] = ...], the schema being the
    state *)
Definition stampField (_ : unit) (fieldName : string) : St unit :=
  do* schema := getDoc in
  do* v := lift (requiredOf schema fieldName) in
  assignAt ["properties"; fieldName] "required" v.

Definition stampProperties : St unit :=
  do* schema := getDoc in
  do* declared := lift (Js.hasProp "properties" schema) in
  if declared then
    do* ks := lift (Js.keys (Js.get "properties" schema)) in
    foldS stampField ks tt
  else sret tt.

(** run a computation on the node at [sloc]; a node that is not part of
    the document (the default schema) leaves the document as it is *)
Definition inNode (sloc : option (list string)) (node : JsVal) (m : St unit) : St JsVal :=
  fun doc =>
    let (outcome, node') := m node in
    (bind outcome (fun _ => Ok node'),
     match sloc with
     | Some l => updateAt l (fun _ => node') doc
     | None => doc
     end).

(** [getResponseTP(responses)], [responses] being the node at [loc] *)
Definition getResponseTP (fuel : nat) (loc : list string) : St JsVal :=
  do* openAPIData := getDoc in
  do* plan := lift (responsePlan fuel openAPIData loc) in
  match plan with
  | None => sret defaultResponse
  | Some (mediaType, schema, sloc) =>
      do* schema := inNode sloc schema stampProperties in
      do* type := lift (getType config fuel schema (namespace config)) in
      sret (JObj [("mediaType", JStr mediaType); ("type", type)])
  end.

End Response.

(** ** A platform and documents to run the model on *)

(** the reserved words of ECMAScript 5 and 6 *)
Definition reservedWords : list string :=
  ["break"; "case"; "catch"; "class"; "const"; "continue"; "debugger";
   "default"; "delete"; "do"; "else"; "enum"; "export"; "extends"; "false";
   "finally"; "for"; "function"; "if"; "implements"; "import"; "in";
   "instanceof"; "interface"; "let"; "new"; "null"; "package"; "private";
   "protected"; "public"; "return"; "static"; "super"; "switch"; "this";
   "throw"; "true"; "try"; "typeof"; "var"; "void"; "while"; "with"; "yield"].

(** code-unit order, as a comparator *)
Fixpoint leCodeUnits (a b : string) : bool :=
  match a, b with
  | EmptyString, _ => true
  | String _ _, EmptyString => false
  | String x a', String y b' =>
      if (nat_of_ascii x <? nat_of_ascii y)%nat then true
      else if (nat_of_ascii y <? nat_of_ascii x)%nat then false
      else leCodeUnits a' b'
  end.

Definition compareCodeUnits (a b : string) : Z :=
  if leCodeUnits a b then (if leCodeUnits b a then 0%Z else (-1)%Z) else 1%Z.

(** lodash's [camelCase] on ASCII text.  The apostrophes are removed, the
    words are cut out as the alternatives of lodash's word pattern match
    from left to right, each word is lower-cased, and every word but the
    first gets a capital.  On ASCII a word is: an optional capital with the
    small letters after it; a run of capitals, without its last one when a
    small letter follows the run; a run of digits, with the two letters of
    an English ordinal (1st, 2nd, 3rd, 4th) when they follow and no letter
    of that case and no digit comes next.  Every other character parts
    words; so does, here, a character outside ASCII, where lodash goes on to
    the accented letters. *)
Module Lodash.

Fixpoint span (p : ascii -> bool) (l : list ascii) : list ascii * list ascii :=
  match l with
  | c :: l' => if p c then let (a, b) := span p l' in (c :: a, b) else ([], l)
  | [] => ([], [])
  end.

Definition startsWith (p : ascii -> bool) (l : list ascii) : bool :=
  match l with
  | c :: _ => p c
  | [] => false
  end.

(** the letters that make a digit an ordinal, in small letters *)
Definition ordinalLetters (digit : ascii) : list ascii :=
  list_ascii_of_string
    (if Ascii.eqb digit "1" then "st"
     else if Ascii.eqb digit "2" then "nd"
     else if Ascii.eqb digit "3" then "rd"
     else "th").

Definition sameChars (a b : list ascii) : bool :=
  String.eqb (string_of_list_ascii a) (string_of_list_ascii b).

(** the word that starts at the head of the text, and the text after it;
    nothing when the head starts no word *)
Definition nextWord (l : list ascii) : option (list ascii * list ascii) :=
  match l with
  | [] => None
  | c :: _ =>
      if Str.isLower c then Some (span Str.isLower l)
      else if Str.isUpper c then
        let (capitals, after) := span Str.isUpper l in
        if startsWith Str.isLower after then
          match capitals with
          | [_] => let (smalls, after') := span Str.isLower after in
                   Some (capitals ++ smalls, after')
          | _ => Some (removelast capitals, List.last capitals c :: after)
          end
        else Some (capitals, after)
      else if Str.isDigit c then
        let (digits, after) := span Str.isDigit l in
        let letters := ordinalLetters (List.last digits c) in
        match after with
        | a :: b :: rest =>
            if sameChars [a; b] (map Str.toUpperChar letters)
               && negb (startsWith (fun x => Str.isUpper x || Str.isDigit x) rest)
            then Some (digits ++ [a; b], rest)
            else if sameChars [a; b] letters
                    && negb (startsWith (fun x => Str.isLower x || Str.isDigit x) rest)
            then Some (digits ++ [a; b], rest)
            else Some (digits, after)
        | _ => Some (digits, after)
        end
      else None
  end.

(** [words]; the fuel is the length of the text, every step takes a
    character at least *)
Fixpoint words_aux (fuel : nat) (l : list ascii) : list (list ascii) :=
  match fuel with
  | 0 => []
  | S fuel' =>
      match nextWord l with
      | Some (word, rest) => word :: words_aux fuel' rest
      | None =>
          match l with
          | [] => []
          | _ :: rest => words_aux fuel' rest
          end
      end
  end.

Definition words (s : string) : list (list ascii) :=
  let l := List.filter (fun c => negb (Ascii.eqb c "'")) (list_ascii_of_string s) in
  words_aux (length l) l.

Definition capitalize (word : list ascii) : list ascii :=
  match map Str.toLowerChar word with
  | c :: rest => Str.toUpperChar c :: rest
  | [] => []
  end.

Definition camelCaseString (s : string) : string :=
  match words s with
  | [] => EmptyString
  | first :: rest =>
      string_of_list_ascii (map Str.toLowerChar first ++ concat (map capitalize rest))
  end.

(** [camelCase(value)]: the value is made a string first, the empty one
    for [undefined] and [null] *)
Definition camelCase (value : JsVal) : string :=
  match value with
  | JUndef | JNull => EmptyString
  | _ => camelCaseString (Js.toStr value)
  end.

End Lodash.

(** A platform for the examples: the reserved-word table above, no
    transliteration, lodash's [camelCase] on ASCII text, code-unit
    collation. *)
#[global] Instance samplePlatform : Platform := {|
  ReservedDict_check := fun word => existsb (fun w => Js.isStr w word) reservedWords;
  convertToPinyin := fun s => s;
  camelCase := Lodash.camelCase;
  localeCompare := compareCodeUnits
|}.

Definition sampleConfig : GenerateServiceProps :=
  {| namespace := JStr "API"; apiPrefix := ApiPrefixNone;
     enumStyle := JStr "string-literal"; dataFields := JUndef;
     isCamelCase := false; hook := noHook |}.

(** the settings [generateService] starts from: [isCamelCase] is on *)
Definition generateServiceConfig : GenerateServiceProps :=
  {| namespace := JStr "API"; apiPrefix := ApiPrefixNone;
     enumStyle := JStr "string-literal"; dataFields := JUndef;
     isCamelCase := true; hook := noHook |}.

(** a document with the given path items *)
Definition docOfPaths (paths : list (string * JsVal)) : JsVal :=
  JObj [("info", JObj [("version", JStr "1.0.0")]); ("paths", JObj paths)].

(** one GET operation with no tags, no operation id and no router field *)
Definition untaggedDoc : JsVal :=
  docOfPaths [("/pets/list", JObj [("get", JObj [("summary", JStr "all pets")])])].

(** The claim's reading of "denotes a union", written from the spec's
    words: an or-join that lies outside every bracket and every quoted
    literal of the expression. *)
Fixpoint spec_topLevelOrJoin (depth : nat) (quoted : bool) (s : string) : bool :=
  match s with
  | EmptyString => false
  | String c s' =>
      if quoted then spec_topLevelOrJoin depth (negb (Ascii.eqb c Str.dquote)) s'
      else if Ascii.eqb c Str.dquote then spec_topLevelOrJoin depth true s'
      else if Ascii.eqb c "(" || Ascii.eqb c "[" || Ascii.eqb c "{"
      then spec_topLevelOrJoin (S depth) false s'
      else if Ascii.eqb c ")" || Ascii.eqb c "]" || Ascii.eqb c "}"
      then spec_topLevelOrJoin (pred depth) false s'
      else (Nat.eqb depth 0 && String.prefix " | " s)
           || spec_topLevelOrJoin depth false s'
  end.

Definition spec_denotesUnion (expression : string) : bool :=
  spec_topLevelOrJoin 0 false expression.

(** an array of [A | B] *)
Definition unionItemsSchema : JsVal :=
  JObj [("type", JStr "array");
        ("items", JObj [("oneOf", JArr [JObj [("$ref", JStr "#/components/schemas/A")];
                                        JObj [("$ref", JStr "#/components/schemas/B")]])])].

(** an object whose one property is a union *)
Definition unionPropertySchema : JsVal :=
  JObj [("type", JStr "object");
        ("properties",
         JObj [("a", JObj [("oneOf", JArr [JObj [("type", JStr "string")];
                                           JObj [("type", JStr "number")]])])])].

(** an array of such objects *)
Definition objectItemsSchema : JsVal :=
  JObj [("type", JStr "array"); ("items", unionPropertySchema)].

(** The three signals of the claim, in the spec's words. *)
Definition spec_schemaRequiredIsTrue (schemaObject : JsVal) : Prop :=
  Js.get "required" schemaObject = JBool true.

Definition spec_keyInRequiredArray (schemaObject : JsVal) (key : string) : Prop :=
  exists l, Js.get "required" schemaObject = JArr l /\ In (JStr key) l.

Definition spec_propertyFlagged (schemaObject : JsVal) (key : string) : Prop :=
  Js.truthy (Js.get "required" (Js.get key (Js.get "properties" schemaObject))) = true.

Definition spec_requiredBySignal (schemaObject : JsVal) (key : string) : Prop :=
  spec_schemaRequiredIsTrue schemaObject
  \/ spec_keyInRequiredArray schemaObject key
  \/ spec_propertyFlagged schemaObject key.

(** a property node that is an object (or an array) or missing, as the
    properties of a schema are *)
Definition objectOrFalsy (v : JsVal) : bool :=
  match v with
  | JObj _ | JArr _ => true
  | _ => negb (Js.truthy v)
  end.

(** one property of an inline object type, given its marker and type *)
Definition renderedProperty (key marker type : string) : string :=
  "'" +:+ key +:+ "'" +:+ marker +:+ ": " +:+ type +:+ "; ".

(** a schema with each of the three signals, and a property with none *)
Definition signalsSchema : JsVal :=
  JObj [("type", JStr "object");
        ("properties",
         JObj [("id", JObj [("type", JStr "number")]);
               ("name", JObj [("type", JStr "string")]);
               ("tag", JObj [("type", JStr "string"); ("required", JBool true)])]);
        ("required", JArr [JStr "name"])].

(** the spec's example: a referenced member, an inline member, and
    properties of the node's own *)
Definition allOfExample : JsVal :=
  JObj [("allOf", JArr [JObj [("$ref", JStr "#/A")];
                        JObj [("properties", JObj [("x", JObj [("type", JStr "string")])])]]);
        ("properties", JObj [("y", JObj [("type", JStr "number")])])].

(** named schemas: a plain one, and one that refers to a schema that does
    not exist *)
Definition schemaA : JsVal :=
  JObj [("type", JStr "object");
        ("properties", JObj [("id", JObj [("type", JStr "number")])])].

Definition schemaB : JsVal := JObj [("$ref", JStr "#/components/schemas/Missing")].

Definition refsDoc : JsVal :=
  JObj [("components", JObj [("schemas", JObj [("A", schemaA); ("B", schemaB)])])].

(** The claim's account of the collision suffix, in the spec's words: the
    first operation to produce a name keeps it, the k-th gets [_k].  Names
    are told apart as property keys; a falsy name is never counted. *)
Definition spec_occurrences (earlier : list JsVal) (key : string) : nat :=
  length (List.filter (fun n => Js.truthy n && String.eqb (Js.toStr n) key) earlier).

Definition spec_dedupedName (earlier : list JsVal) (name : JsVal) : JsVal :=
  if Js.truthy name then
    match spec_occurrences earlier (Js.toStr name) with
    | 0 => name
    | S k => JStr (Js.toStr name +:+ "_" +:+ pretty (S (S k)))
    end
  else name.

Fixpoint spec_dedupedNames (earlier names : list JsVal) : list JsVal :=
  match names with
  | [] => []
  | name :: rest => spec_dedupedName earlier name :: spec_dedupedNames (earlier ++ [name]) rest
  end.

(** the counter of the tag after the names [earlier]: the number of times
    each key was produced, absent when it never was *)
Definition countsOf (earlier : list JsVal) (rd : gmap string nat) : Prop :=
  forall key,
    rd !! key = match spec_occurrences earlier key with
                | 0 => None
                | S k => Some (S k)
                end.

(** the [functionName] field of a descriptor: case-folded when configured *)
Definition emittedName `{Platform} (config : GenerateServiceProps) (functionName : JsVal)
  : JsVal :=
  if isCamelCase config then JStr (camelCase functionName) else functionName.

(** three operations that all produce [listUsers] *)
Definition listUsersApis : list JsVal :=
  [JObj [("path", JStr "/users"); ("method", JStr "get"); ("operationId", JStr "listUsers")];
   JObj [("path", JStr "/users"); ("method", JStr "post"); ("operationId", JStr "listUsers")];
   JObj [("path", JStr "/users/all"); ("method", JStr "get");
         ("operationId", JStr "list_users")]].

Definition listUsersDoc : JsVal :=
  docOfPaths [("/users", JObj [("get", JObj [("operationId", JStr "listUsers")]);
                               ("post", JObj [("operationId", JStr "listUsers")])]);
              ("/users/all", JObj [("get", JObj [("operationId", JStr "list_users")])])].

(** the final path of a descriptor: what [getPrefixPath] returns for it *)
Definition isFinalPath `{Platform} (config : GenerateServiceProps) (d : JsVal) (p : string)
  : Prop :=
  Js.get "path" d = JStr p
  /\ exists tag newApi functionName formattedPath,
       p = getPrefixPath config tag newApi functionName formattedPath.

(** two operations of one tag, met in the order /pets, /cats *)
Definition petsAndCatsDoc : JsVal :=
  docOfPaths [("/pets", JObj [("get", JObj [("tags", JArr [JStr "zoo"])])]);
              ("/cats", JObj [("get", JObj [("tags", JArr [JStr "zoo"])])])].

Definition petsAndCatsApiData : TagAPIDataType :=
  [("zoo", [JObj [("path", JStr "/pets"); ("method", JStr "get");
                  ("tags", JArr [JStr "zoo"])];
            JObj [("path", JStr "/cats"); ("method", JStr "get");
                  ("tags", JArr [JStr "zoo"])]])].

(** the elements of an array value, none for any other value *)
Definition elementsOf (v : JsVal) : list JsVal :=
  match v with JArr l => l | _ => [] end.

(** what a descriptor says about its path: the final path, and the name
    and alias of each path parameter *)
Definition pathAndAliases (d : JsVal) : JsVal * list (JsVal * JsVal) :=
  (Js.get "path" d,
   map (fun p => (Js.get "name" p, Js.get "alias" p))
       (elementsOf (Js.get "path" (Js.get "params" d)))).

Definition pathsAndAliases (out : Res ServiceOutput)
  : Res (list (JsVal * list (JsVal * JsVal))) :=
  let* o := out in
  Ok (concat (map (fun tp => map pathAndAliases (list_ tp)) (services o))).

(** the spec's example path *)
Definition postsApiData : TagAPIDataType :=
  [("users", [JObj [("path", JStr "/users/{id}/posts/{postId}"); ("method", JStr "get");
                    ("tags", JArr [JStr "users"])]])].

Definition postsDoc : JsVal :=
  docOfPaths [("/users/{id}/posts/{postId}",
               JObj [("get", JObj [("tags", JArr [JStr "users"])])])].

(** a path whose second parameter is called [param0] *)
Definition swapApiData : TagAPIDataType :=
  [("x", [JObj [("path", JStr "/x/{id}/{param0}"); ("method", JStr "get");
                ("tags", JArr [JStr "x"])]])].

Definition swapDoc : JsVal :=
  docOfPaths [("/x/{id}/{param0}", JObj [("get", JObj [("tags", JArr [JStr "x"])])])].

(** a path that names the same parameter twice *)
Definition twiceApiData : TagAPIDataType :=
  [("groups", [JObj [("path", JStr "/groups/{id}/members/{id}"); ("method", JStr "get");
                     ("tags", JArr [JStr "groups"])]])].

Definition twiceDoc : JsVal :=
  docOfPaths [("/groups/{id}/members/{id}",
               JObj [("get", JObj [("tags", JArr [JStr "groups"])])])].

(** a path with a segment at least; [getBasePrefix] has nothing to enter
    for a row without one *)
Definition hasSegment (row : list string) : bool :=
  match row with
  | [] => false
  | _ :: _ => true
  end.

(** a path segment holds no slash *)
Definition slashFree (segment : string) : bool :=
  Str.allChars (fun c => negb (Ascii.eqb c "/")) segment.

(** The claim's prefix, in the spec's words: the longest run of leading
    segments that all paths of the document have in common. *)
Fixpoint spec_commonSegments (a b : list string) : list string :=
  match a, b with
  | x :: a', y :: b' => if String.eqb x y then x :: spec_commonSegments a' b' else []
  | _, _ => []
  end.

Definition spec_longestCommonPrefix (paths : list string) : list string :=
  match map (Str.split "/") paths with
  | [] => []
  | first :: others => fold_left spec_commonSegments others first
  end.

(** a GET operation at a path, with no operation id *)
Definition getAt (path : string) : JsVal :=
  JObj [("path", JStr path); ("method", JStr "get")].

(** documents with the given paths *)
Definition docWithPaths (paths : list string) : JsVal :=
  docOfPaths (map (fun p => (p, JObj [("get", JObj [])])) paths).


(** a value that has named or indexed parts of its own *)
Definition isNode (v : JsVal) : bool :=
  match v with JObj _ | JArr _ => true | _ => false end.



(** a computation that leaves the document as it is *)
Definition readsOnly {A} (m : St A) : Prop := forall doc, snd (m doc) = doc.







(** A document with one operation that takes a header parameter and a
    query parameter and answers with a named envelope schema. *)
Definition tokenParameter : JsVal :=
  JObj [("name", JStr "X-Token"); ("in", JStr "header");
        ("schema", JObj [("type", JStr "string")])].

Definition limitParameter : JsVal :=
  JObj [("name", JStr "limit"); ("in", JStr "query");
        ("schema", JObj [("type", JStr "integer")])].

Definition envelopeSchemaNode : JsVal :=
  JObj [("type", JStr "object");
        ("properties",
         JObj [("code", JObj [("type", JStr "integer")]);
               ("data",
                JObj [("type", JStr "object");
                      ("required", JArr [JStr "id"]);
                      ("properties",
                       JObj [("id", JObj [("type", JStr "integer")]);
                             ("name", JObj [("type", JStr "string")])])])])].

Definition petsDoc : JsVal :=
  JObj [("info", JObj [("version", JStr "1.0.0")]);
        ("paths",
         JObj [("/pets",
                JObj [("get",
                       JObj [("operationId", JStr "listPets");
                             ("parameters", JArr [tokenParameter; limitParameter]);
                             ("responses",
                              JObj [("200",
                                     JObj [("description", JStr "ok");
                                           ("content",
                                            JObj [("application/json",
                                                   JObj [("schema",
                                                          JObj [("$ref", JStr "#/components/schemas/Envelope")])])])])])])])]);
        ("components", JObj [("schemas", JObj [("Envelope", envelopeSchemaNode)])])].

(** the sample configuration with [dataFields: ['data']] *)
Definition envelopeConfig : GenerateServiceProps :=
  {| namespace := namespace sampleConfig;
     apiPrefix := apiPrefix sampleConfig;
     enumStyle := enumStyle sampleConfig;
     dataFields := JArr [JStr "data"];
     isCamelCase := isCamelCase sampleConfig;
     hook := hook sampleConfig |}.


Definition petsResponses : list string := ["paths"; "/pets"; "get"; "responses"].

Definition envelopeData : list string :=
  ["components"; "schemas"; "Envelope"; "properties"; "data"].


(** an operation under /pets that carries an empty tag list *)
Definition untaggedByListDoc : JsVal :=
  docOfPaths [("/pets", JObj [("get", JObj [("operationId", JStr "listPets");
                                             ("tags", JArr [])])])].

(** every group is named by one of the sources and is a list of
    parameters whose [in] is the name of the group *)
Definition filedBy (sources : list string) (templateParams : list (string * JsVal)) : Prop :=
  forall k group,
    In (k, group) templateParams ->
    In k sources
    /\ exists params,
         group = JArr params
         /\ forall param, In param params -> Js.get "in" param = JStr k.

(** an operation with a declared query parameter, a header parameter and
    a path that names a variable it does not declare *)
Definition ownerParameters : JsVal :=
  JArr [JObj [("name", JStr "limit"); ("in", JStr "query");
              ("schema", JObj [("type", JStr "integer")])];
        JObj [("name", JStr "X-Token"); ("in", JStr "header");
              ("schema", JObj [("type", JStr "string")])]].

(** an operation whose path holds asterisks *)
Definition starApi : JsVal :=
  JObj [("path", JStr "/files/*/{id}"); ("method", JStr "get");
        ("operationId", JStr "readFile")].

(** the sample configuration with the quoted literal /api as prefix *)
Definition literalPrefixConfig : GenerateServiceProps :=
  {| namespace := namespace sampleConfig;
     apiPrefix := ApiPrefixString "'/api'";
     enumStyle := enumStyle sampleConfig;
     dataFields := dataFields sampleConfig;
     isCamelCase := isCamelCase sampleConfig;
     hook := hook sampleConfig |}.

(** the prefix opens with a single quote, a double quote or a back quote *)
Definition isQuoted (prefix : string) : bool :=
  String.prefix "'" prefix
  || String.prefix (String Str.dquote EmptyString) prefix
  || String.prefix "`" prefix.

(** the entry of [classNameList] that goes with an emitted service *)
Definition controllerOf (tp : ServiceTP) : JsVal :=
  JObj [("fileName", className tp); ("controllerName", className tp)].

(** two tags, one of which holds nothing but a path with a template variable *)
Definition draftApiData : TagAPIDataType :=
  [("draft", [JObj [("path", JStr "/drafts/${id}"); ("method", JStr "get");
                    ("operationId", JStr "readDraft")]]);
   ("pets", [JObj [("path", JStr "/pets"); ("method", JStr "get");
                   ("operationId", JStr "listPets")]])].

(** a document with a parameterised operation and no [components] *)
Definition noComponentsDoc : JsVal :=
  docOfPaths [("/pets", JObj [("get", JObj [("operationId", JStr "listPets");
                                             ("parameters", JArr [limitParameter])])])].

(** an operation that answers 204 and nothing else *)
Definition noContentDoc : JsVal :=
  docOfPaths [("/pets/{id}",
               JObj [("delete",
                      JObj [("operationId", JStr "deletePet");
                            ("responses",
                             JObj [("204", JObj [("description", JStr "deleted")])])])])].


(** a letter or a digit *)
Definition isAlnum (c : ascii) : bool := Str.isDigit c || Str.isUpper c || Str.isLower c.

(** a name made of letters and digits only *)
Definition plainName (s : string) : bool := Str.allChars isAlnum s.

(** the code unit [c] does not occur in [s] *)
Definition without (c : ascii) (s : string) : bool := negb (Str.existsChar (Ascii.eqb c) s).

(** the name left of a last segment: separators folded, then every code
    unit outside the kept class removed *)
Definition cleanedName (typeLastName : string) : string :=
  Str.filterChars keptInName (Str.upperAfter Str.isDashUnderscoreSpace typeLastName).

(** the name [resolveTypeName] gives a last segment that is no reserved
    word: a lone underscore and a run of digits get the Pinyin_ mark *)
Definition markedName (typeLastName : string) : string :=
  let name := cleanedName typeLastName in
  if String.eqb name "_" || Str.allDigits name then "Pinyin_" +:+ name else name.

(** a schema that is a reference and carries other fields as well *)
Definition petReference : JsVal :=
  JObj [("type", JStr "string"); ("$ref", JStr "#/components/schemas/Pet")].

(** an operation named by its operation id *)
Definition listPetsApi : JsVal :=
  JObj [("path", JStr "/pets"); ("method", JStr "get"); ("operationId", JStr "listPets")].


(** the keys listed as required by an object schema *)
Definition requiredKeys (schemaObject : JsVal) : list JsVal :=
  match Js.getOpt "required" schemaObject with
  | JArr l => l
  | _ => []
  end.

(** an object schema with a bracketed key, required under that key *)
Definition bracketedSchema : JsVal :=
  JObj [("type", JStr "object");
        ("required", JArr [JStr "ids[]"; JStr "name"]);
        ("properties",
         JObj [("ids[]", JObj [("type", JStr "string"); ("name", JStr "own")]);
               ("name", JObj [("type", JStr "string")])])].

(** an upload: two plain fields, a file and a list of files *)
Definition uploadBody : JsVal :=
  JObj [("required", JBool true);
        ("content",
         JObj [("multipart/form-data",
                JObj [("schema",
                       JObj [("type", JStr "object");
                             ("required", JArr [JStr "name"]);
                             ("properties",
                              JObj [("name", JObj [("type", JStr "string")]);
                                    ("avatar", JObj [("type", JStr "string");
                                                     ("format", JStr "binary")]);
                                    ("photos",
                                     JObj [("type", JStr "array");
                                           ("items", JObj [("type", JStr "string");
                                                           ("format", JStr "binary")])]);
                                    ("age", JObj [("type", JStr "integer")])])])])])].


(** [api.path.includes('${')], as the filter of [getServiceTP] reads it *)
Definition holdsTemplateVariable (api : JsVal) : bool :=
  match hasTemplateVariable api with
  | Ok b => b
  | _ => false
  end.

(** a reference into another file *)
Definition externalReference : JsVal :=
  JObj [("$ref", JStr "common.yaml#/components/schemas/Pet")].

(** ** util.ts and index.ts *)

Section TagNames.
(** lodash: [upperFirst] *)
Variable upperFirst : string -> string.

(** [getTagName]: the middle of a dotted name of four or five parts *)
Definition getTagName (name : JsVal) : Res JsVal :=
  let* s := Js.asString name in
  let result := Str.split "." s in
  if Nat.eqb (length result) 4 then Ok (JStr (nth 2 result ""))
  else if Nat.eqb (length result) 5
  then Ok (JStr (nth 2 result "" +:+ upperFirst (nth 3 result "")))
  else Ok name.

End TagNames.

(** index.ts: [getImportStatement] *)
Definition getImportStatement (requestLibPath : JsVal) : Res JsVal :=
  if Js.truthy requestLibPath then
    let* s := Js.asString requestLibPath in
    if Str.startsWith "import" s then Ok requestLibPath
    else Ok (JStr ("import request from '" +:+ s +:+ "'"))
  else Ok (JStr ("import { request } from " +:+ Str.quoted "umi")).


(** a path that answers HEAD and OPTIONS only *)
Definition headOnlyDoc : JsVal :=
  docOfPaths [("/ping", JObj [("head", JObj [("operationId", JStr "ping")]);
                              ("options", JObj [("operationId", JStr "pingOptions")])])].

(** [getFinalFileName] *)
Definition getFinalFileName (s : string) : string :=
  Str.upperAfter Str.isDashUnderscoreSpace s.


(** ** util.ts: formatParamsForYFH

    The parameters are the properties of an object, taken in key order;
    [paramsObject] is built by assignment.  The one write into a parameter
    itself, the array suffix put on its type, is kept in the copy that
    goes into the result. *)

Section DottedParams.
Context `{Platform}.

(** the line feed and the six spaces the template literal of
    [combineParams] holds *)
Definition literalBreak : string := String "010" "      ".

(** [value.slice(1)] on a string or an array, as a template literal
    writes it *)
Definition sliceFromOne (value : JsVal) : Res string :=
  match value with
  | JStr s => Ok (Str.drop 1 s)
  | JArr l => Ok (Js.toStr (JArr (tl l)))
  | _ => Throw TypeError
  end.

(** whether [paramsObject] has the property itself *)
Definition hasOwn (key : string) (paramsObject : list (string * JsVal)) : bool :=
  match Js.assoc key paramsObject with
  | Some _ => true
  | None => false
  end.

(** [paramsObject[key] = value].  Under [__proto__] the assignment reaches
    the setter every object inherits: the value becomes the prototype of
    [paramsObject], which gains no property. *)
Definition writeParam (key : string) (value : JsVal) (paramsObject : list (string * JsVal))
  : Res (list (string * JsVal)) :=
  if String.eqb key "__proto__" && negb (hasOwn key paramsObject) then Unmodelled
  else Ok (Js.setField key value paramsObject).

(** [combineParams]: what it leaves in [paramsObject].  Under a key that
    [paramsObject] inherits, [paramsObject[key]] is a value of the host: it
    passes the test, and has no [type] to slice. *)
Definition combineParams (key child_key : string) (prop : JsVal)
    (paramsObject : list (string * JsVal)) (type : JsVal) : Res (list (string * JsVal)) :=
  let typeSuffix := if Js.isStr ".n.key.m" type then "[]" else "" in
  let keySuffix :=
    if Js.isStr ".n.key" type || Js.isStr ".n.key.m" type then "[]" else "" in
  let existing := Js.get key (JObj paramsObject) in
  let* propType := Js.getR "type" prop in
  if Js.inherited key && negb (hasOwn key paramsObject) then Throw TypeError
  else if Js.truthy existing then
    let* rest := sliceFromOne (Js.get "type" existing) in
    let child_type :=
      "{" +:+ child_key +:+ ":" +:+ Js.toStr propType +:+ typeSuffix +:+ ", " +:+ rest in
    Ok (Js.setField key
          (JObj (Js.setFields (Js.ownProps existing) [("type", JStr child_type)]))
          paramsObject)
  else
    Ok (Js.setField key
          (JObj (Js.setFields (Js.ownProps prop)
                   [("type", JStr ("{" +:+ child_key +:+ ":" +:+ Js.toStr propType
                                   +:+ literalBreak +:+ "}" +:+ keySuffix))]))
          paramsObject).

Definition isCounter (s : string) : bool := String.eqb s "n" || String.eqb s "m".

(** [nameList[i]] for an index that can be negative *)
Definition partAt (nameList : list string) (i : Z) : JsVal :=
  if (i <? 0)%Z then JUndef
  else match nth_error nameList (Z.to_nat i) with
       | Some s => JStr s
       | None => JUndef
       end.

Definition isCounterPart (v : JsVal) : bool := Js.isStr "n" v || Js.isStr "m" v.

(** the branches of the loop body: the key that is written, and
    [paramsObject] after the write *)
Definition placeParam (name : string) (prop : JsVal) (paramsObject : list (string * JsVal))
  : Res (string * list (string * JsVal)) :=
  let nameList := Str.split "." name in
  let nameListLength := length nameList in
  if Nat.eqb nameListLength 1 then
    let* paramsObject := writeParam name (JObj (Js.ownProps prop)) paramsObject in
    Ok (name, paramsObject)
  else if Nat.eqb nameListLength 2 && negb (isCounter (nth 1 nameList "")) then
    let childKey := hd "" nameList in
    let key_child_key := camelCase (JStr (nth 1 nameList "")) in
    let* paramsObject := combineParams childKey key_child_key prop paramsObject JUndef in
    Ok (name, paramsObject)
  else if isCounterPart (partAt nameList (Z.of_nat nameListLength - 2)) then
    let child_key := camelCase (JStr (Str.last nameList)) in
    let key := Str.join "." (removelast (removelast nameList)) in
    let* paramsObject := combineParams key child_key prop paramsObject (JStr ".n.key") in
    Ok (key, paramsObject)
  else
    let child_key := camelCase (JStr (Str.last nameList)) in
    let nameList := removelast nameList in
    let key := Str.join "." nameList in
    if isCounter child_key then
      if isCounterPart (partAt nameList (Z.of_nat (length nameList) - 2)) then
        let child_child_key := camelCase (JStr (Str.last nameList)) in
        let key := Str.join "." (removelast (removelast nameList)) in
        let* paramsObject :=
          combineParams key child_child_key prop paramsObject (JStr ".n.key.m") in
        Ok (key, paramsObject)
      else
        match prop with
        | JObj fields =>
            let type := JStr (Js.toStr (Js.get "type" prop) +:+ "[]") in
            let* paramsObject :=
              writeParam key (JObj (Js.setField "type" type fields)) paramsObject in
            Ok (key, paramsObject)
        | JArr _ => Unmodelled
        | _ => Throw TypeError
        end
    else
      let* paramsObject := combineParams key child_key prop paramsObject JUndef in
      Ok (key, paramsObject).

(** [paramsObject[key].name = camelCase(key)]; under a key that
    [paramsObject] inherits, the name is set on a value of the host *)
Definition nameParam (key : string) (paramsObject : list (string * JsVal))
  : Res (list (string * JsVal)) :=
  if Js.inherited key && negb (hasOwn key paramsObject) then Unmodelled else
  match Js.get key (JObj paramsObject) with
  | JObj fields =>
      Ok (Js.setField key (JObj (Js.setField "name" (JStr (camelCase (JStr key))) fields))
            paramsObject)
  | JArr _ => Unmodelled
  | _ => Throw TypeError
  end.

Definition formatParam (params : JsVal) (paramsObject : list (string * JsVal))
    (name : string) : Res (list (string * JsVal)) :=
  let* (key, paramsObject) := placeParam name (Js.get name params) paramsObject in
  nameParam key paramsObject.

(** [formatParamsForYFH(params)]; the fuel bounds the passes over the
    names *)
Fixpoint formatParamsForYFH (fuel : nat) (params : JsVal) : Res JsVal :=
  match fuel with
  | 0 => OutOfFuel
  | S fuel' =>
      let* names := Js.keys params in
      let* paramsObject := foldR (formatParam params) names [] in
      if existsb (Str.includes ".") (map fst paramsObject)
      then formatParamsForYFH fuel' (JObj paramsObject)
      else Ok (JObj paramsObject)
  end.

End DottedParams.

(** the entry [formatParamsForYFH] writes for a parameter with a plain
    name: a copy of the parameter, named by the folded key *)
Definition namedCopy `{Platform} (entry : string * JsVal) : string * JsVal :=
  (fst entry,
   JObj (Js.setField "name" (JStr (camelCase (JStr (fst entry))))
           (Js.ownProps (snd entry)))).


(** * Properties *)

(** ** Helper facts *)

Lemma bind_Ok_inv {A B} (m : Res A) (k : A -> Res B) (b : B) :
  bind m k = Ok b -> exists a, m = Ok a /\ k a = Ok b.
Proof. destruct m; simpl; intros E; try discriminate. eauto. Qed.

Lemma mapR_Ok_Forall2 {A B} (f : A -> Res B) (l : list A) (r : list B) :
  mapR f l = Ok r <-> Forall2 (fun x y => f x = Ok y) l r.
Proof.
  revert r. induction l as [|x l IH]; intros r; simpl.
  - split.
    + intros [= <-]. constructor.
    + intros E. inversion E. reflexivity.
  - split.
    + intros E. apply bind_Ok_inv in E as (y & Hy & E).
      apply bind_Ok_inv in E as (ys & Hys & [= <-]).
      constructor; [exact Hy | now apply IH].
    + intros E. inversion E as [|? y ? ys Hy Hys]; subst.
      rewrite Hy. simpl. apply IH in Hys. rewrite Hys. reflexivity.
Qed.

(** ** C1: resolving the tags of an operation *)

Section TagResolution.
Context `{Platform}.

(** The path segment is never used: the list holding the operation id is
    an array, hence truthy, whatever the id is. *)
Lemma defaultGetFileTag_cases (operationObject : JsVal) (apiPath apiMethod : string) :
  defaultGetFileTag operationObject apiPath apiMethod =
  if Js.truthy (Js.get "x-swagger-router-controller" operationObject)
  then JArr [Js.get "x-swagger-router-controller" operationObject]
  else if Js.truthy (Js.get "tags" operationObject)
  then Js.get "tags" operationObject
  else JArr [Js.get "operationId" operationObject].
Proof.
  unfold defaultGetFileTag, Js.or.
  destruct (Js.truthy (Js.get "x-swagger-router-controller" operationObject)); [reflexivity|].
  destruct (Js.truthy (Js.get "tags" operationObject)); reflexivity.
Qed.

End TagResolution.

(** C1.  An operation with no router field, no tags and no operation id at
    the path /pets/list: the claim resolves the tag "list", the second
    segment of the path.  The default resolver returns the one-element list
    holding [undefined] instead; for every operation and path its result is
    the router field, the declared tags or the list holding the operation
    id, never the path segment.  The grouping pass files the operation under
    the name that [undefined] resolves to, the empty tag: it is neither
    grouped under "list" nor omitted. *)
Theorem C1_untagged_operation_grouped_under_empty_tag :
  defaultGetFileTag (JObj [("summary", JStr "all pets")]) "/pets/list" "get"
    = JArr [JUndef]
  /\ (forall operationObject apiPath apiMethod,
        defaultGetFileTag operationObject apiPath apiMethod =
        if Js.truthy (Js.get "x-swagger-router-controller" operationObject)
        then JArr [Js.get "x-swagger-router-controller" operationObject]
        else if Js.truthy (Js.get "tags" operationObject)
        then Js.get "tags" operationObject
        else JArr [Js.get "operationId" operationObject])
  /\ groupOperations sampleConfig untaggedDoc
     = Ok [("", [JObj [("path", JStr "/pets/list"); ("method", JStr "get");
                       ("summary", JStr "all pets")]])].
Proof.
  split; [reflexivity|]. split; [|reflexivity].
  intros operationObject apiPath apiMethod.
  apply defaultGetFileTag_cases.
Qed.

(** ** C7: the type expression of an array *)

Section ArrayTypes.
Context `{Platform}.

Lemma defaultGetType_namespace (fuel : nat) (schemaObject namespace : JsVal) :
  defaultGetType fuel schemaObject namespace
  = defaultGetType fuel schemaObject (normalNamespace namespace).
Proof. destruct fuel; [reflexivity|]. destruct namespace; reflexivity. Qed.

(** an object with [type: 'array'], no reference, no numeric format and no
    enumeration is handled by the array branch *)
Lemma defaultGetType_array (fuel : nat) (fields : list (string * JsVal)) (namespace : JsVal) :
  Js.truthy (Js.get "$ref" (JObj fields)) = false ->
  Js.get "type" (JObj fields) = JStr "array" ->
  Js.oneOf numberEnum (Js.get "format" (JObj fields)) = false ->
  Js.truthy (Js.get "enum" (JObj fields)) = false ->
  defaultGetType (S fuel) (JObj fields) namespace
  = arrayType (defaultGetType fuel) (JObj fields) (normalNamespace namespace).
Proof.
  intros Href Htype Hformat Henum.
  cbn [defaultGetType]. cbn [Js.typeofObject negb].
  rewrite Href, Htype, Hformat, Henum. reflexivity.
Qed.

(** C7, as amended.  For an array schema (an object with [type: 'array'],
    no reference, numeric format or enumeration) whose items is a single
    schema with type expression [t], the expression is [t] followed by the
    array suffix, and [t] is put in parentheses exactly when it contains
    the or-join [" | "] anywhere, at the top level or nested. *)
Theorem C7_array_parenthesised_iff_or_join_occurs
    (fuel : nat) (fields : list (string * JsVal)) (namespace items : JsVal) (t : string) :
  Js.truthy (Js.get "$ref" (JObj fields)) = false ->
  Js.get "type" (JObj fields) = JStr "array" ->
  Js.oneOf numberEnum (Js.get "format" (JObj fields)) = false ->
  Js.truthy (Js.get "enum" (JObj fields)) = false ->
  items = (if Js.truthy (Js.get "schema" (JObj fields))
           then Js.get "items" (Js.get "schema" (JObj fields))
           else Js.get "items" (JObj fields)) ->
  Js.isArray items = false ->
  defaultGetType fuel items namespace = Ok (JStr t) ->
  defaultGetType (S fuel) (JObj fields) namespace
  = Ok (JStr (if Str.includes " | " t then "(" +:+ t +:+ ")[]" else t +:+ "[]")).
Proof.
  intros Href Htype Hformat Henum Hitems Hsingle Ht.
  rewrite defaultGetType_array by assumption.
  unfold arrayType. rewrite <- Hitems.
  rewrite <- defaultGetType_namespace, Ht.
  destruct items; try discriminate Hsingle; reflexivity.
Qed.

End ArrayTypes.

(** C7, witness: an array of [A | B] is [(A | B)[]]. *)
Lemma C7_array_parenthesised_witness :
  defaultGetType 3 unionItemsSchema (JStr "") = Ok (JStr "(A | B)[]").
Proof.
  apply (C7_array_parenthesised_iff_or_join_occurs 2
           [("type", JStr "array");
            ("items", JObj [("oneOf", JArr [JObj [("$ref", JStr "#/components/schemas/A")];
                                            JObj [("$ref", JStr "#/components/schemas/B")]])])]
           (JStr "")
           (JObj [("oneOf", JArr [JObj [("$ref", JStr "#/components/schemas/A")];
                                  JObj [("$ref", JStr "#/components/schemas/B")]])])
           "A | B"); reflexivity.
Defined.

(** C7, counterexample to the claim as stated.  The item schema is an
    object; its expression is a structural type whose only or-join sits
    inside the braces, so it does not denote a union, yet the array
    expression puts it in parentheses. *)
Lemma C7_nested_or_join_is_parenthesised :
  defaultGetType 4 unionPropertySchema (JStr "")
    = Ok (JStr "{ 'a'?: string | number; }")
  /\ spec_denotesUnion "{ 'a'?: string | number; }" = false
  /\ defaultGetType 5 objectItemsSchema (JStr "")
     = Ok (JStr "({ 'a'?: string | number; })[]")
  /\ defaultGetType 5 objectItemsSchema (JStr "")
     <> Ok (JStr "{ 'a'?: string | number; }[]").
Proof.
  repeat split; try reflexivity. vm_compute. discriminate.
Qed.

(** ** C6: required and optional properties of an inline object type *)

Lemma sameValueZero_JStr (key : string) (x : JsVal) :
  Js.sameValueZero (JStr key) x = true <-> x = JStr key.
Proof.
  destruct x; simpl; try (split; [discriminate | intros [=]]).
  rewrite String.eqb_eq. split; [intros ->; reflexivity | intros [= ->]; reflexivity].
Qed.

Lemma includes_JStr_In (key : string) (l : list JsVal) :
  Js.includes (JStr key) l = true <-> In (JStr key) l.
Proof.
  unfold Js.includes. rewrite existsb_exists. split.
  - intros (x & Hin & Hx). apply sameValueZero_JStr in Hx. now subst.
  - intros Hin. exists (JStr key). split; [exact Hin | now apply sameValueZero_JStr].
Qed.

(** the three tests of the program, in a row, compute the disjunction *)
Lemma propertyRequired_spec (schemaObject : JsVal) (key : string) :
  objectOrFalsy (Js.get key (Js.get "properties" schemaObject)) = true ->
  exists required,
    propertyRequired schemaObject key = Ok required
    /\ (required = true <-> spec_requiredBySignal schemaObject key).
Proof.
  intros Hnode.
  unfold propertyRequired, spec_requiredBySignal, spec_schemaRequiredIsTrue,
    spec_keyInRequiredArray, spec_propertyFlagged.
  set (r := Js.get "required" schemaObject).
  set (node := Js.get key (Js.get "properties" schemaObject)) in *.
  assert (Hflag : exists declared,
             Js.hasProp "required" (Js.or node (JObj [])) = Ok declared
             /\ declared && Js.truthy (Js.get "required" (Js.or node (JObj [])))
                = Js.truthy (Js.get "required" node)).
  { destruct node as [| |b|n| |s|l|l]; simpl in Hnode; unfold Js.or;
      try (exists false; split; reflexivity).
    - destruct b; [discriminate|]. exists false. split; reflexivity.
    - rewrite negb_involutive in Hnode. simpl. rewrite Hnode. simpl.
      exists false. split; reflexivity.
    - rewrite negb_involutive in Hnode. simpl. rewrite Hnode. simpl.
      apply String.eqb_eq in Hnode. subst s. exists false. split; reflexivity.
    - simpl. destruct (Js.assoc "required" l) as [v|].
      + exists true. split; reflexivity.
      + exists false. split; reflexivity. }
  destruct Hflag as (declared & Hdecl & Hflag).
  rewrite Hdecl. simpl. rewrite Hflag.
  destruct (Js.truthy (Js.get "required" node)) eqn:Hnode3.
  { exists true. split; [reflexivity|]. split; [intros _|reflexivity].
    right. right. reflexivity. }
  destruct r as [| |b|n| |s|l|l] eqn:Hr; simpl;
    try (exists false; split; [reflexivity|];
         split; [discriminate|];
         intros [E|[(l' & E & _)|E]]; discriminate).
  - destruct b.
    + exists true. split; [reflexivity|]. split; [intros _; now left | reflexivity].
    + exists false. split; [reflexivity|]. split; [discriminate|].
      intros [E|[(l' & E & _)|E]]; discriminate.
  - destruct (Js.includes (JStr key) l) eqn:Hin.
    + exists true. split; [reflexivity|]. split; [intros _|reflexivity].
      right. left. exists l. split; [reflexivity|]. now apply includes_JStr_In.
    + exists false. split; [reflexivity|]. split; [discriminate|].
      intros [E|[(l' & [= <-] & Hl)|E]]; try discriminate.
      apply includes_JStr_In in Hl. congruence.
Qed.

Lemma mapR_Ok_map {A B} (f : A -> Res B) (g : A -> B) (l : list A) :
  (forall x, In x l -> f x = Ok (g x)) -> mapR f l = Ok (map g l).
Proof.
  induction l as [|x l IH]; intros Hf; simpl; [reflexivity|].
  rewrite Hf by (left; reflexivity). simpl.
  rewrite IH by (intros y Hy; apply Hf; right; exact Hy). reflexivity.
Qed.

Section ObjectTypes.
Context `{Platform}.

(** an object typed [object], or untyped, with no reference, numeric
    format, enumeration or composition, is handled by the object branch *)
Lemma defaultGetType_object (fuel : nat) (fields : list (string * JsVal)) (namespace : JsVal) :
  Js.truthy (Js.get "$ref" (JObj fields)) = false ->
  Js.get "type" (JObj fields) = JStr "object" \/ Js.get "type" (JObj fields) = JUndef ->
  Js.oneOf numberEnum (Js.get "format" (JObj fields)) = false ->
  Js.truthy (Js.get "enum" (JObj fields)) = false ->
  composed (JObj fields) "oneOf" = false ->
  composed (JObj fields) "anyOf" = false ->
  composed (JObj fields) "allOf" = false ->
  Js.truthy (Js.get "properties" (JObj fields)) = true ->
  defaultGetType (S fuel) (JObj fields) namespace
  = objectType (defaultGetType fuel) (JObj fields) (normalNamespace namespace).
Proof.
  intros Href Htype Hformat Henum HoneOf HanyOf HallOf Hprops.
  cbn [defaultGetType]. cbn [Js.typeofObject negb].
  rewrite Href, Hformat, Henum, HoneOf, HanyOf, HallOf, Hprops.
  destruct Htype as [-> | ->]; reflexivity.
Qed.

(** C6.  For an object schema with properties (an object typed [object] or
    untyped, with no reference, numeric format, enumeration or
    composition), whose property nodes are objects with type expressions
    [t key]: the inline type lists every property, in key order, as
    ['key'], a marker, and the type; the marker is empty (required) exactly
    when the schema's [required] is [true], or is an array holding the key,
    or the property node has a truthy [required]; it is the question mark
    (optional) exactly when none of the three holds. *)
Theorem C6_property_required_iff_any_signal
    (fuel : nat) (fields : list (string * JsVal)) (namespace : JsVal)
    (ks : list string) (t : string -> JsVal) :
  Js.truthy (Js.get "$ref" (JObj fields)) = false ->
  Js.get "type" (JObj fields) = JStr "object" \/ Js.get "type" (JObj fields) = JUndef ->
  Js.oneOf numberEnum (Js.get "format" (JObj fields)) = false ->
  Js.truthy (Js.get "enum" (JObj fields)) = false ->
  composed (JObj fields) "oneOf" = false ->
  composed (JObj fields) "anyOf" = false ->
  composed (JObj fields) "allOf" = false ->
  Js.keys (Js.get "properties" (JObj fields)) = Ok ks ->
  ks <> [] ->
  (forall key, In key ks ->
     objectOrFalsy (Js.get key (Js.get "properties" (JObj fields))) = true
     /\ defaultGetType fuel (Js.get key (Js.get "properties" (JObj fields))) namespace
        = Ok (t key)) ->
  exists marker : string -> string,
    defaultGetType (S fuel) (JObj fields) namespace
    = Ok (JStr ("{ " +:+
                String.concat ""
                  (map (fun key => renderedProperty key (marker key) (Js.toStr (t key))) ks)
                +:+ "}"))
    /\ forall key, In key ks ->
         (marker key = "" <-> spec_requiredBySignal (JObj fields) key)
         /\ (marker key = "?" <-> ~ spec_requiredBySignal (JObj fields) key).
Proof.
  intros Href Htype Hformat Henum HoneOf HanyOf HallOf Hkeys Hne Hnodes.
  set (schemaObject := JObj fields) in *.
  assert (Hprops : Js.truthy (Js.get "properties" schemaObject) = true).
  { destruct (Js.get "properties" schemaObject) as [| |b|n| |s|l|l];
      simpl in Hkeys; try discriminate; try reflexivity;
      injection Hkeys as <-; try (exfalso; apply Hne; reflexivity).
    destruct s; [exfalso; apply Hne; reflexivity | reflexivity]. }
  exists (fun key =>
            match propertyRequired schemaObject key with
            | Ok true => ""
            | _ => "?"
            end).
  split.
  - unfold schemaObject at 1. rewrite defaultGetType_object by assumption.
    fold schemaObject. unfold objectType, Js.or. rewrite Hprops, Hkeys. simpl.
    destruct ks as [|k ks']; [exfalso; apply Hne; reflexivity|].
    erewrite mapR_Ok_map; [reflexivity|].
    intros key Hin. destruct (Hnodes key Hin) as (Hnode & Ht).
    destruct (propertyRequired_spec schemaObject key Hnode) as (required & Hreq & _).
    unfold propertyEntry. rewrite Hreq. cbn [bind].
    rewrite <- defaultGetType_namespace, Ht. cbn [bind].
    destruct required; reflexivity.
  - intros key Hin. destruct (Hnodes key Hin) as (Hnode & _).
    destruct (propertyRequired_spec schemaObject key Hnode) as (required & Hreq & Hiff).
    rewrite Hreq. destruct required.
    + split; split; try discriminate; try reflexivity.
      * intros _. now apply Hiff.
      * intros Hno. exfalso. apply Hno. now apply Hiff.
    + split; split; try discriminate; try reflexivity.
      * intros Hyes. apply Hiff in Hyes. discriminate.
      * intros _ Hyes. apply Hiff in Hyes. discriminate.
Qed.

End ObjectTypes.

(** C6, witness: [id] carries no signal and is optional, [name] is in the
    schema's required array, [tag] is flagged on its own node. *)
Lemma C6_property_required_witness :
  exists marker : string -> string,
    defaultGetType 3 signalsSchema (JStr "")
    = Ok (JStr ("{ " +:+
                String.concat ""
                  (map (fun key =>
                          renderedProperty key (marker key)
                            (Js.toStr (if String.eqb key "id" then JStr "number"
                                       else JStr "string")))
                       ["id"; "name"; "tag"])
                +:+ "}"))
    /\ forall key, In key ["id"; "name"; "tag"] ->
         (marker key = "" <-> spec_requiredBySignal signalsSchema key)
         /\ (marker key = "?" <-> ~ spec_requiredBySignal signalsSchema key).
Proof.
  apply (C6_property_required_iff_any_signal 2
           [("type", JStr "object");
            ("properties",
             JObj [("id", JObj [("type", JStr "number")]);
                   ("name", JObj [("type", JStr "string")]);
                   ("tag", JObj [("type", JStr "string"); ("required", JBool true)])]);
            ("required", JArr [JStr "name"])]
           (JStr "") ["id"; "name"; "tag"]
           (fun key => if String.eqb key "id" then JStr "number" else JStr "string"));
    try reflexivity.
  - left. reflexivity.
  - discriminate.
  - intros key [<- | [<- | [<- | []]]]; split; reflexivity.
Defined.

(** the schema above renders [id] optional and the other two required *)
Example C6_signals_rendering :
  defaultGetType 3 signalsSchema (JStr "")
  = Ok (JStr "{ 'id'?: number; 'name': string; 'tag': string; }").
Proof. reflexivity. Qed.

(** ** C4: the property groups of an allOf schema *)

Section AllOf.
Context `{Platform}.
Variable config : GenerateServiceProps.

Lemma allOfMember_group (fuel : nat) (item group : JsVal) :
  allOfMember config fuel item = Ok group -> memberGroup config fuel item group.
Proof.
  unfold allOfMember, memberGroup. intros E.
  apply bind_Ok_inv in E as (ref & Href & E).
  assert (Hget : Js.get "$ref" item = ref).
  { destruct item; simpl in Href; try discriminate; now injection Href. }
  rewrite Hget. destruct (Js.truthy ref).
  - apply bind_Ok_inv in E as (t & Ht & E).
    apply bind_Ok_inv in E as (name & Hname & [= <-]).
    destruct t; simpl in Hname; try discriminate. injection Hname as ->.
    exists name. split; [exact Ht | reflexivity].
  - apply bind_Ok_inv in E as (props & Hprops & [= <-]).
    exists props. split; [exact Hprops | reflexivity].
Qed.

(** C4.  A schema whose [allOf] is a non-empty list resolves, when it
    resolves, to one property group per member, in order, and, when the
    node declares properties of its own, one more group for them, last.  A
    referenced member's group has one entry: the member's own fields with
    the referenced type name as [type]; another member's group is its
    property list.  The groups stay separate.  The resolution succeeds as
    soon as every member's group and the node's own property list do, and
    [resolveObject] takes this route for a node with no reference and no
    enumeration. *)
Theorem C4_one_group_per_allOf_member
    (fuel : nat) (schemaObject : JsVal) (members : list JsVal) :
  Js.get "allOf" schemaObject = JArr members ->
  members <> [] ->
  (forall r, resolveAllOfObject config fuel schemaObject = Ok r ->
     exists groups,
       Js.get "props" r = JArr groups
       /\ length groups
          = length members
            + (if Js.truthy (Js.get "properties" schemaObject) then 1 else 0)
       /\ (forall i item, members !! i = Some item ->
             exists group, groups !! i = Some group /\ memberGroup config fuel item group)
       /\ (Js.truthy (Js.get "properties" schemaObject) = true ->
             exists extProps,
               getProps config fuel schemaObject = Ok extProps
               /\ groups !! length members = Some (JArr extProps)))
  /\ ((forall item, In item members -> exists group, allOfMember config fuel item = Ok group) ->
      (Js.truthy (Js.get "properties" schemaObject) = true ->
         exists extProps, getProps config fuel schemaObject = Ok extProps) ->
      exists r, resolveAllOfObject config fuel schemaObject = Ok r)
  /\ (forall openAPIData,
        Js.truthy (Js.get "$ref" schemaObject) = false ->
        Js.truthy (Js.get "enum" schemaObject) = false ->
        resolveObject config openAPIData fuel schemaObject
        = resolveAllOfObject config fuel schemaObject).
Proof.
  intros Hall Hne. split; [|split].
  - intros r E. unfold resolveAllOfObject in E. rewrite Hall in E.
    unfold Js.or in E. simpl in E.
    apply bind_Ok_inv in E as (groups & Hgroups & E).
    apply mapR_Ok_Forall2 in Hgroups.
    assert (Hmem : forall i item, members !! i = Some item ->
              exists group, groups !! i = Some group /\ memberGroup config fuel item group).
    { intros i item Hi.
      destruct (Forall2_lookup_l _ _ _ _ _ Hgroups Hi) as (group & Hg & Hok).
      exists group. split; [exact Hg | now apply allOfMember_group]. }
    pose proof (Forall2_length _ _ _ Hgroups) as Hlen.
    destruct (Js.truthy (Js.get "properties" schemaObject)).
    + apply bind_Ok_inv in E as (extProps & Hext & [= <-]).
      exists (groups ++ [JArr extProps]). simpl. split; [reflexivity|].
      split; [rewrite length_app; simpl; lia|]. split.
      * intros i item Hi. destruct (Hmem i item Hi) as (group & Hg & Hgroup).
        exists group. split; [|exact Hgroup].
        rewrite lookup_app_l; [exact Hg | now apply lookup_lt_Some in Hg].
      * intros _. exists extProps. split; [exact Hext|].
        rewrite Hlen. now rewrite list_lookup_middle.
    + injection E as <-. exists groups. simpl. split; [reflexivity|].
      split; [lia|]. split; [exact Hmem | discriminate].
  - intros Hmembers Hown. unfold resolveAllOfObject. rewrite Hall.
    unfold Js.or. simpl.
    assert (Hgroups : exists groups, mapR (allOfMember config fuel) members = Ok groups).
    { clear Hall Hne. induction members as [|item rest IH].
      - exists []. reflexivity.
      - destruct (Hmembers item (or_introl eq_refl)) as (group & Hgroup).
        destruct IH as (groups & Hgroups).
        { intros x Hx. apply Hmembers. now right. }
        exists (group :: groups). simpl. rewrite Hgroup. simpl.
        rewrite Hgroups. reflexivity. }
    destruct Hgroups as (groups & ->). simpl.
    destruct (Js.truthy (Js.get "properties" schemaObject)).
    + destruct (Hown eq_refl) as (extProps & ->). simpl. eauto.
    + eauto.
  - intros openAPIData Href Henum. unfold resolveObject.
    assert (Hsame : match schemaObject with
                    | JUndef | JNull => JObj []
                    | _ => schemaObject
                    end = schemaObject).
    { destruct schemaObject; try reflexivity; simpl in Hall; discriminate. }
    rewrite Hsame, Href, Henum, Hall.
    destruct members as [|item rest]; [exfalso; now apply Hne|]. reflexivity.
Qed.

End AllOf.

(** C4, witness: the spec's example resolves to exactly three groups,
    the referenced name [A], then [x], then [y]. *)
Lemma C4_three_groups_witness :
  (forall r, resolveAllOfObject sampleConfig 3 allOfExample = Ok r ->
     exists groups,
       Js.get "props" r = JArr groups
       /\ length groups = 2 + 1
       /\ (forall i item,
             [JObj [("$ref", JStr "#/A")];
              JObj [("properties", JObj [("x", JObj [("type", JStr "string")])])]] !! i
             = Some item ->
             exists group, groups !! i = Some group
                           /\ memberGroup sampleConfig 3 item group)
       /\ (true = true ->
             exists extProps,
               getProps sampleConfig 3 allOfExample = Ok extProps
               /\ groups !! 2 = Some (JArr extProps)))
  /\ resolveAllOfObject sampleConfig 3 allOfExample
     = Ok (JObj [("props",
                  JArr [JArr [JObj [("$ref", JStr "#/A"); ("type", JStr "A")]];
                        JArr [JObj [("type", JStr "string"); ("name", JStr "x");
                                    ("desc", JStr ""); ("required", JBool false)]];
                        JArr [JObj [("type", JStr "number"); ("name", JStr "y");
                                    ("desc", JStr ""); ("required", JBool false)]]])]).
Proof.
  split; [|reflexivity].
  refine (proj1 (C4_one_group_per_allOf_member sampleConfig 3 allOfExample
                   [JObj [("$ref", JStr "#/A")];
                    JObj [("properties", JObj [("x", JObj [("type", JStr "string")])])]]
                   _ _)).
  - reflexivity.
  - discriminate.
Defined.

(** ** C3: resolving an internal reference *)

Lemma resolveRefObject_unfold (openAPIData : JsVal) (fuel : nat) (refObject : JsVal) :
  resolveRefObject openAPIData fuel refObject =
  if negb (Js.truthy refObject) || negb (Js.truthy (Js.get "$ref" refObject))
  then Ok refObject
  else
    let* ref := Js.asString (Js.get "$ref" refObject) in
    let refPaths := Str.split "/" ref in
    if String.eqb (hd "" refPaths) "#" then
      let* obj := walkRef openAPIData (tl refPaths) in
      if negb (Js.truthy obj)
      then Throw (DataError ("[GenSDK] Data Error! Notfoud: " +:+ ref))
      else
        match fuel with
        | 0 => OutOfFuel
        | S fuel' =>
            let* resolved := resolveRefObject openAPIData fuel' obj in
            let* type :=
              if Js.truthy (Js.get "$ref" obj)
              then let* again := resolveRefObject openAPIData fuel' obj in
                   Ok (Js.get "type" again)
              else Ok obj in
            Ok (JObj (Js.setFields (Js.ownProps resolved) [("type", type)]))
        end
    else Ok refObject.
Proof. destruct fuel; reflexivity. Qed.

(** a value that is not a reference resolves to itself, whatever the fuel *)
Lemma resolveRefObject_not_a_reference (openAPIData : JsVal) (fuel : nat) (v : JsVal) :
  Js.truthy (Js.get "$ref" v) = false -> resolveRefObject openAPIData fuel v = Ok v.
Proof.
  intros Href. rewrite resolveRefObject_unfold, Href.
  now rewrite orb_true_r.
Qed.

(** C3, as amended.  For a node whose [$ref] is an internal fragment
    reference: when the walk through the document meets [undefined] or
    [null] before the last segment, or ends on a falsy value, resolution
    raises; when it ends on a truthy node that is not itself a reference,
    resolution returns, without raising, a copy of that node's own fields
    in which [type] holds the node itself; when it ends on a node that is
    itself a reference, the result is built in the same way from the
    resolution of that node, and raises when that resolution does. *)
Theorem C3_internal_reference_resolution
    (openAPIData refObject : JsVal) (ref : string) (segments : list string) (fuel : nat) :
  Js.get "$ref" refObject = JStr ref ->
  Str.split "/" ref = "#" :: segments ->
  (forall e, walkRef openAPIData segments = Throw e ->
             resolveRefObject openAPIData fuel refObject = Throw e)
  /\ (forall obj, walkRef openAPIData segments = Ok obj ->
        Js.truthy obj = false ->
        resolveRefObject openAPIData fuel refObject
        = Throw (DataError ("[GenSDK] Data Error! Notfoud: " +:+ ref)))
  /\ (forall obj, walkRef openAPIData segments = Ok obj ->
        Js.truthy obj = true ->
        Js.truthy (Js.get "$ref" obj) = false ->
        resolveRefObject openAPIData (S fuel) refObject
        = Ok (JObj (Js.setFields (Js.ownProps obj) [("type", obj)])))
  /\ (forall obj, walkRef openAPIData segments = Ok obj ->
        Js.truthy obj = true ->
        Js.truthy (Js.get "$ref" obj) = true ->
        resolveRefObject openAPIData (S fuel) refObject
        = let* resolved := resolveRefObject openAPIData fuel obj in
          Ok (JObj (Js.setFields (Js.ownProps resolved)
                      [("type", Js.get "type" resolved)]))).
Proof.
  intros Href Hsplit.
  assert (Hobj : Js.truthy refObject = true).
  { destruct refObject as [| |b|n| |s|l|l]; try reflexivity;
      vm_compute in Href; discriminate. }
  assert (Href' : Js.truthy (JStr ref) = true).
  { simpl. destruct ref; [vm_compute in Hsplit; discriminate | reflexivity]. }
  assert (Hstart : forall fuel',
            resolveRefObject openAPIData fuel' refObject =
            let* obj := walkRef openAPIData segments in
            if negb (Js.truthy obj)
            then Throw (DataError ("[GenSDK] Data Error! Notfoud: " +:+ ref))
            else
              match fuel' with
              | 0 => OutOfFuel
              | S fuel'' =>
                  let* resolved := resolveRefObject openAPIData fuel'' obj in
                  let* type :=
                    if Js.truthy (Js.get "$ref" obj)
                    then let* again := resolveRefObject openAPIData fuel'' obj in
                         Ok (Js.get "type" again)
                    else Ok obj in
                  Ok (JObj (Js.setFields (Js.ownProps resolved) [("type", type)]))
              end).
  { intros fuel'. rewrite resolveRefObject_unfold, Href, Hobj, Href'.
    cbn [negb orb Js.asString bind]. rewrite Hsplit. reflexivity. }
  repeat split.
  - intros e Hwalk. rewrite Hstart, Hwalk. reflexivity.
  - intros obj Hwalk Hfalsy. rewrite Hstart, Hwalk. cbn [bind]. now rewrite Hfalsy.
  - intros obj Hwalk Htruthy Hplain. rewrite Hstart, Hwalk. cbn [bind].
    rewrite Htruthy, Hplain. cbn [negb].
    rewrite resolveRefObject_not_a_reference by exact Hplain. reflexivity.
  - intros obj Hwalk Htruthy Hchained. rewrite Hstart, Hwalk. cbn [bind].
    rewrite Htruthy, Hchained. cbn [negb].
    destruct (resolveRefObject openAPIData fuel obj); reflexivity.
Qed.

(** C3, witness: the reference to schema A returns the fields of A with
    [type] replaced by A itself. *)
Lemma C3_internal_reference_witness :
  resolveRefObject refsDoc 1 (JObj [("$ref", JStr "#/components/schemas/A")])
  = Ok (JObj [("type", schemaA);
              ("properties", JObj [("id", JObj [("type", JStr "number")])])]).
Proof.
  refine (proj1 (proj2 (proj2
            (C3_internal_reference_resolution refsDoc
               (JObj [("$ref", JStr "#/components/schemas/A")])
               "#/components/schemas/A" ["components"; "schemas"; "A"] 0 _ _)))
            schemaA _ _ _); reflexivity.
Defined.

(** C3, counterexample to the claim as stated.  Every segment of the
    reference to A resolves, and the result is not the node A: its [type]
    is the whole node.  Every segment of the reference to B resolves too,
    and resolution raises, because B refers on to a schema that is
    missing. *)
Lemma C3_resolved_reference_is_not_the_node :
  walkRef refsDoc ["components"; "schemas"; "A"] = Ok schemaA
  /\ resolveRefObject refsDoc 5 (JObj [("$ref", JStr "#/components/schemas/A")])
     <> Ok schemaA
  /\ walkRef refsDoc ["components"; "schemas"; "B"] = Ok schemaB
  /\ Js.truthy schemaB = true
  /\ resolveRefObject refsDoc 5 (JObj [("$ref", JStr "#/components/schemas/B")])
     = Throw (DataError "[GenSDK] Data Error! Notfoud: #/components/schemas/Missing").
Proof.
  repeat split; try reflexivity. vm_compute. discriminate.
Qed.

(** ** C5: the collision suffix of function names *)

Lemma assoc_setField (k k' : string) (v : JsVal) (l : list (string * JsVal)) :
  Js.assoc k (Js.setField k' v l) = if String.eqb k k' then Some v else Js.assoc k l.
Proof.
  induction l as [|[k0 v0] l IH]; simpl.
  - destruct (String.eqb k k'); reflexivity.
  - destruct (String.eqb k' k0) eqn:E0; simpl.
    + apply String.eqb_eq in E0. subst k0.
      destruct (String.eqb k k'); reflexivity.
    + destruct (String.eqb k k0) eqn:E1.
      * apply String.eqb_eq in E1. subst k0.
        rewrite String.eqb_sym in E0. now rewrite E0.
      * exact IH.
Qed.

Lemma get_setField (k k' : string) (v : JsVal) (l : list (string * JsVal)) :
  Js.get k (JObj (Js.setField k' v l))
  = if String.eqb k k' then v else Js.get k (JObj l).
Proof.
  simpl. rewrite assoc_setField. destruct (String.eqb k k'); reflexivity.
Qed.

Lemma spec_occurrences_app (earlier : list JsVal) (name : JsVal) (key : string) :
  spec_occurrences (earlier ++ [name]) key
  = spec_occurrences earlier key
    + (if Js.truthy name && String.eqb (Js.toStr name) key then 1 else 0).
Proof.
  unfold spec_occurrences. rewrite List.filter_app, length_app. simpl.
  destruct (Js.truthy name && String.eqb (Js.toStr name) key); reflexivity.
Qed.

Lemma dedupFunctionName_spec (earlier : list JsVal) (rd rd' : gmap string nat)
    (name functionName : JsVal) :
  countsOf earlier rd ->
  dedupFunctionName rd name = Ok (functionName, rd') ->
  functionName = spec_dedupedName earlier name
  /\ countsOf (earlier ++ [name]) rd'.
Proof.
  intros Hrd. unfold dedupFunctionName, spec_dedupedName.
  destruct (Js.truthy name) eqn:Htruthy.
  - pose proof (Hrd (Js.toStr name)) as Hkey.
    destruct (spec_occurrences earlier (Js.toStr name)) as [|k] eqn:Hocc.
    + rewrite Hkey. destruct (Js.inherited (Js.toStr name)); [discriminate|].
      intros E. injection E as <- <-. split; [reflexivity|].
      intros key. rewrite spec_occurrences_app, Htruthy. simpl.
      destruct (String.eqb (Js.toStr name) key) eqn:E.
      * apply String.eqb_eq in E. subst key.
        rewrite lookup_insert_eq, Hocc. reflexivity.
      * apply String.eqb_neq in E. rewrite lookup_insert_ne by exact E.
        rewrite Nat.add_0_r. apply Hrd.
    + rewrite Hkey. intros E. injection E as <- <-. split; [reflexivity|].
      intros key. rewrite spec_occurrences_app, Htruthy. simpl.
      destruct (String.eqb (Js.toStr name) key) eqn:E.
      * apply String.eqb_eq in E. subst key.
        rewrite lookup_insert_eq, Hocc. rewrite Nat.add_1_r. reflexivity.
      * apply String.eqb_neq in E. rewrite lookup_insert_ne by exact E.
        rewrite Nat.add_0_r. apply Hrd.
  - intros E. injection E as <- <-. split; [reflexivity|].
    intros key. rewrite spec_occurrences_app, Htruthy. simpl.
    rewrite Nat.add_0_r. apply Hrd.
Qed.

Section NameCollisions.
Context `{Platform}.
Variable config : GenerateServiceProps.
Variable openAPIData : JsVal.

(** what one operation's descriptor says about its function name *)
Lemma describeOperation_functionName (fuel : nat) (tag : string) (st st' : TagState)
    (api d : JsVal) :
  describeOperation config openAPIData fuel tag st api = Ok (d, st') ->
  exists name functionName,
    getFuncationName config openAPIData api = Ok name
    /\ dedupFunctionName (tmpFunctionRD st) name = Ok (functionName, tmpFunctionRD st')
    /\ Js.get "functionName" d = emittedName config functionName.
Proof.
  unfold describeOperation. intros E.
  apply bind_Ok_inv in E as (allParams & _ & E).
  apply bind_Ok_inv in E as (body & _ & E).
  apply bind_Ok_inv in E as (file & _ & E).
  apply bind_Ok_inv in E as (formData & _ & E).
  apply bind_Ok_inv in E as (name & Hname & E).
  apply bind_Ok_inv in E as ([functionName rd] & Hdedup & E).
  exists name, functionName. split; [exact Hname|].
  apply bind_Ok_inv in E as (path & _ & E).
  match type of E with
  | context [if Js.truthy ?b then _ else _] => destruct (Js.truthy b)
  end.
  all: apply bind_Ok_inv in E as (formattedPath & _ & E).
  all: apply bind_Ok_inv in E as (pathParams & _ & E).
  all: apply bind_Ok_inv in E as (finalParams & _ & E).
  all: apply bind_Ok_inv in E as (typeName & _ & E).
  all: injection E as <- <-.
  all: split; [exact Hdedup|].
  all: cbn [Js.setFields fold_left fst snd].
  all: rewrite !get_setField; cbn; reflexivity.
Qed.

Lemma describeAll_functionNames (fuel : nat) (tag : string) (apis : list JsVal) :
  forall (earlier : list JsVal) (st st' : TagState) (ds : list JsVal),
    countsOf earlier (tmpFunctionRD st) ->
    describeAll config openAPIData fuel tag st apis = Ok (ds, st') ->
    exists names,
      Forall2 (fun api name => getFuncationName config openAPIData api = Ok name) apis names
      /\ map (Js.get "functionName") ds
         = map (emittedName config) (spec_dedupedNames earlier names).
Proof.
  induction apis as [|api rest IH]; intros earlier st st' ds Hrd E; simpl in E.
  - injection E as <- <-. exists []. split; [constructor | reflexivity].
  - apply bind_Ok_inv in E as ([d st1] & Hd & E).
    apply bind_Ok_inv in E as ([ds' st2] & Hrest & E).
    injection E as <- <-.
    apply describeOperation_functionName in Hd as (name & functionName & Hname & Hst1 & Hfn).
    destruct (dedupFunctionName_spec earlier _ _ name functionName Hrd Hst1) as (Hfst & Hsnd).
    destruct (IH (earlier ++ [name]) st1 st2 ds' Hsnd Hrest) as (names & Hnames & Hmap).
    exists (name :: names). split; [constructor; assumption|].
    simpl. rewrite Hfn, Hfst, Hmap. reflexivity.
Qed.

(** C5, as amended.  The descriptors of one tag, in the order its
    operations are met: the first operation to produce a name keeps it, the
    next one to produce the same name gets the suffix [_2], the one after
    [_3], and so on; the [functionName] a descriptor carries is that
    suffixed name when [isCamelCase] is off, and [camelCase] of the
    suffixed name when it is on.  The statement is about the runs in which
    the descriptors are built, none where a step throws, and about the
    names the counter object does not inherit: [toString] or [constructor]
    is found in the counter at its first use. *)
Theorem C5_function_name_collision_suffix
    (fuel : nat) (tag : string) (maps : list JsVal) (apis ds : list JsVal) (st : TagState) :
  (forall api name,
     In api apis ->
     getFuncationName config openAPIData api = Ok name ->
     Js.truthy name = true ->
     Js.inherited (Js.toStr name) = false) ->
  describeAll config openAPIData fuel tag {| tmpFunctionRD := ∅; mappings := maps |} apis
    = Ok (ds, st) ->
  exists names,
    Forall2 (fun api name => getFuncationName config openAPIData api = Ok name) apis names
    /\ map (Js.get "functionName") ds
       = map (emittedName config) (spec_dedupedNames [] names).
Proof.
  intros _. apply describeAll_functionNames. intros key. simpl. apply lookup_empty.
Qed.

End NameCollisions.

(** the k-th operation to produce a name gets the suffix [_k] *)
Lemma spec_dedupedNames_lookup (names : list JsVal) :
  forall (earlier : list JsVal) (i : nat) (name : JsVal),
    names !! i = Some name ->
    spec_dedupedNames earlier names !! i
    = Some (spec_dedupedName (earlier ++ take i names) name).
Proof.
  induction names as [|n rest IH]; intros earlier i name Hi; [discriminate|].
  destruct i as [|i]; simpl in *.
  - injection Hi as ->. now rewrite app_nil_r.
  - rewrite (IH _ _ _ Hi). now rewrite <- app_assoc.
Qed.

(** C5, witness: three operations of one tag that all produce [listUsers]
    are named [listUsers], [listUsers_2] and [listUsers_3] with
    [isCamelCase] off, and by the case-folded forms of these three names
    with [isCamelCase] on. *)
Lemma C5_listUsers_witness :
  (exists ds st,
     describeAll sampleConfig listUsersDoc 3 "users"
       {| tmpFunctionRD := ∅; mappings := [] |} listUsersApis = Ok (ds, st)
     /\ map (Js.get "functionName") ds
        = [JStr "listUsers"; JStr "listUsers_2"; JStr "listUsers_3"]
     /\ exists names,
          Forall2 (fun api name => getFuncationName sampleConfig listUsersDoc api = Ok name)
                  listUsersApis names
          /\ map (Js.get "functionName") ds
             = map (emittedName sampleConfig) (spec_dedupedNames [] names))
  /\ (exists ds st,
        describeAll generateServiceConfig listUsersDoc 3 "users"
          {| tmpFunctionRD := ∅; mappings := [] |} listUsersApis = Ok (ds, st)
        /\ exists names,
             Forall2 (fun api name =>
                        getFuncationName generateServiceConfig listUsersDoc api = Ok name)
                     listUsersApis names
             /\ map (Js.get "functionName") ds
                = map (emittedName generateServiceConfig) (spec_dedupedNames [] names)).
Proof.
  assert (Hown : forall config api name,
             In api listUsersApis ->
             getFuncationName config listUsersDoc api = Ok name ->
             hook config = noHook ->
             Js.truthy name = true ->
             Js.inherited (Js.toStr name) = false).
  { intros config api name Hapi E Hhook _.
    unfold getFuncationName in E. rewrite Hhook in E.
    destruct Hapi as [<- | [<- | [<- | []]]]; vm_compute in E;
      injection E as <-; reflexivity. }
  split.
  - destruct (describeAll sampleConfig listUsersDoc 3 "users"
                {| tmpFunctionRD := ∅; mappings := [] |} listUsersApis)
      as [[ds st]| | |] eqn:E; try (vm_compute in E; discriminate).
    exists ds, st. split; [reflexivity|]. split.
    + vm_compute in E. injection E as <- _. reflexivity.
    + exact (C5_function_name_collision_suffix sampleConfig listUsersDoc 3 "users" []
               listUsersApis ds st
               (fun api name Hapi Hname => Hown sampleConfig api name Hapi Hname eq_refl)
               E).
  - destruct (describeAll generateServiceConfig listUsersDoc 3 "users"
                {| tmpFunctionRD := ∅; mappings := [] |} listUsersApis)
      as [[ds st]| | |] eqn:E; try (vm_compute in E; discriminate).
    exists ds, st. split; [reflexivity|].
    exact (C5_function_name_collision_suffix generateServiceConfig listUsersDoc 3 "users" []
             listUsersApis ds st
             (fun api name Hapi Hname =>
                Hown generateServiceConfig api name Hapi Hname eq_refl)
             E).
Defined.

(** C5, counterexample: with [isCamelCase] on, as [generateService] sets
    it, and lodash's [camelCase], the same three operations are named
    [listUsers], [listUsers2] and [listUsers3]: the suffix is appended
    before the name is case-folded, which takes the underscore away, so no
    descriptor carries [listUsers_2]. *)
Lemma C5_suffix_is_folded_with_the_name :
  exists ds st,
    describeAll generateServiceConfig listUsersDoc 3 "users"
      {| tmpFunctionRD := ∅; mappings := [] |} listUsersApis = Ok (ds, st)
    /\ map (Js.get "functionName") ds
       = [JStr "listUsers"; JStr "listUsers2"; JStr "listUsers3"]
    /\ ~ In (JStr "listUsers_2") (map (Js.get "functionName") ds).
Proof.
  destruct (describeAll generateServiceConfig listUsersDoc 3 "users"
              {| tmpFunctionRD := ∅; mappings := [] |} listUsersApis)
    as [[ds st]| | |] eqn:E; try (vm_compute in E; discriminate).
  exists ds, st. split; [reflexivity|].
  vm_compute in E. injection E as <- _. split; [reflexivity|].
  cbn. intros [E|[E|[E|[]]]]; discriminate.
Qed.

(** ** C2: the descriptors of a tag are sorted by their final path *)

Section Sorting.
Context {A : Type} (cmp : A -> A -> Z).
Hypothesis cmp_total : forall a b, (cmp a b <= 0)%Z \/ (cmp b a <= 0)%Z.
Hypothesis cmp_trans :
  forall a b c, (cmp a b <= 0)%Z -> (cmp b c <= 0)%Z -> (cmp a c <= 0)%Z.

Lemma insertBy_In (x z : A) (l : list A) :
  In z (insertBy cmp x l) <-> z = x \/ In z l.
Proof.
  induction l as [|y l IH]; simpl.
  - intuition congruence.
  - destruct (cmp x y <=? 0)%Z; simpl; [intuition congruence|].
    rewrite IH. intuition congruence.
Qed.

Lemma sortBy_In (z : A) (l : list A) : In z (sortBy cmp l) <-> In z l.
Proof.
  induction l as [|x l IH]; simpl; [reflexivity|].
  unfold sortBy in *. simpl. rewrite insertBy_In, IH. intuition congruence.
Qed.

Lemma insertBy_sorted (x : A) (l : list A) :
  StronglySorted (fun a b => (cmp a b <= 0)%Z) l ->
  StronglySorted (fun a b => (cmp a b <= 0)%Z) (insertBy cmp x l).
Proof.
  induction 1 as [|y l Hsorted IH Hy]; simpl.
  - constructor; constructor.
  - destruct (cmp x y <=? 0)%Z eqn:E.
    + apply Z.leb_le in E. constructor; [constructor; assumption|].
      constructor; [exact E|].
      rewrite List.Forall_forall in Hy |- *. intros z Hz.
      apply cmp_trans with y; [exact E | now apply Hy].
    + apply Z.leb_gt in E. constructor; [exact IH|].
      rewrite List.Forall_forall in Hy |- *. intros z Hz.
      apply insertBy_In in Hz as [-> | Hz]; [|now apply Hy].
      destruct (cmp_total x y); [lia | assumption].
Qed.

Lemma sortBy_sorted (l : list A) :
  StronglySorted (fun a b => (cmp a b <= 0)%Z) (sortBy cmp l).
Proof.
  induction l as [|x l IH]; [constructor|].
  unfold sortBy in *. simpl. now apply insertBy_sorted.
Qed.

End Sorting.

Lemma StronglySorted_lookup {A} (R : A -> A -> Prop) (l : list A) :
  StronglySorted R l ->
  forall i j a b, (i < j)%nat -> l !! i = Some a -> l !! j = Some b -> R a b.
Proof.
  induction 1 as [|x l Hsorted IH Hx]; intros i j a b Hij Hi Hj; [discriminate|].
  destruct j as [|j]; [lia|]. simpl in Hj.
  destruct i as [|i]; simpl in Hi.
  - injection Hi as <-. rewrite List.Forall_forall in Hx. apply Hx.
    apply list_elem_of_In. eapply list_elem_of_lookup_2. exact Hj.
  - apply (IH i j); [lia | assumption | assumption].
Qed.

Lemma foldR_invariant {X S} (f : S -> X -> Res S) (P : S -> Prop) :
  (forall s x s', f s x = Ok s' -> P s -> P s') ->
  forall l s s', foldR f l s = Ok s' -> P s -> P s'.
Proof.
  intros Hstep. induction l as [|x l IH]; intros s s' E Hs; simpl in E.
  - now injection E as <-.
  - apply bind_Ok_inv in E as (s1 & H1 & E). eapply IH; eauto.
Qed.

Section SortedByPath.
Context `{Platform}.
Variable config : GenerateServiceProps.
Variable openAPIData : JsVal.

Lemma describeOperation_path (fuel : nat) (tag : string) (st st' : TagState) (api d : JsVal) :
  describeOperation config openAPIData fuel tag st api = Ok (d, st') ->
  exists p, isFinalPath config d p.
Proof.
  unfold describeOperation, isFinalPath. intros E.
  apply bind_Ok_inv in E as (allParams & _ & E).
  apply bind_Ok_inv in E as (body & _ & E).
  apply bind_Ok_inv in E as (file & _ & E).
  apply bind_Ok_inv in E as (formData & _ & E).
  apply bind_Ok_inv in E as (name & _ & E).
  apply bind_Ok_inv in E as ([functionName rd] & _ & E).
  apply bind_Ok_inv in E as (path & _ & E).
  match type of E with
  | context [if Js.truthy ?b then _ else _] => destruct (Js.truthy b)
  end.
  all: apply bind_Ok_inv in E as (formattedPath & _ & E).
  all: apply bind_Ok_inv in E as (pathParams & _ & E).
  all: apply bind_Ok_inv in E as (finalParams & _ & E).
  all: apply bind_Ok_inv in E as (typeName & _ & E).
  all: injection E as <- <-.
  all: eexists; split;
    [cbn [Js.setFields fold_left]; rewrite !get_setField; cbn; reflexivity
    | do 4 eexists; reflexivity].
Qed.

Lemma describeAll_paths (fuel : nat) (tag : string) (apis : list JsVal) :
  forall st st' ds,
    describeAll config openAPIData fuel tag st apis = Ok (ds, st') ->
    Forall (fun d => exists p, isFinalPath config d p) ds.
Proof.
  induction apis as [|api rest IH]; intros st st' ds E; simpl in E.
  - injection E as <- <-. constructor.
  - apply bind_Ok_inv in E as ([d st1] & Hd & E).
    apply bind_Ok_inv in E as ([ds' st2] & Hrest & E).
    injection E as <- <-.
    constructor; [eapply describeOperation_path; eauto | eapply IH; eauto].
Qed.

(** C2.  When the comparison of the host orders strings (any two compare
    one way or the other, and the order is transitive), every list of
    descriptors that [getServiceTP] emits is sorted by final path: each
    descriptor's [path] is the string [getPrefixPath] returned for it,
    after the rewriting of template variables, the vendor path and the
    prefix, and of two descriptors of one list the earlier one's path
    compares less than or equal to the later one's. *)
Theorem C2_descriptors_sorted_by_final_path
    (fuel : nat) (apiData : TagAPIDataType) (maps classNames : list JsVal)
    (out : ServiceOutput) :
  (forall a b, (localeCompare a b <= 0)%Z \/ (localeCompare b a <= 0)%Z) ->
  (forall a b c, (localeCompare a b <= 0)%Z -> (localeCompare b c <= 0)%Z ->
                 (localeCompare a c <= 0)%Z) ->
  getServiceTP config openAPIData fuel apiData maps classNames = Ok out ->
  forall tp, In tp (services out) ->
    forall i j a b, (i < j)%nat ->
      list_ tp !! i = Some a -> list_ tp !! j = Some b ->
      exists pa pb,
        isFinalPath config a pa /\ isFinalPath config b pb
        /\ (localeCompare pa pb <= 0)%Z.
Proof.
  intros Htotal Htrans E.
  set (good := fun tp : ServiceTP =>
         StronglySorted (fun a b => (comparePath a b <= 0)%Z) (list_ tp)
         /\ Forall (fun d => exists p, isFinalPath config d p) (list_ tp)).
  assert (Hall : Forall good (services out)).
  { unfold getServiceTP in E.
    apply bind_Ok_inv in E as ([out' n] & Hfold & [= <-]).
    refine (foldR_invariant (serviceOfTag config openAPIData fuel)
              (fun acc => Forall good (services (fst acc))) _ _ _ _ Hfold _);
      [|constructor].
    intros [o index] [tag apis] [o' index'] Hstep Hgood. simpl in Hgood |- *.
    unfold serviceOfTag in Hstep.
    apply bind_Ok_inv in Hstep as ([genParams maps'] & Hgen & Hstep).
    injection Hstep as <- _. simpl.
    unfold genParamsOf in Hgen.
    apply bind_Ok_inv in Hgen as (kept & _ & Hgen).
    apply bind_Ok_inv in Hgen as ([ds st] & Hds & [= <- _]).
    destruct (sortBy comparePath ds) as [|d0 rest] eqn:Hsorted; [exact Hgood|].
    apply Forall_app. split; [exact Hgood|].
    constructor; [|constructor]. unfold good. simpl. rewrite <- Hsorted. split.
    - apply sortBy_sorted.
      + intros a b. apply Htotal.
      + intros a b c. apply Htrans.
    - apply describeAll_paths in Hds.
      rewrite List.Forall_forall in Hds |- *. intros d Hd.
      apply Hds. now apply sortBy_In in Hd. }
  intros tp Htp i j a b Hij Hi Hj.
  rewrite List.Forall_forall in Hall. destruct (Hall tp Htp) as (Hsorted & Hpaths).
  rewrite List.Forall_forall in Hpaths.
  destruct (Hpaths a) as (pa & Hpa).
  { apply list_elem_of_In. eapply list_elem_of_lookup_2. exact Hi. }
  destruct (Hpaths b) as (pb & Hpb).
  { apply list_elem_of_In. eapply list_elem_of_lookup_2. exact Hj. }
  exists pa, pb. split; [exact Hpa|]. split; [exact Hpb|].
  pose proof (StronglySorted_lookup _ _ Hsorted i j a b Hij Hi Hj) as Hle.
  unfold comparePath in Hle.
  destruct Hpa as (Ha & _). destruct Hpb as (Hb & _).
  now rewrite Ha, Hb in Hle.
Qed.

End SortedByPath.

Lemma leCodeUnits_total (a : string) : forall b, leCodeUnits a b = true \/ leCodeUnits b a = true.
Proof.
  induction a as [|x a IH]; intros [|y b]; simpl; auto.
  destruct (Nat.ltb_spec (nat_of_ascii x) (nat_of_ascii y)); [now left|].
  destruct (Nat.ltb_spec (nat_of_ascii y) (nat_of_ascii x)); [now right|].
  apply IH.
Qed.

Lemma leCodeUnits_trans (a : string) :
  forall b c, leCodeUnits a b = true -> leCodeUnits b c = true -> leCodeUnits a c = true.
Proof.
  induction a as [|x a IH]; intros [|y b] [|z c]; simpl; auto; try discriminate.
  destruct (Nat.ltb_spec (nat_of_ascii x) (nat_of_ascii y));
    destruct (Nat.ltb_spec (nat_of_ascii y) (nat_of_ascii z));
    destruct (Nat.ltb_spec (nat_of_ascii x) (nat_of_ascii z));
    destruct (Nat.ltb_spec (nat_of_ascii y) (nat_of_ascii x));
    destruct (Nat.ltb_spec (nat_of_ascii z) (nat_of_ascii y));
    destruct (Nat.ltb_spec (nat_of_ascii z) (nat_of_ascii x));
    try lia; try discriminate; auto.
  apply IH.
Qed.

Lemma compareCodeUnits_le (a b : string) :
  (compareCodeUnits a b <= 0)%Z <-> leCodeUnits a b = true.
Proof.
  unfold compareCodeUnits.
  destruct (leCodeUnits a b); [destruct (leCodeUnits b a)|]; split; intros; try lia;
    try reflexivity; discriminate.
Qed.

Lemma compareCodeUnits_total (a b : string) :
  (compareCodeUnits a b <= 0)%Z \/ (compareCodeUnits b a <= 0)%Z.
Proof. rewrite !compareCodeUnits_le. apply leCodeUnits_total. Qed.

Lemma compareCodeUnits_trans (a b c : string) :
  (compareCodeUnits a b <= 0)%Z -> (compareCodeUnits b c <= 0)%Z ->
  (compareCodeUnits a c <= 0)%Z.
Proof. rewrite !compareCodeUnits_le. apply leCodeUnits_trans. Qed.

(** C2, witness: /pets is met before /cats, and /cats is emitted first. *)
Lemma C2_pets_and_cats_witness :
  exists out,
    getServiceTP sampleConfig petsAndCatsDoc 3 petsAndCatsApiData [] [] = Ok out
    /\ map (fun tp => map (Js.get "path") (list_ tp)) (services out)
       = [[JStr "/cats"; JStr "/pets"]]
    /\ forall tp, In tp (services out) ->
         forall i j a b, (i < j)%nat ->
           list_ tp !! i = Some a -> list_ tp !! j = Some b ->
           exists pa pb,
             isFinalPath sampleConfig a pa /\ isFinalPath sampleConfig b pb
             /\ (compareCodeUnits pa pb <= 0)%Z.
Proof.
  destruct (getServiceTP sampleConfig petsAndCatsDoc 3 petsAndCatsApiData [] [])
    as [out| | |] eqn:E; try (vm_compute in E; discriminate).
  exists out. split; [reflexivity|]. split.
  - vm_compute in E. injection E as <-. reflexivity.
  - exact (C2_descriptors_sorted_by_final_path sampleConfig petsAndCatsDoc 3
             petsAndCatsApiData [] [] out compareCodeUnits_total compareCodeUnits_trans E).
Defined.

(** the grouping pass yields the tag table used above *)
Example petsAndCats_grouping :
  groupOperations sampleConfig petsAndCatsDoc = Ok petsAndCatsApiData.
Proof. reflexivity. Qed.

(** ** C8: aliases of path parameters *)

(** every path parameter gets the alias of its position *)
Lemma aliasFrom_lookup (pathParams : list JsVal) :
  forall (index i : nat),
    aliasFrom index pathParams !! i
    = (fun ele => JObj (Js.setFields (Js.ownProps ele)
                          [("alias", JStr ("param" +:+ pretty (index + i)))]))
      <$> pathParams !! i.
Proof.
  induction pathParams as [|p rest IH]; intros index i; [reflexivity|].
  destruct i as [|i]; simpl.
  - now rewrite Nat.add_0_r.
  - rewrite (IH (S index) i).
    replace (S index + i) with (index + S i) by lia. reflexivity.
Qed.

(** the spec's example: both tokens are rewritten to their aliases *)
Example C8_posts_example :
  groupOperations sampleConfig postsDoc = Ok postsApiData
  /\ pathsAndAliases (getServiceTP sampleConfig postsDoc 3 postsApiData [] [])
     = Ok [(JStr "/users/${param0}/posts/${param1}",
            [(JStr "id", JStr "param0"); (JStr "postId", JStr "param1")])].
Proof. split; reflexivity. Qed.

(** C8.  The path /x/{id}/{param0}: its parameters [id] and [param0] get
    the aliases [param0] and [param1], as the claim says, but the rewritten
    template is /x/${param1}/${param0}: the alias of [id] is written first
    and then taken for the parameter [param0] and rewritten again, so the
    template puts [param1] where [id] stood and leaves the original name
    [param0] in place.  The path /groups/{id}/members/{id} keeps the
    original name in its second token.  The aliases themselves are
    positional for every parameter list. *)
Theorem C8_alias_rewrite_misses_tokens :
  groupOperations sampleConfig swapDoc = Ok swapApiData
  /\ pathsAndAliases (getServiceTP sampleConfig swapDoc 3 swapApiData [] [])
     = Ok [(JStr "/x/${param1}/${param0}",
            [(JStr "id", JStr "param0"); (JStr "param0", JStr "param1")])]
  /\ groupOperations sampleConfig twiceDoc = Ok twiceApiData
  /\ pathsAndAliases (getServiceTP sampleConfig twiceDoc 3 twiceApiData [] [])
     = Ok [(JStr "/groups/${param0}/members/${id}", [(JStr "id", JStr "param0")])]
  /\ (forall (pathParams : list JsVal) (i : nat),
        Js.get "alias" <$> aliasFrom 0 pathParams !! i
        = (fun _ => JStr ("param" +:+ pretty i)) <$> pathParams !! i).
Proof.
  repeat split; try reflexivity.
  intros pathParams i. rewrite (aliasFrom_lookup pathParams 0 i).
  destruct (pathParams !! i) as [ele|]; [|reflexivity].
  cbn [fmap option_fmap option_map Js.setFields fold_left]. f_equal.
  apply get_setField.
Qed.

(** ** C10: the default function name and the shared path prefix *)

Lemma append_cons (c : ascii) (s r : string) : String c s +:+ r = String c (s +:+ r).
Proof. reflexivity. Qed.

Lemma append_nil_l (r : string) : "" +:+ r = r.
Proof. reflexivity. Qed.

Lemma append_nil_r (s : string) : s +:+ "" = s.
Proof.
  induction s as [|c s IH]; [reflexivity|]. now rewrite append_cons, IH.
Qed.

Lemma append_assoc (a b c : string) : (a +:+ b) +:+ c = a +:+ (b +:+ c).
Proof.
  induction a as [|x a IH]; [reflexivity|]. now rewrite !append_cons, IH.
Qed.

Lemma prefix_append (p r : string) : String.prefix p (p +:+ r) = true.
Proof.
  induction p as [|c p IH]; [now destruct r|].
  rewrite append_cons.
  change (String.prefix (String c p) (String c (p +:+ r)))
    with (if ascii_dec c c then String.prefix p (p +:+ r) else false).
  destruct (ascii_dec c c); [exact IH | contradiction].
Qed.

Lemma drop_append (p r : string) : Str.drop (String.length p) (p +:+ r) = r.
Proof.
  induction p as [|c p IH]; [reflexivity|]. rewrite append_cons. exact IH.
Qed.

Lemma replaceFirst_prefix (p r : string) : Str.replaceFirst p "" (p +:+ r) = r.
Proof.
  assert (Hunfold : forall s,
            Str.replaceFirst p "" s
            = if String.prefix p s then "" +:+ Str.drop (String.length p) s
              else match s with
                   | EmptyString => EmptyString
                   | String c s' => String c (Str.replaceFirst p "" s')
                   end) by (intros []; reflexivity).
  rewrite Hunfold, prefix_append, drop_append. reflexivity.
Qed.

Lemma prefix_cons (a b : ascii) (p t : string) :
  String.prefix (String a p) (String b t) = Ascii.eqb a b && String.prefix p t.
Proof.
  change (String.prefix (String a p) (String b t))
    with (if ascii_dec a b then String.prefix p t else false).
  destruct (ascii_dec a b) as [<- | Hne].
  - now rewrite Ascii.eqb_refl.
  - apply Ascii.eqb_neq in Hne. now rewrite Hne.
Qed.

Lemma prefix_length (p : string) :
  forall s, String.prefix p s = true -> String.length p <= String.length s.
Proof.
  induction p as [|a p IH]; intros s Hp; [cbn; lia|].
  destruct s as [|b s]; [discriminate Hp|].
  rewrite prefix_cons in Hp. apply andb_true_iff in Hp as (_ & Hp).
  cbn [String.length]. specialize (IH s Hp). lia.
Qed.

Lemma replaceFirst_longer (pat rep : string) (s : string) :
  String.length s < String.length pat -> Str.replaceFirst pat rep s = s.
Proof.
  induction s as [|c s IH]; intros Hlen.
  - cbn [Str.replaceFirst]. destruct (String.prefix pat "") eqn:E; [|reflexivity].
    apply prefix_length in E. lia.
  - cbn [Str.replaceFirst]. destruct (String.prefix pat (String c s)) eqn:E.
    + apply prefix_length in E. lia.
    + rewrite IH; [reflexivity|]. cbn [String.length] in Hlen. lia.
Qed.

Lemma length_append (a b : string) :
  String.length (a +:+ b) = String.length a + String.length b.
Proof.
  induction a as [|c a IH]; [reflexivity|].
  rewrite append_cons. cbn [String.length]. now rewrite IH.
Qed.

Lemma prefix_slash_cons (c : ascii) (s : string) :
  String.prefix "/" (String c s) = Ascii.eqb "/" c.
Proof.
  change (String.prefix "/" (String c s))
    with (if ascii_dec "/" c then String.prefix "" s else false).
  destruct (ascii_dec "/" c) as [<- | Hne].
  - now destruct s.
  - symmetry. now apply Ascii.eqb_neq.
Qed.

(** splitting at slashes: a slash-free piece is read up to the next slash *)
Lemma split_aux_piece (s : string) :
  slashFree s = true ->
  forall cur rest,
    Str.split_aux "/" 0 cur (s +:+ "/" +:+ rest)
    = (cur +:+ s) :: Str.split_aux "/" 0 "" rest.
Proof.
  induction s as [|c s IH]; intros Hs cur rest.
  - rewrite append_nil_l, append_nil_r.
    change ("/" +:+ rest) with (String "/" rest).
    cbn [Str.split_aux]. rewrite prefix_slash_cons. reflexivity.
  - unfold slashFree in Hs. simpl in Hs. apply andb_true_iff in Hs as (Hc & Hs).
    rewrite append_cons.
    cbn [Str.split_aux]. rewrite prefix_slash_cons.
    rewrite Ascii.eqb_sym. apply negb_true_iff in Hc. rewrite Hc.
    rewrite (IH Hs). rewrite append_assoc. reflexivity.
Qed.

Lemma split_aux_last (s : string) :
  slashFree s = true ->
  forall cur, Str.split_aux "/" 0 cur s = [cur +:+ s].
Proof.
  induction s as [|c s IH]; intros Hs cur.
  - simpl. now rewrite append_nil_r.
  - unfold slashFree in Hs. simpl in Hs. apply andb_true_iff in Hs as (Hc & Hs).
    cbn [Str.split_aux]. rewrite prefix_slash_cons.
    rewrite Ascii.eqb_sym. apply negb_true_iff in Hc. rewrite Hc.
    rewrite (IH Hs). rewrite append_assoc. reflexivity.
Qed.

Lemma join_cons2 (x y : string) (l : list string) :
  Str.join "/" (x :: y :: l) = x +:+ "/" +:+ Str.join "/" (y :: l).
Proof. reflexivity. Qed.

Lemma split_join (segments : list string) :
  segments <> [] ->
  Forall (fun s => slashFree s = true) segments ->
  Str.split "/" (Str.join "/" segments) = segments.
Proof.
  unfold Str.split.
  induction segments as [|s rest IH]; intros Hne Hfree; [contradiction|].
  inversion Hfree as [|? ? Hs Hrest]; subst.
  destruct rest as [|s' rest].
  - change (Str.join "/" [s]) with s. now rewrite split_aux_last.
  - rewrite join_cons2, split_aux_piece by exact Hs.
    rewrite append_nil_l. f_equal.
    apply IH; [discriminate | exact Hrest].
Qed.

Lemma join_app (a b : list string) :
  a <> [] -> b <> [] ->
  Str.join "/" (a ++ b) = (Str.join "/" a +:+ "/") +:+ Str.join "/" b.
Proof.
  induction a as [|x a IH]; intros Ha Hb; [contradiction|].
  destruct a as [|y a].
  - destruct b as [|z b]; [contradiction|].
    change ([x] ++ z :: b) with (x :: z :: b). rewrite join_cons2.
    change (Str.join "/" [x]) with x. now rewrite append_assoc.
  - change ((x :: y :: a) ++ b) with (x :: y :: (a ++ b)).
    rewrite !join_cons2.
    change (y :: a ++ b) with ((y :: a) ++ b).
    rewrite IH by (assumption || discriminate).
    now rewrite !append_assoc.
Qed.

Lemma pushColumns_heads (hts : list (string * list string)) :
  forall col cols,
    fold_left pushColumns (map (fun ht => fst ht :: snd ht) hts) (col :: cols)
    = (col ++ map fst hts) :: fold_left pushColumns (map snd hts) cols.
Proof.
  induction hts as [|[h t] hts IH]; intros col cols; simpl.
  - now rewrite app_nil_r.
  - rewrite IH, <- app_assoc. reflexivity.
Qed.

(** the first column of the table holds the first segment of every path *)
Lemma columns_heads (hts : list (string * list string)) :
  hts <> [] ->
  fold_left pushColumns (map (fun ht => fst ht :: snd ht) hts) []
  = map fst hts :: fold_left pushColumns (map snd hts) [].
Proof.
  destruct hts as [|[h t] hts]; intros Hne; [contradiction|].
  simpl. now rewrite pushColumns_heads.
Qed.

Lemma existsb_eqb_In (x : string) (l : list string) :
  existsb (String.eqb x) l = true <-> In x l.
Proof.
  rewrite existsb_exists. split.
  - intros (y & Hy & E). apply String.eqb_eq in E. now subst.
  - intros Hx. exists x. split; [exact Hx | apply String.eqb_refl].
Qed.

Lemma uniq_acc_seen (l seen : list string) :
  (forall x, In x l -> In x seen) -> Str.uniq_acc seen l = [].
Proof.
  induction l as [|x l IH]; intros Hseen; simpl; [reflexivity|].
  assert (Hx : existsb (String.eqb x) seen = true)
    by (apply existsb_eqb_In, Hseen; now left).
  rewrite Hx. apply IH. intros y Hy. apply Hseen. now right.
Qed.

Lemma uniq_acc_In (l : list string) :
  forall seen y, In y l -> In y seen \/ In y (Str.uniq_acc seen l).
Proof.
  induction l as [|x l IH]; intros seen y Hy; [contradiction|]. simpl.
  destruct (existsb (String.eqb x) seen) eqn:Hx.
  - destruct Hy as [<- | Hy]; [left; now apply existsb_eqb_In | now apply IH].
  - destruct Hy as [<- | Hy]; [right; now left|].
    destruct (IH (x :: seen) y Hy) as [[<- | Hseen] | Hin].
    + right. now left.
    + now left.
    + right. now right.
Qed.

Lemma uniq_constant (c : string) (l : list string) :
  l <> [] -> (forall x, In x l -> x = c) -> Str.uniq l = [c].
Proof.
  destruct l as [|x l]; intros Hne Hall; [contradiction|].
  assert (x = c) by (apply Hall; now left). subst x.
  unfold Str.uniq. simpl. f_equal. apply uniq_acc_seen.
  intros y Hy. left. symmetry. apply Hall. now right.
Qed.

Lemma uniq_singleton (x : string) (l : list string) :
  Str.uniq l = [x] -> forall y, In y l -> y = x.
Proof.
  intros Hu y Hy. destruct (uniq_acc_In l [] y Hy) as [[] | Hin].
  unfold Str.uniq in Hu. rewrite Hu in Hin. destruct Hin as [<- | []]. reflexivity.
Qed.

Lemma pushColumns_rows (rows : list (list string)) :
  forall arr,
    fold_left pushColumns rows arr
    = fold_left pushColumns (List.filter hasSegment rows) arr.
Proof.
  induction rows as [|row rows IH]; intros arr; [reflexivity|].
  destruct row as [|item row]; cbn [List.filter hasSegment fold_left]; apply IH.
Qed.

Lemma rows_heads (rows : list (list string)) :
  Forall (fun row => row <> []) rows ->
  rows = map (fun ht => fst ht :: snd ht) (map (fun row => (hd "" row, tl row)) rows).
Proof.
  induction 1 as [|row rows Hrow _ IH]; [reflexivity|].
  cbn [map fst snd]. rewrite <- IH. destruct row; [contradiction | reflexivity].
Qed.

Lemma filter_hasSegment (rows : list (list string)) :
  Forall (fun row => row <> []) (List.filter hasSegment rows).
Proof.
  apply List.Forall_forall. intros row Hrow. apply filter_In in Hrow as (_ & Hrow).
  now destruct row.
Qed.

(** the columns that hold one value are those of the segments every path
    starts with, when two paths part right after them *)
Lemma leadingSingletons_common (common : list string) (rests : list (list string)) :
  (exists r1 r2, In r1 rests /\ In r2 rests /\ r1 <> [] /\ r2 <> []
                 /\ hd "" r1 <> hd "" r2) ->
  leadingSingletons
    (map Str.uniq (fold_left pushColumns (map (app common) rests) []))
  = map (fun c => [c]) common.
Proof.
  intros Hfork.
  assert (Hrests : rests <> []).
  { destruct Hfork as (r1 & _ & Hr1 & _). intros ->. contradiction. }
  induction common as [|c common IH].
  - assert (Hrows : map (app []) rests = rests) by (rewrite <- (map_id rests) at 2; reflexivity).
    rewrite Hrows, pushColumns_rows.
    destruct Hfork as (r1 & r2 & Hr1 & Hr2 & Hn1 & Hn2 & Hdiff).
    assert (Hin : forall r, In r rests -> r <> [] -> In r (List.filter hasSegment rests)).
    { intros r Hr Hn. apply filter_In. split; [exact Hr | now destruct r]. }
    pose proof (Hin r1 Hr1 Hn1) as Hk1. pose proof (Hin r2 Hr2 Hn2) as Hk2.
    rewrite (rows_heads _ (filter_hasSegment rests)).
    rewrite columns_heads
      by (destruct (List.filter hasSegment rests); [contradiction | discriminate]).
    rewrite map_map. cbn [map fst].
    destruct (Str.uniq (map (fun r => hd "" r) (List.filter hasSegment rests)))
      as [|a [|b l]] eqn:Hu; try reflexivity.
    exfalso. apply Hdiff.
    rewrite (uniq_singleton a _ Hu (hd "" r1)), (uniq_singleton a _ Hu (hd "" r2));
      [reflexivity | |]; apply in_map_iff; eauto.
  - assert (Hrows : map (app (c :: common)) rests
                    = map (fun ht => fst ht :: snd ht)
                          (map (fun r => (c, common ++ r)) rests)).
    { rewrite map_map. reflexivity. }
    rewrite Hrows, columns_heads by (destruct rests; [contradiction | discriminate]).
    rewrite !map_map. simpl.
    rewrite (uniq_constant c).
    + f_equal. exact IH.
    + destruct rests; [contradiction | discriminate].
    + intros x Hx. apply in_map_iff in Hx as (r & <- & _). reflexivity.
Qed.

(** when every path is the beginning of one of them, every column holds
    one value: the segment of that longest path *)
Lemma leadingSingletons_chain (longest : list string) :
  forall segss,
    In longest segss ->
    (forall segs, In segs segss -> exists tail, longest = segs ++ tail) ->
    leadingSingletons (map Str.uniq (fold_left pushColumns segss []))
    = map (fun c => [c]) longest.
Proof.
  induction longest as [|c longest IH]; intros segss Hin Hchain.
  - rewrite pushColumns_rows.
    assert (Hnone : List.filter hasSegment segss = []).
    { destruct (List.filter hasSegment segss) as [|row rows] eqn:E; [reflexivity|].
      assert (Hrow : In row (List.filter hasSegment segss)) by (rewrite E; now left).
      apply filter_In in Hrow as (Hrow & Hseg).
      destruct (Hchain row Hrow) as (tail & Htail).
      destruct row; [discriminate Hseg | discriminate Htail]. }
    rewrite Hnone. reflexivity.
  - rewrite pushColumns_rows.
    set (rows := List.filter hasSegment segss).
    assert (Hlongest : In (c :: longest) rows) by (apply filter_In; split; [exact Hin | reflexivity]).
    assert (Hrows : rows = map (fun ht => fst ht :: snd ht)
                               (map (fun row => (c, tl row)) rows)).
    { rewrite (rows_heads rows (filter_hasSegment segss)) at 1.
      f_equal. apply map_ext_in. intros row Hrow.
      apply filter_In in Hrow as (Hrow & Hseg).
      destruct (Hchain row Hrow) as (tail & Htail).
      destruct row as [|x row]; [discriminate Hseg|].
      injection Htail as <- _. reflexivity. }
    rewrite Hrows, columns_heads by (destruct rows; [contradiction | discriminate]).
    rewrite !map_map. cbn [map fst snd].
    rewrite (uniq_constant c).
    + cbn [leadingSingletons]. f_equal. apply IH.
      * apply in_map_iff. exists (c :: longest). split; [reflexivity | exact Hlongest].
      * intros segs Hsegs. apply in_map_iff in Hsegs as (row & <- & Hrow).
        apply filter_In in Hrow as (Hrow & Hseg).
        destruct (Hchain row Hrow) as (tail & Htail).
        destruct row as [|x row]; [discriminate Hseg|].
        injection Htail as _ ->. now exists tail.
    + destruct rows; [contradiction | discriminate].
    + intros x Hx. apply in_map_iff in Hx as (r & <- & _). reflexivity.
Qed.

(** a path is not longer than a path it begins *)
Lemma join_begins (segs tail : list string) :
  segs <> [] ->
  String.length (Str.join "/" segs) <= String.length (Str.join "/" (segs ++ tail)).
Proof.
  intros Hsegs. destruct tail as [|t tail]; [now rewrite app_nil_r|].
  rewrite join_app by (assumption || discriminate).
  rewrite !length_append. lia.
Qed.

Lemma join_singletons (common : list string) :
  map (Str.join ",") (map (fun c => [c]) common) = common.
Proof.
  rewrite map_map. induction common as [|c common IH]; [reflexivity|].
  cbn [map]. rewrite IH. reflexivity.
Qed.

Section DefaultNames.
Context `{Platform}.
Variable config : GenerateServiceProps.
Variable openAPIData : JsVal.

(** C10, as amended.  An operation with no hook for its name, no
    operation id and a string for its path is named by its method followed
    by the title-cased segments of what is left of the path after the
    first occurrence of the string [getBasePrefix] returns has been removed
    from it.  When all paths start with the segments [common] and two of
    them part right after, that string is [common] joined by slashes and
    closed by a slash: an operation whose path goes on after [common] is
    named by the segments after it, so the shared segments do not appear in
    the name, and the operation whose path is [common] itself keeps them.
    When every path is the beginning, segment by segment, of one of the
    paths, [longest], the string is [longest] and a slash, nothing is
    removed and every operation is named by all the segments of its path.
    So the name of an operation can change when paths are added to the
    document. *)
Theorem C10_default_name_after_base_prefix
    (data pathsObject : JsVal) (p : string) (ps : list string) :
  customFunctionName (hook config) = None ->
  Js.truthy (Js.get "operationId" data) = false ->
  Js.get "path" data = JStr p ->
  Js.getR "paths" openAPIData = Ok pathsObject ->
  Js.keys pathsObject = Ok ps ->
  let named (segments : list string) : Res JsVal :=
    let* names := mapR genDefaultSegment segments in
    Ok (Js.add (Js.get "method" data) (JStr (Str.join "" names))) in
  getFuncationName config openAPIData data
  = named (Str.split "/" (Str.replaceFirst (getBasePrefix ps) "" p))
  /\ (forall common rests rest,
        common <> [] ->
        Forall (fun s => slashFree s = true) common ->
        Forall (Forall (fun s => slashFree s = true)) rests ->
        (exists r1 r2, In r1 rests /\ In r2 rests /\ r1 <> [] /\ r2 <> []
                       /\ hd "" r1 <> hd "" r2) ->
        ps = map (fun rest => Str.join "/" (common ++ rest)) rests ->
        In rest rests ->
        p = Str.join "/" (common ++ rest) ->
        getBasePrefix ps = Str.join "/" common +:+ "/"
        /\ getFuncationName config openAPIData data
           = named match rest with
                   | [] => common
                   | _ :: _ => rest
                   end)
  /\ (forall longest segss segs,
        Forall (fun segs => segs <> []
                            /\ Forall (fun s => slashFree s = true) segs
                            /\ exists tail, longest = segs ++ tail) segss ->
        In longest segss ->
        ps = map (Str.join "/") segss ->
        In segs segss ->
        p = Str.join "/" segs ->
        getBasePrefix ps = Str.join "/" longest +:+ "/"
        /\ getFuncationName config openAPIData data = named segs)
  /\ exists paths more operation,
       @getFuncationName samplePlatform sampleConfig (docWithPaths paths) operation
       <> @getFuncationName samplePlatform sampleConfig (docWithPaths (paths ++ more))
            operation.
Proof.
  intros Hhook Hid Hpath Hpaths Hkeys named.
  assert (Hname : getFuncationName config openAPIData data
                  = named (Str.split "/" (Str.replaceFirst (getBasePrefix ps) "" p))).
  { unfold getFuncationName, named. rewrite Hpaths. cbn [bind]. rewrite Hkeys. cbn [bind].
    rewrite Hhook, Hid, Hpath. unfold genDefaultFunctionName. cbn [Js.asString bind].
    destruct (mapR genDefaultSegment _); reflexivity. }
  split; [exact Hname|]. split; [|split].
  - intros common rests rest Hcommon Hfree Hfrees Hfork Hps Hrest Hp.
    assert (Hprefix : getBasePrefix ps = Str.join "/" common +:+ "/").
    { subst ps. unfold getBasePrefix. rewrite map_map.
      assert (Hsplit : map (fun rest => Str.split "/" (Str.join "/" (common ++ rest))) rests
                       = map (app common) rests).
      { apply map_ext_in. intros r Hr. apply split_join.
        - destruct common; [contradiction | discriminate].
        - apply Forall_app. split; [exact Hfree|].
          rewrite List.Forall_forall in Hfrees. now apply Hfrees. }
      rewrite Hsplit, leadingSingletons_common by assumption.
      now rewrite join_singletons. }
    split; [exact Hprefix|]. rewrite Hname, Hprefix, Hp. f_equal.
    rewrite List.Forall_forall in Hfrees.
    destruct rest as [|r rest].
    + rewrite app_nil_r, replaceFirst_longer by (rewrite length_append; cbn; lia).
      now apply split_join.
    + rewrite join_app by (assumption || discriminate).
      rewrite replaceFirst_prefix. apply split_join; [discriminate | now apply Hfrees].
  - intros longest segss segs Hsegss Hlongest Hps Hsegs Hp.
    rewrite List.Forall_forall in Hsegss.
    assert (Hprefix : getBasePrefix ps = Str.join "/" longest +:+ "/").
    { subst ps. unfold getBasePrefix. rewrite map_map.
      assert (Hsplit : map (fun segs => Str.split "/" (Str.join "/" segs)) segss = segss).
      { rewrite <- (map_id segss) at 2. apply map_ext_in. intros r Hr.
        destruct (Hsegss r Hr) as (Hne & Hfree & _). now apply split_join. }
      rewrite Hsplit, (leadingSingletons_chain longest) by
        (try assumption; intros r Hr; now destruct (Hsegss r Hr) as (_ & _ & Htail)).
      now rewrite join_singletons. }
    split; [exact Hprefix|]. rewrite Hname, Hprefix, Hp. f_equal.
    destruct (Hsegss segs Hsegs) as (Hne & Hfree & tail & ->).
    rewrite replaceFirst_longer.
    + now apply split_join.
    + rewrite length_append. pose proof (join_begins segs tail Hne). cbn [String.length]. lia.
  - exists ["/api/users"; "/api/pets"], ["/v2/x"], (getAt "/api/users").
    vm_compute. discriminate.
Qed.

End DefaultNames.

(** C10, witness.  With the paths /api/users and /api/pets the prefix is
    /api/ and get /api/users is named getUsers; with /api and /api/users
    it is /api/users/ and the same operation is named getApiUsers. *)
Lemma C10_api_prefix_witness :
  (getBasePrefix ["/api/users"; "/api/pets"] = "/api/"
   /\ getFuncationName sampleConfig (docWithPaths ["/api/users"; "/api/pets"])
        (getAt "/api/users")
      = Ok (JStr "getUsers"))
  /\ (getBasePrefix ["/api"; "/api/users"] = "/api/users/"
      /\ getFuncationName sampleConfig (docWithPaths ["/api"; "/api/users"])
           (getAt "/api/users")
         = Ok (JStr "getApiUsers")).
Proof.
  split.
  - destruct (C10_default_name_after_base_prefix sampleConfig
                (docWithPaths ["/api/users"; "/api/pets"])
                (getAt "/api/users")
                (JObj [("/api/users", JObj [("get", JObj [])]);
                       ("/api/pets", JObj [("get", JObj [])])])
                "/api/users" ["/api/users"; "/api/pets"]
                eq_refl eq_refl eq_refl eq_refl eq_refl)
      as (_ & Hfork & _ & _).
    apply (Hfork [""; "api"] [["users"]; ["pets"]] ["users"]).
    + discriminate.
    + repeat constructor.
    + repeat constructor.
    + exists ["users"], ["pets"]. repeat split; simpl; auto; discriminate.
    + reflexivity.
    + now left.
    + reflexivity.
  - destruct (C10_default_name_after_base_prefix sampleConfig
                (docWithPaths ["/api"; "/api/users"])
                (getAt "/api/users")
                (JObj [("/api", JObj [("get", JObj [])]);
                       ("/api/users", JObj [("get", JObj [])])])
                "/api/users" ["/api"; "/api/users"]
                eq_refl eq_refl eq_refl eq_refl eq_refl)
      as (_ & _ & Hchain & _).
    apply (Hchain [""; "api"; "users"] [[""; "api"]; [""; "api"; "users"]]
             [""; "api"; "users"]).
    + repeat constructor; try discriminate.
      * now exists ["users"].
      * now exists [].
    + right. now left.
    + reflexivity.
    + right. now left.
    + reflexivity.
Defined.

(** C10, counterexample to the claim as stated.  In a document whose only
    path is /api/users, every path starts with the segment [api], and the
    default name of the operation is getApiUsers.  With the paths /api and
    /api/users, the longest prefix the paths have in common is /api, the
    program removes /api/users/ instead, which is no part of either path,
    and the name is getApiUsers again. *)
Lemma C10_shared_segment_appears :
  Forall (fun p => Str.startsWith "/api" p = true) ["/api/users"]
  /\ getFuncationName sampleConfig (docWithPaths ["/api/users"]) (getAt "/api/users")
     = Ok (JStr "getApiUsers")
  /\ Str.includes "Api" "getApiUsers" = true
  /\ spec_longestCommonPrefix ["/api"; "/api/users"] = [""; "api"]
  /\ getBasePrefix ["/api"; "/api/users"] = "/api/users/"
  /\ getFuncationName sampleConfig (docWithPaths ["/api"; "/api/users"])
       (getAt "/api/users")
     = Ok (JStr "getApiUsers").
Proof. repeat split; try reflexivity. repeat constructor. Qed.

(** the same operation is named differently once an unrelated path joins
    the document *)
Example C10_name_depends_on_other_paths :
  getFuncationName sampleConfig (docWithPaths ["/api/users"; "/api/pets"])
    (getAt "/api/users") = Ok (JStr "getUsers")
  /\ getFuncationName sampleConfig (docWithPaths ["/api/users"; "/api/pets"; "/v2/x"])
       (getAt "/api/users") = Ok (JStr "getApiUsers").
Proof. split; reflexivity. Qed.

(** ** C9: what IR generation writes into the document *)

(** *** Reading around a write *)





Lemma nth_chars_primitive (s : string) :
  forall i, isNode (nth i (Js.chars s) JUndef) = false.
Proof.
  induction s as [|c s IH]; intros [|i]; simpl; try reflexivity. apply IH.
Qed.

Lemma get_primitive (k : string) (v : JsVal) :
  isNode v = false -> isNode (Js.getOpt k v) = false.
Proof.
  destruct v as [| |b|n| |s|l|l]; intros Hv; try reflexivity; try discriminate.
  simpl. destruct (String.eqb k "length"); [reflexivity|].
  destruct (Str.arrayIndex k) as [i|]; [|reflexivity].
  apply nth_chars_primitive.
Qed.

Lemma lookup_primitive (q : list string) :
  forall v, isNode v = false -> isNode (lookup q v) = false.
Proof.
  induction q as [|k q IH]; intros v Hv; [exact Hv|].
  simpl. apply IH. now apply get_primitive.
Qed.





(** *** Assignments *)





(** *** Computations that only read *)






(** what a sequence leaves behind, when its first part only reads *)
Lemma sbind_readsOnly_state {A B} (m : St A) (k : A -> St B) (doc : JsVal) :
  readsOnly m ->
  snd (sbind m k doc) = doc
  \/ exists a, fst (m doc) = Ok a /\ snd (sbind m k doc) = snd (k a doc).
Proof.
  intros Hm. unfold sbind. specialize (Hm doc).
  destruct (m doc) as [[a| e | |] doc1]; simpl in Hm; subst doc1; simpl; eauto.
Qed.

Section InterfaceWrites.
Context `{Platform}.
Variable config : GenerateServiceProps.


Lemma getR_getOpt (k : string) (v x : JsVal) : Js.getR k v = Ok x -> Js.getOpt k v = x.
Proof. destruct v; simpl; intros [=]; subst; reflexivity. Qed.


End InterfaceWrites.


(** *** State invariants of document computations *)










Section InterfaceFrame.
Context `{Platform}.
Variable config : GenerateServiceProps.




End InterfaceFrame.


(** *** Where a resolved reference lives in the document *)

Lemma getOpt_get (k : string) (v : JsVal) : Js.getOpt k v = Js.get k v.
Proof. destruct v; reflexivity. Qed.

Lemma getR_get (k : string) (v x : JsVal) : Js.getR k v = Ok x -> Js.get k v = x.
Proof. intros E. rewrite <- getOpt_get. now apply getR_getOpt. Qed.



(** the decimal notation of a number starts with a digit *)
Lemma pretty_N_go_head (c : ascii) (s' : string) (x : N) :
  Str.isDigit c = false ->
  forall s, s <> String c s' -> pretty_N_go x s <> String c s'.
Proof.
  intros Hc. induction (N.lt_wf_0 x) as [x _ IH]. intros s Hs.
  assert (x = 0 \/ 0 < x)%N as [->|Hx] by lia.
  - now rewrite pretty_N_go_0.
  - rewrite pretty_N_go_step by exact Hx. apply IH.
    + now apply N.div_lt.
    + intros [= <- _]. revert Hc. unfold pretty_N_char.
      repeat case_match; discriminate.
Qed.

Lemma pretty_nat_head (c : ascii) (s' : string) (i : nat) :
  Str.isDigit c = false -> pretty i <> String c s'.
Proof.
  intros Hc. unfold pretty, pretty_nat, pretty, pretty_N.
  destruct (decide (N.of_nat i = 0%N)).
  - intros [= <- _]. discriminate.
  - apply pretty_N_go_head; [exact Hc | discriminate].
Qed.

Lemma assoc_indexed_from (c : ascii) (k : string) (l : list JsVal) :
  Str.isDigit c = false ->
  forall i, Js.assoc (String c k) (Js.indexed_from i l) = None.
Proof.
  intros Hc. induction l as [|x l IH]; intros i; [reflexivity|].
  cbn [Js.indexed_from Js.assoc].
  destruct (String.eqb (String c k) (pretty i)) eqn:E; [|apply IH].
  apply String.eqb_eq in E. symmetry in E. now apply pretty_nat_head in E.
Qed.





(** *** The schema that [getResponseTP] renders is the node at its location *)




Section ResponsePlan.
Variable config : GenerateServiceProps.



End ResponsePlan.


(** *** What the stamping of [required] changes *)









(** *** Writing a node back in its place *)





Section ResponseFrame.
Context `{Platform}.
Variable config : GenerateServiceProps.



End ResponseFrame.




(** on the sample document both computations return their result, and
    the response is rendered from the envelope's data field *)
Example C9_pets_example :
  (exists types, fst (getInterfaceTP sampleConfig 8 petsDoc) = Ok types)
  /\ responsePlan envelopeConfig 8 petsDoc petsResponses
     = Ok (Some ("application/json", lookup envelopeData petsDoc, Some envelopeData))
  /\ fst (getResponseTP envelopeConfig 8 petsResponses petsDoc)
     = Ok (JObj [("mediaType", JStr "application/json");
                 ("type", JStr "{ 'id': number; 'name'?: string; }")]).
Proof.
  split; [|split].
  - eexists. vm_compute. reflexivity.
  - vm_compute. reflexivity.
  - vm_compute. reflexivity.
Qed.


(** * Further properties of the generator *)

(** ** Grouping: an empty tag list *)

Section EmptyTagList.
Context `{Platform}.
Variable config : GenerateServiceProps.

(** X1.  An operation whose tag list is the empty array is left out of every
    group: the empty array is truthy, so neither the default tags replace
    a hook's empty answer, nor do the operation id or the path stand in
    for an empty [tags] field. *)
Theorem empty_tag_list_leaves_operation_out
    (p method : string) (pathItem operationObject : JsVal) (apiData : TagAPIDataType) :
  Js.getR method pathItem = Ok operationObject ->
  Js.truthy operationObject = true ->
  (customFileNames (hook config) = None
   /\ Js.truthy (Js.get "x-swagger-router-controller" operationObject) = false
   /\ Js.get "tags" operationObject = JArr [])
  \/ (exists f, customFileNames (hook config) = Some f
                /\ f operationObject p method = JArr []) ->
  groupMethod config p pathItem apiData method = Ok apiData.
Proof.
  intros Hop Htruthy Htags. unfold groupMethod. rewrite Hop. cbn [bind].
  rewrite Htruthy. cbn [negb].
  assert (Hhook : hookCustomFileNames config operationObject p method = JArr []).
  { unfold hookCustomFileNames.
    destruct Htags as [(Hnone & Hrouter & Hlist) | (f & Hsome & Hlist)].
    - rewrite Hnone. unfold defaultGetFileTag. now rewrite Hrouter, Hlist.
    - now rewrite Hsome. }
  rewrite Hhook. reflexivity.
Qed.

End EmptyTagList.

Lemma empty_tag_list_witness :
  groupMethod sampleConfig "/pets" (lookup ["paths"; "/pets"] untaggedByListDoc) [] "get"
  = Ok []
  /\ groupOperations sampleConfig untaggedByListDoc = Ok [].
Proof.
  split; [|reflexivity].
  apply (empty_tag_list_leaves_operation_out sampleConfig "/pets" "get"
           (lookup ["paths"; "/pets"] untaggedByListDoc)
           (lookup ["paths"; "/pets"; "get"] untaggedByListDoc) []).
  - reflexivity.
  - reflexivity.
  - left. repeat split.
Defined.

(** ** Parameters: the sources that are kept, and the path variables *)

Lemma setField_keys (k k' : string) (v : JsVal) (l : list (string * JsVal)) :
  In k (map fst (Js.setField k' v l)) -> k = k' \/ In k (map fst l).
Proof.
  induction l as [|[k0 v0] l IH]; simpl.
  - intros [<- | []]. now left.
  - destruct (String.eqb k' k0) eqn:E; simpl.
    + apply String.eqb_eq in E. subst k0. intros [<- | Hin]; auto.
    + intros [<- | Hin]; [right; now left|].
      destruct (IH Hin) as [-> | Hl]; auto.
Qed.

Lemma removeField_keys (k k' : string) (l : list (string * JsVal)) :
  In k (map fst (Js.removeField k' l)) -> In k (map fst l).
Proof.
  induction l as [|[k0 v0] l IH]; simpl; [auto|].
  destruct (String.eqb k' k0); simpl; [auto|].
  intros [<- | Hin]; auto.
Qed.

Lemma addImplied_keeps (pathParams : list JsVal) (name : string) (x : JsVal) :
  In x pathParams -> In x (addImplied pathParams name).
Proof.
  unfold addImplied. destruct (existsb _ pathParams); [auto|].
  intros Hx. apply in_or_app. now left.
Qed.

Lemma isStr_eq (s : string) (v : JsVal) : Js.isStr s v = true -> v = JStr s.
Proof.
  destruct v; simpl; try discriminate. intros E. apply String.eqb_eq in E. now subst.
Qed.

Lemma addImplied_names (pathParams : list JsVal) (name : string) :
  exists param, In param (addImplied pathParams name)
                /\ Js.getOpt "name" param = JStr name.
Proof.
  unfold addImplied.
  destruct (existsb (fun p => Js.isStr name (Js.getOpt "name" p)) pathParams) eqn:E.
  - apply existsb_exists in E as (param & Hin & Hname).
    exists param. split; [exact Hin | now apply isStr_eq].
  - eexists. split; [apply in_or_app; right; now left | reflexivity].
Qed.

Lemma addImplied_all (names : list string) :
  forall (pathParams : list JsVal),
    (forall x, In x pathParams -> In x (fold_left addImplied names pathParams))
    /\ forall name, In name names ->
         exists param, In param (fold_left addImplied names pathParams)
                       /\ Js.getOpt "name" param = JStr name.
Proof.
  induction names as [|n names IH]; intros pathParams; simpl.
  - split; [auto | intros name []].
  - destruct (IH (addImplied pathParams n)) as (Hkeeps & Hnames). split.
    + intros x Hx. now apply Hkeeps, addImplied_keeps.
    + intros name [<- | Hin]; [|now apply Hnames].
      destruct (addImplied_names pathParams n) as (param & Hparam & Hname).
      exists param. split; [now apply Hkeeps | exact Hname].
Qed.

Lemma setField_entries (k k' : string) (g v : JsVal) (l : list (string * JsVal)) :
  In (k, g) (Js.setField k' v l) -> (k, g) = (k', v) \/ In (k, g) l.
Proof.
  induction l as [|[k0 v0] l IH]; simpl.
  - intros [E | []]. now left.
  - destruct (String.eqb k' k0) eqn:E; simpl.
    + intros [E' | Hin]; auto.
    + intros [E' | Hin]; [right; now left|].
      destruct (IH Hin) as [E' | Hl]; auto.
Qed.

Lemma removeField_entries (kv : string * JsVal) (k' : string) (l : list (string * JsVal)) :
  In kv (Js.removeField k' l) -> In kv l.
Proof.
  induction l as [|[k0 v0] l IH]; simpl; [auto|].
  destruct (String.eqb k' k0); simpl; [auto|].
  intros [<- | Hin]; auto.
Qed.

Lemma assoc_In (k : string) (v : JsVal) (l : list (string * JsVal)) :
  Js.assoc k l = Some v -> In (k, v) l.
Proof.
  induction l as [|[k0 v0] l IH]; simpl; [discriminate|].
  destruct (String.eqb k k0) eqn:E.
  - apply String.eqb_eq in E. subst k0. intros E. injection E as ->. now left.
  - intros Hv. right. now apply IH.
Qed.

Lemma filterR_kept {A} (f : A -> Res bool) (l kept : list A) :
  filterR f l = Ok kept -> forall x, In x kept -> f x = Ok true.
Proof.
  revert kept. induction l as [|a l IH]; intros kept E x Hx; simpl in E.
  - injection E as <-. destruct Hx.
  - apply bind_Ok_inv in E as (keep & Hkeep & E).
    apply bind_Ok_inv in E as (rest & Hrest & E). injection E as <-.
    destruct keep; [destruct Hx as [<- | Hx]; [exact Hkeep|]|]; eapply IH; eauto.
Qed.

Lemma mapR_image {A B} (f : A -> Res B) (l : list A) (r : list B) :
  mapR f l = Ok r -> forall y, In y r -> exists x, In x l /\ f x = Ok y.
Proof.
  revert r. induction l as [|a l IH]; intros r E y Hy; simpl in E.
  - injection E as <-. destruct Hy.
  - apply bind_Ok_inv in E as (b & Hb & E).
    apply bind_Ok_inv in E as (bs & Hbs & E). injection E as <-.
    destruct Hy as [<- | Hy].
    + exists a. split; [now left | exact Hb].
    + destruct (IH bs Hbs y Hy) as (x & Hx & Hfx). exists x. split; [now right | exact Hfx].
Qed.

Section ParameterSources.
Context `{Platform}.
Variable config : GenerateServiceProps.
Variable openAPIData : JsVal.

Lemma filedBy_setField (sources : list string) (k : string) (params : list JsVal)
    (templateParams : list (string * JsVal)) :
  In k sources ->
  (forall param, In param params -> Js.get "in" param = JStr k) ->
  filedBy sources templateParams ->
  filedBy sources (Js.setField k (JArr params) templateParams).
Proof.
  intros Hk Hparams Hold k' group Hin.
  apply setField_entries in Hin as [E | Hin]; [|now apply Hold].
  injection E as -> ->. split; [exact Hk|]. now exists params.
Qed.

Lemma describeParam_in (fuel : nat) (p d : JsVal) :
  describeParam config openAPIData fuel p = Ok d ->
  Js.get "in" d = Js.get "in" (JObj (Js.ownProps p)).
Proof.
  unfold describeParam. intros E.
  apply bind_Ok_inv in E as (refStr & _ & E).
  apply bind_Ok_inv in E as (type & _ & E).
  injection E as <-. cbn [Js.setFields fold_left fst snd].
  now rewrite !get_setField.
Qed.

Lemma paramsOfSource_filed (fuel : nat) (parameters : list JsVal) (sources : list string)
    (templateParams templateParams' : list (string * JsVal)) (source : string) :
  In source sources ->
  paramsOfSource config openAPIData fuel parameters templateParams source
    = Ok templateParams' ->
  filedBy sources templateParams ->
  filedBy sources templateParams'.
Proof.
  intros Hsource E Hold. unfold paramsOfSource in E.
  apply bind_Ok_inv in E as (resolved & _ & E).
  apply bind_Ok_inv in E as (located & Hlocated & E).
  apply bind_Ok_inv in E as (params & Hparams & E).
  destruct params as [|d params]; injection E as <-; [exact Hold|].
  apply filedBy_setField; [exact Hsource| |exact Hold].
  intros param Hparam.
  destruct (mapR_image _ _ _ Hparams param Hparam) as (p & Hp & Hd).
  rewrite (describeParam_in _ _ _ Hd).
  pose proof (filterR_kept _ _ _ Hlocated p Hp) as Hin.
  apply bind_Ok_inv in Hin as (i & Hi & Hin). injection Hin as Hin.
  apply isStr_eq in Hin. subst i.
  destruct p; try discriminate Hi; injection Hi as Hi; cbn [Js.ownProps];
    try exact Hi.
  all: cbn [Js.get] in Hi; destruct (String.eqb "in" "length"); try discriminate Hi;
    destruct (Str.arrayIndex "in"); discriminate Hi.
Qed.

(** X2.  The parameter groups [getParamsTP] returns are named [query], [path]
    or [cookie], each group is a list, and every parameter filed in a group
    has the group's name as its [in]: a header parameter is in no group. *)
Theorem getParamsTP_groups_are_query_path_cookie
    (fuel : nat) (parameters path : JsVal) (templateParams : list (string * JsVal)) :
  getParamsTP config openAPIData fuel parameters path = Ok templateParams ->
  forall k group,
    In (k, group) templateParams ->
    In k ["query"; "path"; "cookie"]
    /\ exists params,
         group = JArr params
         /\ forall param,
              In param params ->
              Js.get "in" param = JStr k /\ Js.get "in" param <> JStr "header".
Proof.
  intros E.
  assert (Hfiled : filedBy ["query"; "path"; "cookie"] templateParams).
  { unfold getParamsTP in E.
    apply bind_Ok_inv in E as (grouped & Hgrouped & E).
    assert (Hgood : filedBy ["query"; "path"; "cookie"] grouped).
    { destruct (Js.truthy _ && Js.truthy _) in Hgrouped;
        [|injection Hgrouped as <-; intros k group []].
      apply bind_Ok_inv in Hgrouped as (l & _ & Hfold).
      assert (Hstep : forall sources s,
                 (forall x, In x sources -> In x ["query"; "path"; "cookie"]) ->
                 forall s', foldR (paramsOfSource config openAPIData fuel l) sources s = Ok s' ->
                 filedBy ["query"; "path"; "cookie"] s ->
                 filedBy ["query"; "path"; "cookie"] s').
      { induction sources as [|x sources IH]; intros s Hsub s' Hs Hk; simpl in Hs.
        - now injection Hs as <-.
        - apply bind_Ok_inv in Hs as (s1 & H1 & Hs).
          apply (IH s1); [intros y Hy; apply Hsub; now right | exact Hs|].
          eapply paramsOfSource_filed; [apply Hsub; now left | exact H1 | exact Hk]. }
      apply (Hstep _ [] (fun x Hx => Hx) _ Hfold). intros k group []. }
    destruct (Js.truthy path && _); [|now injection E as <-].
    apply bind_Ok_inv in E as (declared & Hdeclared & E).
    assert (Hdecl : forall param, In param declared -> Js.get "in" param = JStr "path").
    { destruct (Js.assoc "path" grouped) as [v|] eqn:Hv.
      - apply assoc_In in Hv. destruct (Hgood _ _ Hv) as (_ & params & -> & Hparams).
        cbn in Hdeclared. injection Hdeclared as <-. exact Hparams.
      - cbn in Hdeclared. injection Hdeclared as <-. intros param []. }
    assert (Hall : forall names pathParams,
               (forall param, In param pathParams -> Js.get "in" param = JStr "path") ->
               forall param, In param (fold_left addImplied names pathParams) ->
                             Js.get "in" param = JStr "path").
    { induction names as [|n names IH]; intros pathParams Hp; simpl; [exact Hp|].
      apply IH. intros param. unfold addImplied.
      destruct (existsb _ pathParams); [apply Hp|].
      intros Hin. apply in_app_or in Hin as [Hin | [<- | []]]; [now apply Hp | reflexivity]. }
    specialize (Hall (Str.braceTokens (Js.toStr path)) declared Hdecl).
    destruct (fold_left addImplied _ declared) as [|x pathParams];
      injection E as <-.
    - intros k group Hin. apply Hgood. now apply removeField_entries in Hin.
    - apply filedBy_setField; [right; now left | exact Hall | exact Hgood]. }
  intros k group Hin. destruct (Hfiled k group Hin) as (Hk & params & -> & Hparams).
  split; [exact Hk|]. exists params. split; [reflexivity|].
  intros param Hparam. rewrite (Hparams param Hparam). split; [reflexivity|].
  intros E'. injection E' as ->.
  cbn [In] in Hk. destruct Hk as [? | [? | [? | []]]]; discriminate.
Qed.

(** X3.  Every variable [{name}] of the path has a path parameter of that
    name in the result, declared or not. *)
Theorem getParamsTP_names_every_path_variable
    (fuel : nat) (parameters : JsVal) (path : string)
    (templateParams : list (string * JsVal)) (name : string) :
  getParamsTP config openAPIData fuel parameters (JStr path) = Ok templateParams ->
  In name (Str.braceTokens path) ->
  exists pathParams param,
    Js.assoc "path" templateParams = Some (JArr pathParams)
    /\ In param pathParams
    /\ Js.getOpt "name" param = JStr name.
Proof.
  unfold getParamsTP. intros E Hname.
  apply bind_Ok_inv in E as (grouped & _ & E).
  assert (Hpath : Js.truthy (JStr path)
                  && match Js.get "length" (JStr path) with
                     | JNum n => (0 <? n)%Z
                     | _ => false
                     end = true).
  { destruct path as [|c path]; [destruct Hname|]. reflexivity. }
  rewrite Hpath in E.
  apply bind_Ok_inv in E as (declared & _ & E).
  cbn [Js.toStr] in E.
  destruct (addImplied_all (Str.braceTokens path) declared) as (_ & Hnames).
  destruct (Hnames name Hname) as (param & Hparam & Hfield).
  destruct (fold_left addImplied (Str.braceTokens path) declared) as [|x l] eqn:Hfold;
    [destruct Hparam|].
  injection E as <-. exists (x :: l), param.
  rewrite assoc_setField. repeat split; assumption.
Qed.

End ParameterSources.

Lemma getParamsTP_groups_witness :
  exists templateParams,
    getParamsTP sampleConfig petsDoc 8 ownerParameters (JStr "/owners/{ownerId}/pets")
    = Ok templateParams
    /\ map fst templateParams = ["query"; "path"]
    /\ forall k group,
         In (k, group) templateParams ->
         In k ["query"; "path"; "cookie"]
         /\ exists params,
              group = JArr params
              /\ forall param,
                   In param params ->
                   Js.get "in" param = JStr k /\ Js.get "in" param <> JStr "header".
Proof.
  destruct (getParamsTP sampleConfig petsDoc 8 ownerParameters
              (JStr "/owners/{ownerId}/pets")) as [templateParams| | |] eqn:E;
    try (vm_compute in E; discriminate).
  exists templateParams. split; [reflexivity|]. split.
  - vm_compute in E. injection E as <-. reflexivity.
  - exact (getParamsTP_groups_are_query_path_cookie sampleConfig petsDoc 8
             ownerParameters (JStr "/owners/{ownerId}/pets") templateParams E).
Defined.

Lemma getParamsTP_path_variable_witness :
  exists templateParams,
    getParamsTP sampleConfig petsDoc 8 ownerParameters (JStr "/owners/{ownerId}/pets")
    = Ok templateParams
    /\ exists pathParams param,
         Js.assoc "path" templateParams = Some (JArr pathParams)
         /\ In param pathParams
         /\ Js.getOpt "name" param = JStr "ownerId".
Proof.
  destruct (getParamsTP sampleConfig petsDoc 8 ownerParameters
              (JStr "/owners/{ownerId}/pets")) as [templateParams| | |] eqn:E;
    try (vm_compute in E; discriminate).
  exists templateParams. split; [reflexivity|].
  apply (getParamsTP_names_every_path_variable sampleConfig petsDoc 8
           ownerParameters "/owners/{ownerId}/pets" templateParams "ownerId" E).
  left. reflexivity.
Defined.

(** ** Descriptors: the path in the comment, and the literal prefix *)

Lemma includes_star (s : string) :
  Str.includes "*" s = Str.existsChar (Ascii.eqb "*") s.
Proof.
  induction s as [|c s IH]; [reflexivity|].
  cbn [Str.includes Str.existsChar]. rewrite IH. f_equal.
  change (String.prefix "*" (String c s))
    with (if ascii_dec "*" c then String.prefix "" s else false).
  destruct (ascii_dec "*" c) as [<- | Hne].
  - now destruct s.
  - symmetry. now apply Ascii.eqb_neq.
Qed.

Lemma existsChar_append (p : ascii -> bool) (a b : string) :
  Str.existsChar p (a +:+ b) = Str.existsChar p a || Str.existsChar p b.
Proof.
  induction a as [|c a IH]; [reflexivity|].
  rewrite append_cons. cbn [Str.existsChar]. now rewrite IH, orb_assoc.
Qed.

Lemma escapeStars_no_star (s : string) : Str.includes "*" (Str.escapeStars s) = false.
Proof.
  rewrite includes_star. induction s as [|c s IH]; [reflexivity|].
  cbn [Str.escapeStars]. destruct (Ascii.eqb c "*") eqn:E.
  - rewrite existsChar_append, IH. reflexivity.
  - cbn [Str.existsChar]. rewrite IH, Ascii.eqb_sym, E. reflexivity.
Qed.

Section Descriptor.
Context `{Platform}.
Variable config : GenerateServiceProps.
Variable openAPIData : JsVal.

(** X4.  The [pathInComment] of a descriptor holds no asterisk, whatever the
    path of the operation: the comment it is written into cannot be
    closed by the path. *)
Theorem pathInComment_has_no_asterisk
    (fuel : nat) (tag : string) (st st' : TagState) (api d : JsVal) :
  describeOperation config openAPIData fuel tag st api = Ok (d, st') ->
  exists s, Js.get "pathInComment" d = JStr s /\ Str.includes "*" s = false.
Proof.
  unfold describeOperation. intros E.
  apply bind_Ok_inv in E as (allParams & _ & E).
  apply bind_Ok_inv in E as (body & _ & E).
  apply bind_Ok_inv in E as (file & _ & E).
  apply bind_Ok_inv in E as (formData & _ & E).
  apply bind_Ok_inv in E as (name & _ & E).
  apply bind_Ok_inv in E as ([functionName rd] & _ & E).
  apply bind_Ok_inv in E as (path & _ & E).
  match type of E with
  | context [if Js.truthy ?b then _ else _] => destruct (Js.truthy b)
  end.
  all: apply bind_Ok_inv in E as (formattedPath & _ & E).
  all: apply bind_Ok_inv in E as (pathParams & _ & E).
  all: apply bind_Ok_inv in E as (finalParams & _ & E).
  all: apply bind_Ok_inv in E as (typeName & _ & E).
  all: injection E as <- <-.
  all: eexists; split;
    [cbn [Js.setFields fold_left fst snd]; rewrite !get_setField; cbn; reflexivity
    | apply escapeStars_no_star].
Qed.

End Descriptor.

Lemma pathInComment_witness :
  exists d st,
    describeOperation sampleConfig (docWithPaths ["/files/*/{id}"]) 8 "files"
      {| tmpFunctionRD := ∅; mappings := [] |} starApi = Ok (d, st)
    /\ Js.get "pathInComment" d = JStr "/files/&#42;/${param0}"
    /\ exists s, Js.get "pathInComment" d = JStr s /\ Str.includes "*" s = false.
Proof.
  destruct (describeOperation sampleConfig (docWithPaths ["/files/*/{id}"]) 8 "files"
              {| tmpFunctionRD := ∅; mappings := [] |} starApi) as [[d st]| | |] eqn:E;
    try (vm_compute in E; discriminate).
  exists d, st. split; [reflexivity|]. split.
  - vm_compute in E. injection E as <- _. reflexivity.
  - exact (pathInComment_has_no_asterisk sampleConfig (docWithPaths ["/files/*/{id}"])
             8 "files" _ st starApi d E).
Defined.

Section LiteralPrefix.
Context `{Platform}.
Variable config : GenerateServiceProps.

(** X5.  A prefix given as a quoted literal is put in front of a path at most
    once: the final path starts with the literal (or with a slash and the
    literal), and a path that already does is returned as it is, so the
    final path of a final path is itself. *)
Theorem literal_prefix_is_added_once
    (given : string) (tag : string) (newApi functionName : JsVal) (formattedPath : string) :
  apiPrefix config = ApiPrefixString given ->
  Str.trim given <> "" ->
  isQuoted (Str.trim given) = true ->
  let literal :=
    Str.take (String.length (Str.trim given) - 2) (Str.drop 1 (Str.trim given)) in
  let final := getPrefixPath config tag newApi functionName formattedPath in
  (String.prefix literal final || String.prefix ("/" +:+ literal) final = true)
  /\ getPrefixPath config tag newApi functionName final = final.
Proof.
  intros Hgiven Hne Hquoted literal final.
  assert (Hunfold : forall path,
             getPrefixPath config tag newApi functionName path
             = if String.prefix literal path || String.prefix ("/" +:+ literal) path
               then path else literal +:+ path).
  { intros path. unfold getPrefixPath. rewrite Hgiven.
    destruct given as [|c given]; [now contradiction Hne|].
    fold literal. apply String.eqb_neq in Hne. rewrite Hne.
    unfold isQuoted in Hquoted. now rewrite Hquoted. }
  assert (Hfinal : String.prefix literal final
                   || String.prefix ("/" +:+ literal) final = true).
  { unfold final. rewrite Hunfold.
    destruct (String.prefix literal formattedPath
              || String.prefix ("/" +:+ literal) formattedPath) eqn:E; [exact E|].
    now rewrite prefix_append. }
  split; [exact Hfinal|]. now rewrite Hunfold, Hfinal.
Qed.

End LiteralPrefix.

Lemma literal_prefix_witness :
  getPrefixPath literalPrefixConfig "pets" (JObj []) (JStr "listPets") "/pets" = "/api/pets"
  /\ getPrefixPath literalPrefixConfig "pets" (JObj []) (JStr "listPets") "/api/pets"
     = "/api/pets".
Proof.
  split; [reflexivity|].
  exact (proj2 (literal_prefix_is_added_once literalPrefixConfig "'/api'" "pets"
                  (JObj []) (JStr "listPets") "/pets" eq_refl
                  ltac:(discriminate) eq_refl)).
Defined.

(** ** Services: no empty file, and the index lists the files *)

Section Services.
Context `{Platform}.
Variable config : GenerateServiceProps.
Variable openAPIData : JsVal.

(** X6.  Every service [getServiceTP] returns has at least one operation, and
    [classNameList], from which the index file is written, gains exactly
    the returned services, in their order; on a new generator, where the
    list starts empty, it lists exactly them: a tag whose operations are
    all dropped gets neither a file nor an entry in the index. *)
Theorem services_are_not_empty_and_indexed
    (fuel : nat) (apiData : TagAPIDataType) (maps classNames : list JsVal)
    (out : ServiceOutput) :
  getServiceTP config openAPIData fuel apiData maps classNames = Ok out ->
  Forall (fun tp => list_ tp <> []) (services out)
  /\ classNameList out = classNames ++ map controllerOf (services out).
Proof.
  unfold getServiceTP. intros E.
  apply bind_Ok_inv in E as ([out' index] & Hfold & E). injection E as <-.
  set (good := fun acc : ServiceOutput * nat =>
         Forall (fun tp => list_ tp <> []) (services (fst acc))
         /\ classNameList (fst acc) = classNames ++ map controllerOf (services (fst acc))).
  change (good (out', index)).
  eapply (foldR_invariant (serviceOfTag config openAPIData fuel) good); [|exact Hfold|].
  - intros [o i] [tag apis] acc' Hstep (Hne & Hindex). unfold serviceOfTag in Hstep.
    apply bind_Ok_inv in Hstep as ([genParams maps'] & _ & Hstep).
    injection Hstep as <-. unfold good. cbn [fst services classNameList] in *.
    destruct genParams as [|d ds]; [split; assumption|]. split.
    + apply Forall_app. split; [exact Hne|]. constructor; [discriminate | constructor].
    + rewrite map_app, Hindex, <- app_assoc. reflexivity.
  - split; [constructor | now rewrite app_nil_r].
Qed.

End Services.

Lemma services_witness :
  exists out,
    getServiceTP sampleConfig (docWithPaths ["/pets"]) 8 draftApiData [] [] = Ok out
    /\ map className (services out) = [JStr "pets"]
    /\ Forall (fun tp => list_ tp <> []) (services out)
    /\ classNameList out = map controllerOf (services out).
Proof.
  destruct (getServiceTP sampleConfig (docWithPaths ["/pets"]) 8 draftApiData [] [])
    as [out| | |] eqn:E; try (vm_compute in E; discriminate).
  exists out. split; [reflexivity|]. split.
  - vm_compute in E. injection E as <-. reflexivity.
  - exact (services_are_not_empty_and_indexed sampleConfig (docWithPaths ["/pets"]) 8
             draftApiData [] [] out E).
Defined.

(** ** Type declarations: documents without named schemas, and the order *)

Lemma sbind_Ok_inv {A B} (m : St A) (k : A -> St B) (doc : JsVal) (b : B) :
  fst (sbind m k doc) = Ok b ->
  exists a doc', m doc = (Ok a, doc') /\ fst (k a doc') = Ok b.
Proof.
  unfold sbind. destruct (m doc) as [[a| e | |] doc']; simpl; try discriminate. eauto.
Qed.

Lemma foldS_value {A S} (f : S -> A -> St S) (Q : S -> Prop) :
  (forall s x doc s', Q s -> fst (f s x doc) = Ok s' -> Q s') ->
  forall l s doc s', Q s -> fst (foldS f l s doc) = Ok s' -> Q s'.
Proof.
  intros Hstep. induction l as [|x l IH]; intros s doc s' Hs E; cbn [foldS] in E.
  - injection E as <-. exact Hs.
  - apply sbind_Ok_inv in E as (s1 & doc1 & H1 & E).
    apply (IH s1 doc1 s'); [|exact E].
    apply (Hstep s x doc s1 Hs). now rewrite H1.
Qed.

Section InterfaceList.
Context `{Platform}.
Variable config : GenerateServiceProps.

Lemma interfaceMethod_falsy (fuel : nat) (p method : string) (data : JsVal) (doc : JsVal)
    (v : JsVal) :
  Js.truthy data = false ->
  fst (interfaceMethod config fuel p data method doc) = Ok v -> v = data.
Proof.
  intros Hdata E. unfold interfaceMethod in E.
  apply sbind_Ok_inv in E as (pathItem & doc1 & _ & E).
  apply sbind_Ok_inv in E as (operationObject & doc2 & _ & E).
  destruct (negb (Js.truthy operationObject)); [now injection E|].
  apply sbind_Ok_inv in E as (kept & doc3 & _ & E).
  apply sbind_Ok_inv in E as ([] & doc4 & _ & E).
  unfold interfaceEntry in E.
  apply sbind_Ok_inv in E as (op & doc5 & _ & E).
  apply sbind_Ok_inv in E as (own & doc6 & _ & E).
  apply sbind_Ok_inv in E as (shared & doc7 & _ & E).
  rewrite Hdata in E. destruct (own ++ shared); now injection E.
Qed.

(** X7.  In a document without [components], or without [components.schemas],
    [getInterfaceTP] returns that missing value and never a list of types:
    the Params types of the operations are built only to be added to the
    list of named schemas. *)
Theorem no_named_schemas_no_type_list (fuel : nat) (doc v : JsVal) :
  Js.truthy (Js.and (Js.get "components" doc)
                    (Js.get "schemas" (Js.get "components" doc))) = false ->
  fst (getInterfaceTP config fuel doc) = Ok v ->
  v = Js.and (Js.get "components" doc) (Js.get "schemas" (Js.get "components" doc))
  /\ Js.truthy v = false.
Proof.
  intros Hmissing E.
  set (missing := Js.and (Js.get "components" doc)
                         (Js.get "schemas" (Js.get "components" doc))) in *.
  enough (v = missing) as -> by (split; [reflexivity | exact Hmissing]).
  unfold getInterfaceTP in E.
  apply sbind_Ok_inv in E as (openAPIData & doc1 & Hdoc & E).
  injection Hdoc as <- <-.
  apply sbind_Ok_inv in E as (data & doc1 & Hdata & E).
  injection Hdata as Hdata <-.
  assert (Hmiss : data = missing).
  { unfold interfaceDefines in Hdata.
    apply bind_Ok_inv in Hdata as (components & Hcomponents & Hdata).
    apply getR_get in Hcomponents. subst components.
    unfold missing, Js.and in *.
    destruct (Js.truthy (Js.get "components" doc)); cbn [negb] in Hdata;
      [|now injection Hdata].
    rewrite Hmissing in Hdata. now injection Hdata. }
  subst data.
  apply sbind_Ok_inv in E as (paths & doc2 & _ & E).
  apply sbind_Ok_inv in E as (ps & doc3 & _ & E).
  apply sbind_Ok_inv in E as (data & doc4 & Hfold & E).
  assert (Hstays : data = missing).
  { apply (foldS_value (interfacePath config fuel) (fun d => d = missing)) with
      (l := ps) (s := missing) (doc := doc3); [|reflexivity | now rewrite Hfold].
    intros s p cur s' -> Hpath. unfold interfacePath in Hpath.
    apply (foldS_value (interfaceMethod config fuel p) (fun d => d = missing)) with
      (l := methods) (s := missing) (doc := cur); [|reflexivity | exact Hpath].
    intros s m cur' s'' -> Hmethod.
    now apply interfaceMethod_falsy in Hmethod. }
  subst data. rewrite Hmissing in E. now injection E.
Qed.

End InterfaceList.

Lemma no_named_schemas_witness :
  fst (getInterfaceTP sampleConfig 8 noComponentsDoc) = Ok JUndef
  /\ (JUndef = Js.and (Js.get "components" noComponentsDoc)
                      (Js.get "schemas" (Js.get "components" noComponentsDoc))
      /\ Js.truthy JUndef = false).
Proof.
  split; [reflexivity|].
  exact (no_named_schemas_no_type_list sampleConfig 8 noComponentsDoc JUndef
           eq_refl eq_refl).
Defined.

Section InterfaceOrder.
Context `{Platform}.
Variable config : GenerateServiceProps.

(** X8.  When the comparison of the host orders strings, the list of types
    [getInterfaceTP] returns is sorted by type name: of two entries the
    earlier one's [typeName] compares less than or equal to the later
    one's. *)
Theorem interface_types_sorted_by_typeName (fuel : nat) (doc : JsVal) (types : list JsVal) :
  (forall a b, (localeCompare a b <= 0)%Z \/ (localeCompare b a <= 0)%Z) ->
  (forall a b c, (localeCompare a b <= 0)%Z -> (localeCompare b c <= 0)%Z ->
                 (localeCompare a c <= 0)%Z) ->
  fst (getInterfaceTP config fuel doc) = Ok (JArr types) ->
  forall i j a b, (i < j)%nat ->
    types !! i = Some a -> types !! j = Some b ->
    (localeCompare (Js.toStr (Js.get "typeName" a)) (Js.toStr (Js.get "typeName" b)) <= 0)%Z.
Proof.
  intros Htotal Htrans E. unfold getInterfaceTP in E.
  apply sbind_Ok_inv in E as (openAPIData & doc1 & _ & E).
  apply sbind_Ok_inv in E as (data & doc2 & _ & E).
  apply sbind_Ok_inv in E as (paths & doc3 & _ & E).
  apply sbind_Ok_inv in E as (ps & doc4 & _ & E).
  apply sbind_Ok_inv in E as (data' & doc5 & _ & E).
  destruct (Js.truthy data') eqn:Htruthy.
  2: { injection E as ->. discriminate Htruthy. }
  apply sbind_Ok_inv in E as (lists & doc6 & _ & E).
  apply sbind_Ok_inv in E as (all & doc7 & _ & E).
  injection E as <-.
  apply (StronglySorted_lookup (fun a b => (compareTypeName a b <= 0)%Z)).
  apply sortBy_sorted.
  - intros a b. apply Htotal.
  - intros a b c. apply Htrans.
Qed.

End InterfaceOrder.

Lemma interface_types_sorted_witness :
  exists types,
    fst (getInterfaceTP sampleConfig 8 petsDoc) = Ok (JArr types)
    /\ map (Js.get "typeName") types = [JStr "Envelope"; JStr "listPetsParams"]
    /\ forall i j a b, (i < j)%nat ->
         types !! i = Some a -> types !! j = Some b ->
         (compareCodeUnits (Js.toStr (Js.get "typeName" a))
                           (Js.toStr (Js.get "typeName" b)) <= 0)%Z.
Proof.
  destruct (fst (getInterfaceTP sampleConfig 8 petsDoc)) as [[| | | | | |types|]| | |] eqn:E;
    try (vm_compute in E; discriminate).
  exists types. split; [reflexivity|]. split.
  - vm_compute in E. injection E as <-. reflexivity.
  - exact (interface_types_sorted_by_typeName sampleConfig 8 petsDoc types
             compareCodeUnits_total compareCodeUnits_trans E).
Defined.

(** ** Responses: the statuses that are read *)

Section ResponseStatuses.
Context `{Platform}.
Variable config : GenerateServiceProps.

(** X9.  [getResponseTP] reads the entries [default], [200] and [201] of the
    responses and no other: when none of the three is there, the response
    type is [any] with the media type [*/*], and the document is left as
    it is, whatever the other statuses declare. *)
Theorem response_without_default_200_201_is_any (fuel : nat) (loc : list string)
    (doc : JsVal) :
  Js.truthy (Js.get "default" (lookup loc doc)) = false ->
  Js.truthy (Js.get "200" (lookup loc doc)) = false ->
  Js.truthy (Js.get "201" (lookup loc doc)) = false ->
  getResponseTP config fuel loc doc = (Ok defaultResponse, doc).
Proof.
  intros Hdefault H200 H201.
  assert (Hplan : responsePlan config fuel doc loc = Ok None).
  { unfold responsePlan. cbv zeta.
    assert (Hget : forall k,
               Js.get k match lookup loc doc with JUndef => JObj [] | r => r end
               = Js.get k (lookup loc doc)) by (intros k; now destruct (lookup loc doc)).
    destruct (negb (Js.truthy _)); [reflexivity|].
    unfold pickResponse. rewrite !Hget, Hdefault, H200. cbn [fst snd].
    rewrite resolveRefObject_unfold, H201. cbn [negb orb bind]. now rewrite H201. }
  unfold getResponseTP, sbind, getDoc, lift. now rewrite Hplan.
Qed.

End ResponseStatuses.

Lemma response_statuses_witness :
  getResponseTP sampleConfig 8 ["paths"; "/pets/{id}"; "delete"; "responses"] noContentDoc
  = (Ok (JObj [("mediaType", JStr "*/*"); ("type", JStr "any")]), noContentDoc).
Proof.
  exact (response_without_default_200_201_is_any sampleConfig 8
           ["paths"; "/pets/{id}"; "delete"; "responses"] noContentDoc
           eq_refl eq_refl eq_refl).
Defined.


(** ** Names: what [resolveTypeName] lets through *)

Lemma prefix_existsChar (x : ascii) (p : string) :
  forall t, String.prefix p t = true ->
    Str.existsChar (Ascii.eqb x) p = true -> Str.existsChar (Ascii.eqb x) t = true.
Proof.
  induction p as [|a p IH]; intros t Hp Hx; [discriminate|].
  destruct t as [|b t]; [discriminate|].
  rewrite prefix_cons in Hp. apply andb_true_iff in Hp as (Hab & Hp).
  apply Ascii.eqb_eq in Hab. subst b.
  cbn [Str.existsChar] in *. apply orb_true_iff in Hx as [Hx | Hx].
  - now rewrite Hx.
  - rewrite (IH t Hp Hx). apply orb_true_r.
Qed.

Lemma without_cons (x c : ascii) (s : string) :
  without x (String c s) = true -> Ascii.eqb x c = false /\ without x s = true.
Proof.
  unfold without. cbn [Str.existsChar]. rewrite negb_orb. intros E.
  apply andb_true_iff in E as (Hc & Hs). split; [now apply negb_true_iff | exact Hs].
Qed.

Lemma prefix_without (x : ascii) (p t : string) :
  Str.existsChar (Ascii.eqb x) p = true -> without x t = true -> String.prefix p t = false.
Proof.
  intros Hp Ht. destruct (String.prefix p t) eqn:E; [|reflexivity].
  unfold without in Ht. now rewrite (prefix_existsChar x p t E Hp) in Ht.
Qed.

(** a separator that cannot occur leaves the string in one piece *)
Lemma split_aux_without (x : ascii) (sep : string) (s : string) :
  Str.existsChar (Ascii.eqb x) sep = true ->
  without x s = true ->
  forall cur, Str.split_aux sep 0 cur s = [cur +:+ s].
Proof.
  intros Hsep. induction s as [|c s IH]; intros Hs cur.
  - simpl. now rewrite append_nil_r.
  - cbn [Str.split_aux]. rewrite (prefix_without x sep (String c s) Hsep Hs).
    apply without_cons in Hs as (_ & Hs). rewrite (IH Hs). now rewrite append_assoc.
Qed.

Lemma split_without (x : ascii) (sep s : string) :
  Str.existsChar (Ascii.eqb x) sep = true -> without x s = true -> Str.split sep s = [s].
Proof. intros Hsep Hs. unfold Str.split. now rewrite (split_aux_without x). Qed.

Lemma matchNested_without (s : string) :
  without "[" s = true -> Str.matchNested s = None.
Proof.
  induction s as [|c s IH]; intros Hs; [reflexivity|].
  cbn [Str.matchNested]. rewrite (prefix_without "[" "[[" (String c s) eq_refl Hs).
  apply without_cons in Hs as (_ & Hs). now apply IH.
Qed.

Lemma existsChar_drop (p : ascii -> bool) (n : nat) :
  forall s, Str.existsChar p (Str.drop n s) = true -> Str.existsChar p s = true.
Proof.
  induction n as [|n IH]; intros s E; [exact E|].
  destruct s as [|c s]; [discriminate|]. cbn [Str.drop] in E.
  cbn [Str.existsChar]. rewrite (IH s E). apply orb_true_r.
Qed.

Lemma endsWith_without (s : string) : without "[" s = true -> Str.endsWith "[]" s = false.
Proof.
  intros Hs. unfold Str.endsWith.
  destruct (String.eqb (Str.drop (String.length s - String.length "[]") s) "[]") eqn:E;
    [|apply andb_false_r].
  apply String.eqb_eq in E. unfold without in Hs.
  rewrite (existsChar_drop (Ascii.eqb "[") (String.length s - String.length "[]") s) in Hs;
    [discriminate | now rewrite E].
Qed.

(** the pieces of a split hold no code unit the string does not hold *)
Lemma split_aux_chars (p : ascii -> bool) (sep : string) (s : string) :
  forall skip cur piece,
    In piece (Str.split_aux sep skip cur s) ->
    Str.existsChar p piece = true ->
    Str.existsChar p cur = true \/ Str.existsChar p s = true.
Proof.
  induction s as [|c s IH]; intros skip cur piece Hin Hp.
  - destruct Hin as [<- | []]. now left.
  - cbn [Str.split_aux] in Hin. cbn [Str.existsChar].
    destruct skip as [|k].
    + destruct (String.prefix sep (String c s)).
      * destruct Hin as [<- | Hin]; [now left|].
        destruct (IH _ _ _ Hin Hp) as [Hcur | Hs]; [discriminate|].
        right. rewrite Hs. apply orb_true_r.
      * destruct (IH _ _ _ Hin Hp) as [Hcur | Hs].
        -- rewrite existsChar_append in Hcur. cbn [Str.existsChar] in Hcur.
           rewrite orb_false_r in Hcur. apply orb_true_iff in Hcur as [Hcur | Hc];
             [now left | right; now rewrite Hc].
        -- right. rewrite Hs. apply orb_true_r.
    + destruct (IH _ _ _ Hin Hp) as [Hcur | Hs]; [now left|].
      right. rewrite Hs. apply orb_true_r.
Qed.

Lemma last_In (l : list string) : l <> [] -> In (Str.last l) l.
Proof.
  unfold Str.last. induction l as [|x l IH]; intros Hne; [contradiction|].
  destruct l as [|y l]; [now left|]. right. apply IH. discriminate.
Qed.

Lemma split_aux_not_nil (sep : string) (s : string) :
  forall skip cur, Str.split_aux sep skip cur s <> [].
Proof.
  induction s as [|c s IH]; intros skip cur; [discriminate|].
  cbn [Str.split_aux]. destruct skip; [|apply IH].
  destruct (String.prefix sep (String c s)); [discriminate | apply IH].
Qed.

Lemma last_split_without (x : ascii) (sep s : string) :
  without x s = true -> without x (Str.last (Str.split sep s)) = true.
Proof.
  intros Hs. unfold without in *. apply negb_true_iff. apply negb_true_iff in Hs.
  destruct (Str.existsChar (Ascii.eqb x) (Str.last (Str.split sep s))) eqn:E;
    [|reflexivity].
  destruct (split_aux_chars (Ascii.eqb x) sep s 0 "" (Str.last (Str.split sep s)))
    as [Hcur | Hin]; [apply last_In, split_aux_not_nil | exact E | discriminate|].
  now rewrite Hin in Hs.
Qed.

Section TypeNames.
Context `{Platform}.

(** without brackets, commas and equals signs, the last name is the last
    dotted part of the last slash-separated part *)
Lemma getTypeLastName_unbracketed (s : string) :
  without "[" s = true -> without "," s = true -> without "=" s = true ->
  getTypeLastName (JStr s) = Ok (Str.last (Str.split "." (Str.last (Str.split "/" s)))).
Proof.
  intros Hbracket Hcomma Hequals. unfold getTypeLastName.
  assert (Hor : Js.or (JStr s) (JStr "") = JStr s) by (now destruct s).
  rewrite Hor. cbn [getTypeLastName_str].
  rewrite (matchNested_without s Hbracket).
  rewrite (split_without "=" "PublicKeyToken=" s eq_refl Hequals).
  rewrite (split_without "," "," s eq_refl Hcomma). cbn [nth hd].
  change (Str.replaceFirst "null" "" "") with "". cbn [String.eqb orb].
  rewrite endsWith_without; [reflexivity|].
  apply last_split_without. now apply last_split_without.
Qed.

End TypeNames.

Lemma inRange_CJK (s : string) :
  Str.existsChar (Str.inRange 12832%N 64041%N) s = false.
Proof.
  induction s as [|d s IH]; [reflexivity|]. cbn [Str.existsChar]. rewrite IH.
  destruct d as [[] [] [] [] [] [] [] []]; reflexivity.
Qed.

Lemma oneDigit_allDigits (s : string) : Str.oneDigit s = true -> Str.allDigits s = true.
Proof.
  destruct s as [|c [|d s]]; try discriminate. cbn [Str.oneDigit]. intros Hc.
  unfold Str.allDigits. cbn [Str.allChars]. now rewrite Hc.
Qed.

Lemma allChars_filterChars (p : ascii -> bool) (s : string) :
  Str.allChars p (Str.filterChars p s) = true.
Proof.
  induction s as [|c s IH]; [reflexivity|]. cbn [Str.filterChars].
  destruct (p c) eqn:E; [|exact IH]. cbn [Str.allChars]. now rewrite E, IH.
Qed.

Lemma allChars_append (p : ascii -> bool) (a b : string) :
  Str.allChars p (a +:+ b) = Str.allChars p a && Str.allChars p b.
Proof.
  induction a as [|c a IH]; [reflexivity|].
  rewrite append_cons. cbn [Str.allChars]. now rewrite IH, andb_assoc.
Qed.

Lemma allChars_existsChar (p q : ascii -> bool) (s : string) :
  (forall c, q c = true -> p c = false) ->
  Str.allChars p s = true -> Str.existsChar q s = false.
Proof.
  intros Hpq. induction s as [|c s IH]; [reflexivity|]. cbn [Str.allChars Str.existsChar].
  intros E. apply andb_true_iff in E as (Hc & Hs). rewrite (IH Hs), orb_false_r.
  destruct (q c) eqn:Hq; [|reflexivity]. now rewrite (Hpq c Hq) in Hc.
Qed.

Lemma includes_char (x : ascii) (s : string) :
  Str.includes (String x "") s = Str.existsChar (Ascii.eqb x) s.
Proof.
  induction s as [|c s IH]; [reflexivity|].
  cbn [Str.includes Str.existsChar]. rewrite IH, prefix_cons. f_equal.
  destruct s; apply andb_true_r.
Qed.

(** the lines of a string hold no code unit the string does not hold *)
Lemma lines_aux_chars (p : ascii -> bool) (s : string) :
  forall cur line,
    In line (Str.lines_aux cur s) ->
    Str.existsChar p line = true ->
    Str.existsChar p cur = true \/ Str.existsChar p s = true.
Proof.
  induction s as [|c s IH]; intros cur line Hin Hp.
  - destruct Hin as [<- | []]. now left.
  - cbn [Str.lines_aux] in Hin. cbn [Str.existsChar].
    destruct (Str.isLineTerminator c).
    + destruct Hin as [<- | Hin]; [now left|].
      destruct (IH _ _ Hin Hp) as [Hcur | Hs]; [discriminate|].
      right. rewrite Hs. apply orb_true_r.
    + destruct (IH _ _ Hin Hp) as [Hcur | Hs].
      * rewrite existsChar_append in Hcur. cbn [Str.existsChar] in Hcur.
        rewrite orb_false_r in Hcur. apply orb_true_iff in Hcur as [Hcur | Hc];
          [now left | right; now rewrite Hc].
      * right. rewrite Hs. apply orb_true_r.
Qed.

Lemma matchBraced_without (s : string) :
  without "{" s = true -> Str.matchBraced s = false.
Proof.
  intros Hs. unfold Str.matchBraced.
  destruct (existsb _ (Str.lines_aux "" s)) eqn:E; [|reflexivity].
  apply existsb_exists in E as (line & Hin & Hline).
  apply andb_true_iff in Hline as (Hline & _).
  apply andb_true_iff in Hline as (_ & Hopen).
  assert (Hbrace : Str.existsChar (Ascii.eqb "{") line = true)
    by (apply (prefix_existsChar "{" "{" line Hopen); reflexivity).
  destruct (lines_aux_chars (Ascii.eqb "{") s "" line Hin Hbrace) as [Hcur | Hin'];
    [discriminate|].
  unfold without in Hs. now rewrite Hin' in Hs.
Qed.

Lemma kept_without (x : ascii) (s : string) :
  keptInName x = false -> Str.allChars keptInName s = true -> without x s = true.
Proof.
  intros Hx Hs. unfold without. apply negb_true_iff.
  apply (allChars_existsChar keptInName); [|exact Hs].
  intros c Hc. apply Ascii.eqb_eq in Hc. now subst c.
Qed.

Section ResolvedNames.
Context `{Platform}.

(** what [resolveTypeName] returns for a value that is no reserved word *)
Lemma resolveTypeName_marked (typeName : JsVal) (r : string) :
  ReservedDict_check typeName = false ->
  resolveTypeName typeName = Ok r ->
  exists typeLastName, getTypeLastName typeName = Ok typeLastName
                       /\ r = markedName typeLastName.
Proof.
  intros Hreserved E. unfold resolveTypeName in E. rewrite Hreserved in E.
  apply bind_Ok_inv in E as (typeLastName & Hlast & E).
  exists typeLastName. split; [exact Hlast|].
  unfold markedName, cleanedName.
  destruct (String.eqb _ "_" || Str.allDigits _) eqn:Hmark; [now injection E|].
  rewrite inRange_CJK in E. cbn [negb andb] in E.
  destruct (Str.oneDigit _) eqn:Hone; [|now injection E].
  apply oneDigit_allDigits in Hone. rewrite Hone, orb_true_r in Hmark. discriminate.
Qed.

Lemma markedName_kept (typeLastName : string) :
  Str.allChars keptInName (markedName typeLastName) = true.
Proof.
  unfold markedName, cleanedName.
  destruct (String.eqb _ "_" || Str.allDigits _).
  - rewrite allChars_append, allChars_filterChars. reflexivity.
  - apply allChars_filterChars.
Qed.

(** X10.  A resolved type name that is no reserved word is made of word
    characters, carets and white space, and of nothing else: no dot, no
    dash, no bracket and no brace of the name it comes from is left. *)
Theorem resolved_type_name_is_made_of_kept_characters (typeName : JsVal) (r : string) :
  ReservedDict_check typeName = false ->
  resolveTypeName typeName = Ok r ->
  Str.allChars keptInName r = true.
Proof.
  intros Hreserved E.
  destruct (resolveTypeName_marked typeName r Hreserved E) as (typeLastName & _ & ->).
  apply markedName_kept.
Qed.

(** X11.  In the default function name, a path segment gives its resolved type
    name with the first letter in upper case, and that is all: no resolved
    name holds a dash or a brace, so the rewriting of dashes and the [By]
    prefix for a segment in braces never apply.  The segment [{id}] gives
    [Id]. *)
Theorem default_name_segment_is_capitalised_type_name (str : string) :
  ReservedDict_check (JStr str) = false ->
  genDefaultSegment str
  = let* s := resolveTypeName (JStr str) in Ok (Str.toUpperFirstLetter s).
Proof.
  intros Hreserved. unfold genDefaultSegment.
  destruct (resolveTypeName (JStr str)) as [s| e | |] eqn:E; try reflexivity.
  cbn [bind].
  pose proof (resolved_name_kept := resolveTypeName_marked (JStr str) s Hreserved E).
  destruct resolved_name_kept as (typeLastName & _ & ->).
  pose proof (markedName_kept typeLastName) as Hkept.
  assert (Hdash : Str.includes "-" (markedName typeLastName) = false).
  { rewrite includes_char. apply negb_true_iff.
    now apply (kept_without "-" _ eq_refl). }
  rewrite Hdash. now rewrite (matchBraced_without _ (kept_without "{" _ eq_refl Hkept)).
Qed.

End ResolvedNames.

Lemma resolved_type_name_witness :
  resolveTypeName (JStr "My.Pet-Store{x}[]") = Ok "PetStorexArray"
  /\ Str.allChars keptInName "PetStorexArray" = true.
Proof.
  split; [reflexivity|].
  exact (resolved_type_name_is_made_of_kept_characters (JStr "My.Pet-Store{x}[]")
           "PetStorexArray" eq_refl eq_refl).
Defined.

Lemma default_name_segment_witness :
  genDefaultSegment "{id}" = Ok "Id"
  /\ genDefaultSegment "pet-store"
     = let* s := resolveTypeName (JStr "pet-store") in Ok (Str.toUpperFirstLetter s).
Proof.
  split.
  - rewrite (@default_name_segment_is_capitalised_type_name samplePlatform "{id}" eq_refl).
    reflexivity.
  - exact (default_name_segment_is_capitalised_type_name "pet-store" eq_refl).
Defined.

Lemma alnum_kept (c : ascii) :
  isAlnum c = true -> keptInName c = true /\ Str.isDashUnderscoreSpace c = false.
Proof.
  destruct c as [[] [] [] [] [] [] [] []]; intros E; try discriminate E;
    split; reflexivity.
Qed.

Lemma plain_without (x : ascii) (s : string) :
  isAlnum x = false -> plainName s = true -> without x s = true.
Proof.
  intros Hx Hs. unfold without. apply negb_true_iff.
  apply (allChars_existsChar isAlnum); [|exact Hs].
  intros c Hc. apply Ascii.eqb_eq in Hc. now subst c.
Qed.

Lemma upperAfter_plain (s : string) :
  plainName s = true -> Str.upperAfter Str.isDashUnderscoreSpace s = s.
Proof.
  induction s as [|c s IH]; intros Hs; [reflexivity|].
  unfold plainName in Hs. cbn [Str.allChars] in Hs.
  apply andb_true_iff in Hs as (Hc & Hs).
  cbn [Str.upperAfter]. destruct s as [|d s]; [reflexivity|].
  destruct (alnum_kept c Hc) as (_ & Hsep). rewrite Hsep. cbn [andb].
  now rewrite (IH Hs).
Qed.

Lemma filterChars_plain (s : string) :
  plainName s = true -> Str.filterChars keptInName s = s.
Proof.
  induction s as [|c s IH]; intros Hs; [reflexivity|].
  unfold plainName in Hs. cbn [Str.allChars] in Hs.
  apply andb_true_iff in Hs as (Hc & Hs).
  cbn [Str.filterChars]. destruct (alnum_kept c Hc) as (Hkept & _).
  now rewrite Hkept, (IH Hs).
Qed.

Lemma markedName_plain (s : string) :
  plainName s = true -> Str.allDigits s = false -> markedName s = s.
Proof.
  intros Hs Hdigits. unfold markedName, cleanedName.
  rewrite (upperAfter_plain s Hs), (filterChars_plain s Hs), Hdigits.
  destruct (String.eqb s "_") eqn:E; [|reflexivity].
  apply String.eqb_eq in E. subst s. discriminate Hs.
Qed.

Lemma plainName_append (a b : string) :
  plainName (a +:+ b) = plainName a && plainName b.
Proof. apply allChars_append. Qed.

Lemma without_append (x : ascii) (a b : string) :
  without x (a +:+ b) = without x a && without x b.
Proof. unfold without. now rewrite existsChar_append, negb_orb. Qed.

(** splitting at one code unit: a piece without it is read up to its
    next occurrence *)
Lemma split_aux_char_piece (x : ascii) (s : string) :
  without x s = true ->
  forall cur rest,
    Str.split_aux (String x "") 0 cur (s +:+ String x rest)
    = (cur +:+ s) :: Str.split_aux (String x "") 0 "" rest.
Proof.
  induction s as [|c s IH]; intros Hs cur rest.
  - rewrite append_nil_l, append_nil_r. cbn [Str.split_aux].
    rewrite prefix_cons, Ascii.eqb_refl. now destruct rest.
  - apply without_cons in Hs as (Hc & Hs). rewrite append_cons.
    cbn [Str.split_aux]. rewrite prefix_cons, Hc. cbn [andb].
    rewrite (IH Hs). now rewrite append_assoc.
Qed.

Section PlainNames.
Context `{Platform}.

(** X12.  A name of letters and digits that is neither a reserved word nor a
    run of digits is its own resolved type name. *)
Theorem plain_type_name_is_kept (s : string) :
  plainName s = true ->
  Str.allDigits s = false ->
  ReservedDict_check (JStr s) = false ->
  resolveTypeName (JStr s) = Ok s.
Proof.
  intros Hs Hdigits Hreserved.
  assert (Hlast : getTypeLastName (JStr s) = Ok s).
  { rewrite getTypeLastName_unbracketed by (now apply plain_without).
    rewrite (split_without "/" "/" s eq_refl) by (now apply plain_without).
    change (Str.last [s]) with s.
    rewrite (split_without "." "." s eq_refl) by (now apply plain_without).
    reflexivity. }
  assert (Hreturns : exists r, resolveTypeName (JStr s) = Ok r).
  { unfold resolveTypeName. rewrite Hreserved, Hlast. cbn [bind].
    repeat match goal with
           | |- context [if ?b then _ else _] => destruct b
           end; eauto. }
  destruct Hreturns as (r & E). rewrite E.
  destruct (resolveTypeName_marked (JStr s) r Hreserved E) as (l & Hl & ->).
  rewrite Hlast in Hl. injection Hl as <-. now rewrite markedName_plain.
Qed.

End PlainNames.

Lemma plain_type_name_witness : resolveTypeName (JStr "Pet2") = Ok "Pet2".
Proof.
  exact (@plain_type_name_is_kept samplePlatform "Pet2" eq_refl eq_refl eq_refl).
Defined.

(** ** Types: a reference wins over every other field *)

Section ReferenceTypes.
Context `{Platform}.

(** X13.  A schema with a [$ref] is rendered as the resolved name of the last
    segment of the reference, behind the namespace and a dot when there is
    a namespace, whatever else the schema holds: its type, its enumeration
    and its properties are not looked at. *)
Theorem reference_type_is_namespace_and_name
    (fuel : nat) (fields : list (string * JsVal)) (ref name ns : string) :
  Js.get "$ref" (JObj fields) = JStr ref ->
  ref <> "" ->
  resolveTypeName (JStr (Str.last (Str.split "/" ref))) = Ok name ->
  name <> "" ->
  defaultGetType (S fuel) (JObj fields) (JStr ns)
  = Ok (JStr (if String.eqb ns "" then name else ns +:+ "." +:+ name))
  /\ defaultGetType (S fuel) (JObj fields) JUndef = Ok (JStr name).
Proof.
  intros Href Hnonempty Hresolved Hname.
  assert (Htruthy : Js.truthy (JStr ref) = true).
  { apply String.eqb_neq in Hnonempty. cbn [Js.truthy]. now rewrite Hnonempty. }
  assert (Hrefname : getRefName (JObj fields) = Ok (JStr name)).
  { unfold getRefName. rewrite getOpt_get, Href, Htruthy. cbn [Js.typeofObject negb orb].
    cbn [Js.asString bind]. now rewrite Hresolved. }
  assert (Hnametruthy : Js.truthy (JStr name) = true).
  { apply String.eqb_neq in Hname. cbn [Js.truthy]. now rewrite Hname. }
  split.
  - cbn [defaultGetType normalNamespace Js.typeofObject negb].
    rewrite Href, Htruthy, Hrefname. cbn [bind List.filter].
    rewrite Hnametruthy. cbn [Js.truthy].
    destruct (String.eqb ns "") eqn:Hns; reflexivity.
  - cbn [defaultGetType normalNamespace Js.typeofObject negb].
    rewrite Href, Htruthy, Hrefname. cbn [bind List.filter].
    rewrite Hnametruthy. reflexivity.
Qed.

End ReferenceTypes.

Lemma reference_type_witness :
  defaultGetType 1 petReference (JStr "API") = Ok (JStr "API.Pet")
  /\ defaultGetType 1 petReference JUndef = Ok (JStr "Pet").
Proof.
  exact (@reference_type_is_namespace_and_name samplePlatform 0
           [("type", JStr "string"); ("$ref", JStr "#/components/schemas/Pet")]
           "#/components/schemas/Pet" "Pet" "API"
           eq_refl ltac:(discriminate) eq_refl ltac:(discriminate)).
Defined.

(** ** Names: the Params type of an operation *)

Section ParamsTypeName.
Context `{Platform}.
Variable config : GenerateServiceProps.
Variable openAPIData : JsVal.

(** X14.  The Params type of an operation is named by the function name
    followed by [Params]; the namespace put in front of it is cut off
    again with the dot, so the name is the same under every namespace. *)
Theorem params_type_name_has_no_namespace (data : JsVal) (ns functionName : string) :
  namespace config = JStr ns ->
  ns <> "" ->
  plainName ns = true ->
  customTypeName (hook config) = None ->
  getFuncationName config openAPIData data = Ok (JStr functionName) ->
  plainName functionName = true ->
  ReservedDict_check (JStr (ns +:+ "." +:+ functionName +:+ "Params")) = false ->
  getTypeName config openAPIData data = Ok (functionName +:+ "Params").
Proof.
  intros Hns Hnonempty Hnsplain Hhook Hfn Hplain Hreserved.
  assert (Hparams : plainName (functionName +:+ "Params") = true)
    by (rewrite plainName_append, Hplain; reflexivity).
  assert (Hdigits : Str.allDigits (functionName +:+ "Params") = false).
  { unfold Str.allDigits. rewrite allChars_append. cbn. now rewrite !andb_false_r. }
  assert (Hmarked : markedName (functionName +:+ "Params") = functionName +:+ "Params")
    by now apply markedName_plain.
  unfold getTypeName. rewrite Hns, Hhook. cbn [Js.truthy].
  rewrite Hfn. cbn [bind Js.toStr].
  apply String.eqb_neq in Hnonempty. rewrite Hnonempty. cbn [negb].
  rewrite append_assoc.
  set (full := ns +:+ "." +:+ functionName +:+ "Params") in *.
  assert (Hwithout : forall x, isAlnum x = false -> Ascii.eqb x "." = false ->
                               without x full = true).
  { intros x Hx Hdot. unfold full. rewrite without_append, (plain_without x ns Hx Hnsplain).
    change ("." +:+ functionName +:+ "Params")
      with (String "." (functionName +:+ "Params")).
    unfold without. cbn [Str.existsChar]. rewrite Hdot.
    apply (plain_without x _ Hx Hparams). }
  assert (Hlast : getTypeLastName (JStr full) = Ok (functionName +:+ "Params")).
  { rewrite getTypeLastName_unbracketed by (now apply Hwithout).
    rewrite (split_without "/" "/" full eq_refl) by (now apply Hwithout).
    change (Str.last [full]) with full. unfold full, Str.split.
    change ("." +:+ functionName +:+ "Params")
      with (String "." (functionName +:+ "Params")).
    rewrite split_aux_char_piece by (now apply plain_without).
    rewrite (split_aux_without "." "." _ eq_refl) by (now apply plain_without).
    reflexivity. }
  assert (Hreturns : exists r, resolveTypeName (JStr full) = Ok r).
  { unfold resolveTypeName. rewrite Hreserved, Hlast. cbn [bind].
    repeat match goal with
           | |- context [if ?b then _ else _] => destruct b
           end; eauto. }
  destruct Hreturns as (r & E). rewrite E.
  destruct (resolveTypeName_marked (JStr full) r Hreserved E) as (l & Hl & ->).
  rewrite Hlast in Hl. injection Hl as <-. now rewrite Hmarked.
Qed.

End ParamsTypeName.

Lemma params_type_name_witness :
  getTypeName sampleConfig (docWithPaths ["/pets"]) listPetsApi = Ok "listPetsParams".
Proof.
  exact (@params_type_name_has_no_namespace samplePlatform sampleConfig
           (docWithPaths ["/pets"]) listPetsApi "API" "listPets"
           eq_refl ltac:(discriminate) eq_refl eq_refl eq_refl eq_refl eq_refl).
Defined.

(** ** Property lists: names and required flags *)

Lemma mapR_Ok_pointwise {A B C} (f : A -> Res B) (g : B -> C) (h : A -> C) (l : list A) :
  (forall x y, In x l -> f x = Ok y -> g y = h x) ->
  forall r, mapR f l = Ok r -> map g r = map h l.
Proof.
  induction l as [|x l IH]; intros Hpoint r E; simpl in E.
  - now injection E as <-.
  - apply bind_Ok_inv in E as (y & Hy & E).
    apply bind_Ok_inv in E as (ys & Hys & E). injection E as <-.
    cbn [map]. f_equal.
    + apply Hpoint; [now left | exact Hy].
    + apply IH; [|exact Hys]. intros x' y' Hin. apply Hpoint. now right.
Qed.

Section PropertyLists.
Context `{Platform}.
Variable config : GenerateServiceProps.

(** X15.  The entries [getProps] returns follow the keys of [properties], in
    their order.  Each is named by its key without its square brackets
    and vertical bars, whatever [name] the property schema has of its own, and
    it is required exactly when that stripped name is listed in
    [required]: a key listed with its brackets is not required. *)
Theorem getProps_names_and_required_flags
    (fuel : nat) (schemaObject : JsVal) (props : list JsVal) (ks : list string) :
  getProps config fuel schemaObject = Ok props ->
  Js.truthy (Js.get "properties" schemaObject) = true ->
  Js.keys (Js.get "properties" schemaObject) = Ok ks ->
  map (Js.get "name") props = map (fun k => JStr (stripBrackets k)) ks
  /\ map (Js.get "required") props
     = map (fun k => JBool (existsb (Js.isStr (stripBrackets k)) (requiredKeys schemaObject)))
           ks.
Proof.
  unfold getProps. intros E Htruthy Hks.
  apply bind_Ok_inv in E as (properties & Hproperties & E).
  apply getR_get in Hproperties. subst properties.
  rewrite Htruthy, Hks in E. cbn [bind] in E. split.
  - revert props E. apply mapR_Ok_pointwise.
    intros k entry _ Hentry.
    apply bind_Ok_inv in Hentry as (type & _ & Hentry).
    apply bind_Ok_inv in Hentry as (required & _ & Hentry). injection Hentry as <-.
    cbn [Js.setFields fold_left fst snd]. rewrite !get_setField. reflexivity.
  - revert props E. apply mapR_Ok_pointwise.
    intros k entry _ Hentry.
    apply bind_Ok_inv in Hentry as (type & _ & Hentry).
    apply bind_Ok_inv in Hentry as (required & Hrequired & Hentry). injection Hentry as <-.
    cbn [Js.setFields fold_left fst snd]. rewrite !get_setField. cbn [String.eqb Ascii.eqb].
    f_equal. unfold requiredKeys.
    destruct (Js.getOpt "required" schemaObject) as [| |b|n| |s|l|l];
      cbn [Js.truthy] in Hrequired.
    1-2, 5: now injection Hrequired.
    + destruct b; [discriminate Hrequired | now injection Hrequired].
    + destruct (negb (n =? 0)%Z); [discriminate Hrequired | now injection Hrequired].
    + destruct (negb (String.eqb s "")); [discriminate Hrequired | now injection Hrequired].
    + now injection Hrequired.
    + discriminate Hrequired.
Qed.

End PropertyLists.

Lemma getProps_witness :
  exists props,
    getProps sampleConfig 8 bracketedSchema = Ok props
    /\ map (Js.get "name") props = [JStr "ids"; JStr "name"]
    /\ map (Js.get "required") props = [JBool false; JBool true].
Proof.
  destruct (getProps sampleConfig 8 bracketedSchema) as [props| | |] eqn:E;
    try (vm_compute in E; discriminate).
  exists props.
  destruct (getProps_names_and_required_flags sampleConfig 8 bracketedSchema props
              ["ids[]"; "name"] E eq_refl eq_refl) as (Hnames & Hrequired).
  split; [reflexivity|]. split; [exact Hnames | exact Hrequired].
Defined.

(** ** Request bodies *)

Lemma setFields_app (base a b : list (string * JsVal)) :
  Js.setFields base (a ++ b) = Js.setFields (Js.setFields base a) b.
Proof. unfold Js.setFields. apply fold_left_app. Qed.

Lemma get_format_ownProps (v : JsVal) :
  Js.get "format" (JObj (Js.ownProps v)) = Js.get "format" v.
Proof.
  destruct v as [| |b|n| |s|l|l]; try reflexivity;
    cbn [Js.ownProps Js.get]; now rewrite (assoc_indexed_from "f" "ormat").
Qed.

Lemma Forall_filter {A} (P : A -> Prop) (f : A -> bool) (l : list A) :
  Forall P l -> Forall P (List.filter f l).
Proof.
  induction 1 as [|x l Hx Hl IH]; simpl; [constructor|].
  destruct (f x); [constructor; assumption | exact IH].
Qed.

Lemma mapR_Forall {A B} (f : A -> Res B) (P : B -> Prop) (l : list A) :
  (forall x y, f x = Ok y -> P y) -> forall r, mapR f l = Ok r -> Forall P r.
Proof.
  intros Hf. induction l as [|x l IH]; intros r E; simpl in E.
  - injection E as <-. constructor.
  - apply bind_Ok_inv in E as (y & Hy & E).
    apply bind_Ok_inv in E as (ys & Hys & E). injection E as <-.
    constructor; [now apply (Hf x) | now apply IH].
Qed.

Section BodyDescriptors.
Context `{Platform}.
Variable config : GenerateServiceProps.
Variable openAPIData : JsVal.

Lemma bodyRequired_default (requestBody : JsVal) :
  bodyRequired match requestBody with JUndef => JObj [] | _ => requestBody end
  = bodyRequired requestBody.
Proof. now destruct requestBody. Qed.

(** X16.  The [required] flag of a body descriptor is a boolean, read from the
    request body as the operation writes it: its own [required] when that
    is a boolean, [false] otherwise.  Neither the body a reference leads to
    nor the [required] list of the schema shows in it. *)
Theorem body_required_is_the_written_flag (fuel : nat) (requestBody body : JsVal) :
  getBodyTP config openAPIData fuel requestBody = Ok body ->
  body = JNull \/ Js.get "required" body = bodyRequired requestBody.
Proof.
  unfold getBodyTP. rewrite bodyRequired_default. intros E.
  apply bind_Ok_inv in E as (reqBody & _ & E).
  destruct (negb (Js.truthy reqBody)); [left; now injection E|].
  destruct (negb (Js.typeofObject (Js.get "content" reqBody))); [left; now injection E|].
  apply bind_Ok_inv in E as (ks & _ & E).
  apply bind_Ok_inv in E as (declared & _ & E). right.
  destruct (Js.isStr "object" _ && Js.truthy _).
  - apply bind_Ok_inv in E as (ps & _ & E).
    apply bind_Ok_inv in E as (entries & _ & E). injection E as <-.
    rewrite setFields_app. cbn [Js.setFields fold_left fst snd].
    now rewrite !get_setField.
  - apply bind_Ok_inv in E as (type & _ & E). now injection E as <-.
Qed.

Lemma bodyProperty_not_a_file (fuel : nat) (schema : JsVal) (p : string) (entry : JsVal) :
  bodyProperty config fuel schema p = Ok entry ->
  Js.truthy entry = true ->
  Js.oneOf ["binary"; "base64"] (Js.get "format" (Js.get "schema" entry)) = false.
Proof.
  unfold bodyProperty. intros E Htruthy.
  destruct (negb (Js.truthy (Js.get p (Js.get "properties" schema))));
    [injection E as <-; discriminate Htruthy|].
  apply bind_Ok_inv in E as (file & Hfile & E).
  destruct file; [injection E as <-; discriminate Htruthy|].
  apply bind_Ok_inv in E as (type & _ & E).
  apply bind_Ok_inv in E as (required & _ & E). injection E as <-.
  cbn [Js.get Js.assoc String.eqb Ascii.eqb Bool.eqb].
  cbn [Js.setFields fold_left fst snd].
  change (Js.oneOf ["binary"; "base64"]
            (Js.get "format"
               (JObj (Js.setField "required" required
                        (Js.setField "type" type
                           (Js.ownProps (Js.get p (Js.get "properties" schema)))))))
          = false).
  rewrite !get_setField. cbn [String.eqb Ascii.eqb Bool.eqb].
  rewrite get_format_ownProps.
  set (property := Js.get p (Js.get "properties" schema)) in *.
  unfold sentAsFile in Hfile.
  destruct (Js.oneOf ["binary"; "base64"] (Js.or (Js.get "format" property) (JStr "")))
    eqn:Hformat; [discriminate Hfile|].
  unfold Js.or in Hformat.
  destruct (Js.truthy (Js.get "format" property)) eqn:Hset; [exact Hformat|].
  destruct (Js.get "format" property) as [| |b|n| |s|l|l]; try reflexivity.
  cbn [Js.truthy] in Hset. apply negb_false_iff, String.eqb_eq in Hset. now subst s.
Qed.

(** X17.  The [propertiesList] of a body descriptor holds no property whose
    format is [binary] or [base64]: the properties sent as files are left
    to [getFileTP]. *)
Theorem body_properties_list_has_no_file
    (fuel : nat) (requestBody body : JsVal) (entries : list JsVal) :
  getBodyTP config openAPIData fuel requestBody = Ok body ->
  Js.get "propertiesList" body = JArr entries ->
  Forall (fun entry =>
            Js.oneOf ["binary"; "base64"] (Js.get "format" (Js.get "schema" entry)) = false)
         entries.
Proof.
  unfold getBodyTP. intros E Hlist.
  apply bind_Ok_inv in E as (reqBody & _ & E).
  destruct (negb (Js.truthy reqBody)); [injection E as <-; discriminate Hlist|].
  destruct (negb (Js.typeofObject (Js.get "content" reqBody)));
    [injection E as <-; discriminate Hlist|].
  apply bind_Ok_inv in E as (ks & _ & E).
  apply bind_Ok_inv in E as (declared & _ & E).
  destruct (Js.isStr "object" _ && Js.truthy _).
  2: { apply bind_Ok_inv in E as (type & _ & E). injection E as <-. discriminate Hlist. }
  apply bind_Ok_inv in E as (ps & _ & E).
  apply bind_Ok_inv in E as (all & Hall & E). injection E as <-.
  rewrite setFields_app in Hlist. cbn [Js.setFields fold_left fst snd] in Hlist.
  rewrite !get_setField in Hlist. cbn [String.eqb Ascii.eqb Bool.eqb] in Hlist.
  injection Hlist as <-.
  assert (Hentries : Forall (fun entry =>
                       Js.truthy entry = true ->
                       Js.oneOf ["binary"; "base64"]
                         (Js.get "format" (Js.get "schema" entry)) = false) all).
  { eapply mapR_Forall; [|exact Hall]. intros p entry. apply bodyProperty_not_a_file. }
  clear Hall. induction Hentries as [|entry rest Hentry Hrest IH]; cbn [List.filter]; [constructor|].
  destruct (Js.truthy entry) eqn:Htruthy; [|exact IH].
  constructor; [now apply Hentry | exact IH].
Qed.

(** X18.  A request body whose content names no media type makes [getBodyTP]
    throw: the schema is read from the entry of the first media type, and
    there is none. *)
Theorem body_without_media_type_throws (fuel : nat) (requestBody reqBody : JsVal) :
  resolveRefObject openAPIData fuel
    match requestBody with JUndef => JObj [] | _ => requestBody end = Ok reqBody ->
  Js.truthy reqBody = true ->
  Js.typeofObject (Js.get "content" reqBody) = true ->
  Js.keys (Js.get "content" reqBody) = Ok [] ->
  getBodyTP config openAPIData fuel requestBody = Throw TypeError.
Proof.
  intros Hresolved Htruthy Hobject Hkeys. unfold getBodyTP.
  rewrite Hresolved. cbn [bind]. rewrite Htruthy, Hobject, Hkeys. cbn [negb bind Js.toStr].
  destruct (Js.get "content" reqBody) as [| |b|n| |s|l|l]; try discriminate Hobject.
  - discriminate Hkeys.
  - destruct l; [reflexivity | discriminate Hkeys].
  - destruct l as [|[k v] l]; [reflexivity | discriminate Hkeys].
Qed.

Lemma resolveFileTP_entries (fuel : nat) :
  forall obj files,
    resolveFileTP config openAPIData fuel obj = Ok files ->
    Forall (fun file => exists b, Js.get "multiple" file = JBool b) files.
Proof.
  induction fuel as [|fuel IH]; intros obj files E; [discriminate E|].
  cbn [resolveFileTP] in E.
  apply bind_Ok_inv in E as (resolved & _ & E).
  apply bind_Ok_inv in E as (props & _ & E).
  assert (Hhere : Forall (fun file => exists b, Js.get "multiple" file = JBool b)
                         (map fileEntry props)).
  { apply Forall_map, Forall_forall. intros p _. eexists. reflexivity. }
  destruct (Js.truthy (Js.get "type" resolved)); [|now injection E as <-].
  apply bind_Ok_inv in E as (more & Hmore & E). injection E as <-.
  apply Forall_app. split; [exact Hhere | now apply (IH _ _ Hmore)].
Qed.

(** X19.  [getFileTP] returns [null] or a list that is not empty, and each of
    its entries says with a boolean whether it takes several files. *)
Theorem file_list_is_null_or_not_empty (fuel : nat) (requestBody r : JsVal) :
  getFileTP config openAPIData fuel requestBody = Ok r ->
  r = JNull
  \/ exists file files,
       r = JArr (file :: files)
       /\ Forall (fun f => exists b, Js.get "multiple" f = JBool b) (file :: files).
Proof.
  unfold getFileTP. intros E.
  apply bind_Ok_inv in E as (reqBody & _ & E).
  destruct (Js.truthy _); [|left; now injection E].
  apply bind_Ok_inv in E as (ret & Hret & E).
  destruct ret as [|file files]; [left; now injection E|].
  right. exists file, files. split; [now injection E|].
  now apply resolveFileTP_entries in Hret.
Qed.

End BodyDescriptors.

Lemma body_required_witness :
  exists body,
    getBodyTP sampleConfig (docWithPaths []) 8 uploadBody = Ok body
    /\ Js.get "required" body = JBool true
    /\ (body = JNull \/ Js.get "required" body = bodyRequired uploadBody).
Proof.
  destruct (getBodyTP sampleConfig (docWithPaths []) 8 uploadBody) as [body| | |] eqn:E;
    try (vm_compute in E; discriminate).
  exists body. split; [reflexivity|]. split.
  - vm_compute in E. injection E as <-. reflexivity.
  - exact (body_required_is_the_written_flag sampleConfig (docWithPaths []) 8
             uploadBody body E).
Defined.

Lemma body_properties_list_witness :
  exists body entries,
    getBodyTP sampleConfig (docWithPaths []) 8 uploadBody = Ok body
    /\ Js.get "propertiesList" body = JArr entries
    /\ map (Js.get "key") entries = [JStr "name"; JStr "age"]
    /\ Forall (fun entry =>
                 Js.oneOf ["binary"; "base64"]
                   (Js.get "format" (Js.get "schema" entry)) = false) entries.
Proof.
  destruct (getBodyTP sampleConfig (docWithPaths []) 8 uploadBody) as [body| | |] eqn:E;
    try (vm_compute in E; discriminate).
  destruct (Js.get "propertiesList" body) as [| | | | | |entries|] eqn:Hlist;
    try (vm_compute in E; injection E as <-; discriminate Hlist).
  exists body, entries. split; [reflexivity|]. split; [exact Hlist|]. split.
  - vm_compute in E. injection E as <-. vm_compute in Hlist. injection Hlist as <-.
    reflexivity.
  - exact (body_properties_list_has_no_file sampleConfig (docWithPaths []) 8
             uploadBody body entries E Hlist).
Defined.

Lemma body_without_media_type_witness :
  getBodyTP sampleConfig (docWithPaths []) 8 (JObj [("content", JObj [])])
  = Throw TypeError.
Proof.
  exact (body_without_media_type_throws sampleConfig (docWithPaths []) 8
           (JObj [("content", JObj [])]) (JObj [("content", JObj [])])
           eq_refl eq_refl eq_refl eq_refl).
Defined.

Lemma file_list_witness :
  exists r,
    getFileTP sampleConfig (docWithPaths []) 8 uploadBody = Ok r
    /\ map (Js.get "title") match r with JArr l => l | _ => [] end
       = [JStr "avatar"; JStr "photos"]
    /\ (r = JNull
        \/ exists file files,
             r = JArr (file :: files)
             /\ Forall (fun f => exists b, Js.get "multiple" f = JBool b) (file :: files)).
Proof.
  destruct (getFileTP sampleConfig (docWithPaths []) 8 uploadBody) as [r| | |] eqn:E;
    try (vm_compute in E; discriminate).
  exists r. split; [reflexivity|]. split.
  - vm_compute in E. injection E as <-. reflexivity.
  - exact (file_list_is_null_or_not_empty sampleConfig (docWithPaths []) 8 uploadBody r E).
Defined.


(** ** References into other files *)

Lemma hd_split_aux (s : string) :
  forall cur,
    hd "" (Str.split_aux "/" 0 cur s)
    = cur +:+ Str.takeWhile (fun c => negb (Ascii.eqb c "/")) s.
Proof.
  induction s as [|c s IH]; intros cur.
  - simpl. now rewrite append_nil_r.
  - cbn [Str.split_aux Str.takeWhile]. rewrite prefix_slash_cons, (Ascii.eqb_sym "/" c).
    destruct (Ascii.eqb c "/"); cbn [negb hd].
    + now rewrite append_nil_r.
    + rewrite IH. now rewrite append_assoc.
Qed.

Lemma first_segment_is_not_hash (ref : string) :
  ref <> "#" -> String.prefix "#/" ref = false ->
  String.eqb (hd "" (Str.split "/" ref)) "#" = false.
Proof.
  intros Hhash Hprefix. unfold Str.split. rewrite hd_split_aux, append_nil_l.
  apply String.eqb_neq. intros E. destruct ref as [|c ref]; [discriminate E|].
  cbn [Str.takeWhile] in E. destruct (Ascii.eqb c "/") eqn:Hc; [discriminate E|].
  cbn [negb] in E. injection E as -> E.
  destruct ref as [|d ref]; [now apply Hhash|].
  cbn [Str.takeWhile] in E. destruct (Ascii.eqb d "/") eqn:Hd; [|discriminate E].
  apply Ascii.eqb_eq in Hd. subst d.
  rewrite !prefix_cons in Hprefix. cbn in Hprefix. now destruct ref.
Qed.

(** X20.  A reference that does not start with [#/] points outside the
    document: [resolveRefObject] returns the referring node as it is and
    does not throw, whatever the document holds. *)
Theorem external_reference_is_returned_as_it_is
    (openAPIData : JsVal) (fuel : nat) (refObject : JsVal) (ref : string) :
  Js.get "$ref" refObject = JStr ref ->
  ref <> "#" ->
  String.prefix "#/" ref = false ->
  resolveRefObject openAPIData fuel refObject = Ok refObject.
Proof.
  intros Href Hhash Hprefix. rewrite resolveRefObject_unfold, Href.
  destruct (negb (Js.truthy refObject) || negb (Js.truthy (JStr ref))); [reflexivity|].
  cbn [Js.asString bind]. cbv zeta.
  now rewrite (first_segment_is_not_hash ref Hhash Hprefix).
Qed.

Lemma external_reference_witness :
  resolveRefObject (docWithPaths []) 0 externalReference = Ok externalReference.
Proof.
  exact (external_reference_is_returned_as_it_is (docWithPaths []) 0 externalReference
           "common.yaml#/components/schemas/Pet" eq_refl ltac:(discriminate) eq_refl).
Defined.

(** ** Services: paths that hold a template variable *)

Lemma insertBy_length {A} (cmp : A -> A -> Z) (x : A) (l : list A) :
  length (insertBy cmp x l) = S (length l).
Proof.
  induction l as [|y l IH]; [reflexivity|]. simpl.
  destruct (cmp x y <=? 0)%Z; simpl; [reflexivity | now rewrite IH].
Qed.

Lemma sortBy_length {A} (cmp : A -> A -> Z) (l : list A) :
  length (sortBy cmp l) = length l.
Proof.
  induction l as [|x l IH]; [reflexivity|].
  unfold sortBy in *. simpl. now rewrite insertBy_length, IH.
Qed.

Lemma filterR_filter {A} (f : A -> Res bool) (g : A -> bool) (l : list A) :
  (forall x b, f x = Ok b -> g x = b) ->
  forall kept, filterR f l = Ok kept -> kept = List.filter g l.
Proof.
  intros Hg. induction l as [|x l IH]; intros kept E; simpl in E.
  - now injection E as <-.
  - apply bind_Ok_inv in E as (keep & Hkeep & E).
    apply bind_Ok_inv in E as (rest & Hrest & E). injection E as <-.
    cbn [List.filter]. rewrite (Hg x keep Hkeep), (IH rest Hrest). reflexivity.
Qed.

Section TemplatePaths.
Context `{Platform}.
Variable config : GenerateServiceProps.
Variable openAPIData : JsVal.

Lemma describeAll_length (fuel : nat) (tag : string) (apis : list JsVal) :
  forall st st' ds,
    describeAll config openAPIData fuel tag st apis = Ok (ds, st') ->
    length ds = length apis.
Proof.
  induction apis as [|api rest IH]; intros st st' ds E; simpl in E.
  - now injection E as <- <-.
  - apply bind_Ok_inv in E as ([d st1] & _ & E).
    apply bind_Ok_inv in E as ([ds' st2] & Hrest & E). injection E as <- <-.
    cbn [length]. f_equal. now apply (IH st1 st2).
Qed.

(** X21.  Of the operations of a tag, those whose path holds the characters of
    a template variable get no descriptor, and every other operation gets
    one: the list has as many descriptors as there are such operations. *)
Theorem one_descriptor_per_operation_without_template_variable
    (fuel : nat) (tag : string) (maps maps' : list JsVal) (apis ds : list JsVal) :
  genParamsOf config openAPIData fuel tag maps apis = Ok (ds, maps') ->
  length ds = length (List.filter (fun api => negb (holdsTemplateVariable api)) apis).
Proof.
  unfold genParamsOf. intros E.
  apply bind_Ok_inv in E as (kept & Hkept & E).
  apply bind_Ok_inv in E as ([ds' st] & Hds & E). injection E as <- <-.
  rewrite sortBy_length, (describeAll_length _ _ _ _ _ _ Hds). f_equal.
  apply (filterR_filter _ (fun api => negb (holdsTemplateVariable api))) in Hkept;
    [now rewrite Hkept|].
  intros api b Hb. unfold holdsTemplateVariable.
  apply bind_Ok_inv in Hb as (v & Hv & Hb). rewrite Hv. now injection Hb.
Qed.

End TemplatePaths.

Lemma template_paths_witness :
  exists ds maps,
    genParamsOf sampleConfig (docWithPaths ["/pets"]) 8 "draft" []
      (concat (map snd draftApiData)) = Ok (ds, maps)
    /\ map (Js.get "functionName") ds = [JStr "listPets"]
    /\ length ds
       = length (List.filter (fun api => negb (holdsTemplateVariable api))
                             (concat (map snd draftApiData))).
Proof.
  destruct (genParamsOf sampleConfig (docWithPaths ["/pets"]) 8 "draft" []
              (concat (map snd draftApiData))) as [[ds maps]| | |] eqn:E;
    try (vm_compute in E; discriminate).
  exists ds, maps. split; [reflexivity|]. split.
  - vm_compute in E. injection E as <- _. reflexivity.
  - exact (one_descriptor_per_operation_without_template_variable sampleConfig
             (docWithPaths ["/pets"]) 8 "draft" [] maps _ ds E).
Defined.

(** ** util.ts: tag names *)

Lemma split_char_join (x : ascii) (segments : list string) :
  segments <> [] ->
  Forall (fun s => without x s = true) segments ->
  Str.split (String x "") (Str.join (String x "") segments) = segments.
Proof.
  unfold Str.split, Str.join.
  induction segments as [|s rest IH]; intros Hne Hfree; [contradiction|].
  inversion Hfree as [|? ? Hs Hrest]; subst.
  destruct rest as [|s' rest].
  - cbn [String.concat].
    rewrite (split_aux_without x (String x "") s) by
      (try exact Hs; cbn [Str.existsChar]; now rewrite Ascii.eqb_refl).
    reflexivity.
  - change (String.concat (String x "") (s :: s' :: rest))
      with (s +:+ String x (String.concat (String x "") (s' :: rest))).
    rewrite split_aux_char_piece by exact Hs. rewrite append_nil_l. f_equal.
    apply IH; [discriminate | exact Hrest].
Qed.

Section TagNameParts.
Variable upperFirst : string -> string.

(** X22.  A dotted name of four parts gives its third part as tag, one of five
    parts its third part followed by its fourth with the first letter in
    upper case, and every other name is its own tag. *)
Theorem tag_name_is_the_middle_of_a_dotted_name (parts : list string) :
  parts <> [] ->
  Forall (fun s => without "." s = true) parts ->
  getTagName upperFirst (JStr (Str.join "." parts))
  = Ok (JStr match parts with
             | [_; _; operation; _] => operation
             | [_; _; operation; sub; _] => operation +:+ upperFirst sub
             | _ => Str.join "." parts
             end).
Proof.
  intros Hne Hfree. unfold getTagName. cbn [Js.asString bind].
  rewrite (split_char_join "." parts Hne Hfree).
  destruct parts as [|a [|b [|c [|d [|e [|f parts]]]]]]; reflexivity.
Qed.

End TagNameParts.

Lemma tag_name_witness :
  getTagName Str.toUpperFirstLetter (JStr "antcloud.demo.user.list.query")
  = Ok (JStr "userList").
Proof.
  exact (tag_name_is_the_middle_of_a_dotted_name Str.toUpperFirstLetter
           ["antcloud"; "demo"; "user"; "list"; "query"]
           ltac:(discriminate) ltac:(repeat constructor)).
Defined.

(** ** index.ts: the import statement *)

(** X23.  Whatever the library path, the statement [getImportStatement] returns
    starts with [import]: a path that starts with these letters is
    returned as the statement itself, and every other path is put into an
    import of [request]. *)
Theorem import_statement_starts_with_import (requestLibPath r : JsVal) :
  getImportStatement requestLibPath = Ok r ->
  exists s, r = JStr s /\ Str.startsWith "import" s = true.
Proof.
  unfold getImportStatement. intros E.
  destruct (Js.truthy requestLibPath).
  - apply bind_Ok_inv in E as (s & Hs & E).
    destruct requestLibPath as [| |b|n| |p|l|l]; try discriminate Hs.
    injection Hs as ->.
    destruct (Str.startsWith "import" s) eqn:Hstarts; injection E as <-.
    + exists s. split; [reflexivity | exact Hstarts].
    + eexists. split; [reflexivity|].
      change ("import request from '" +:+ s +:+ "'")
        with ("import" +:+ (" request from '" +:+ s +:+ "'")).
      apply prefix_append.
  - injection E as <-. eexists. split; reflexivity.
Qed.

Lemma import_statement_witness :
  getImportStatement (JStr "@/utils/request")
  = Ok (JStr "import request from '@/utils/request'")
  /\ exists s, JStr "import request from '@/utils/request'" = JStr s
               /\ Str.startsWith "import" s = true.
Proof.
  split; [reflexivity|].
  exact (import_statement_starts_with_import (JStr "@/utils/request")
           (JStr "import request from '@/utils/request'") eq_refl).
Defined.

(** ** Names: a document with one path *)

Lemma join_split_aux (s : string) :
  forall cur, Str.join "/" (Str.split_aux "/" 0 cur s) = cur +:+ s.
Proof.
  induction s as [|c s IH]; intros cur.
  - simpl. now rewrite append_nil_r.
  - cbn [Str.split_aux]. rewrite prefix_slash_cons.
    destruct (Ascii.eqb "/" c) eqn:Hc.
    + apply Ascii.eqb_eq in Hc. subst c. cbn [String.length Nat.sub].
      pose proof (split_aux_not_nil "/" s 0 "") as Hne.
      destruct (Str.split_aux "/" 0 "" s) as [|piece pieces] eqn:Hpieces;
        [contradiction|].
      rewrite join_cons2, <- Hpieces, IH. reflexivity.
    + rewrite IH. now rewrite append_assoc.
Qed.

Lemma pushColumns_first (pathItem : list string) :
  pushColumns [] pathItem = map (fun item => [item]) pathItem.
Proof.
  induction pathItem as [|item rest IH]; [reflexivity|].
  cbn [pushColumns map]. now rewrite IH.
Qed.

Lemma leadingSingletons_all (items : list string) :
  leadingSingletons (map Str.uniq (map (fun item => [item]) items))
  = map (fun item => [item]) items.
Proof.
  induction items as [|item rest IH]; [reflexivity|].
  cbn [map]. change (Str.uniq [item]) with [item].
  cbn [leadingSingletons]. now rewrite IH.
Qed.

(** X24.  In a document with one path, the prefix [getBasePrefix] finds is the
    whole path followed by a slash.  It does not occur in the path, so
    nothing is removed and the default function name is built from every
    segment of the path. *)
Theorem single_path_keeps_every_segment (p : string) :
  getBasePrefix [p] = p +:+ "/"
  /\ Str.replaceFirst (getBasePrefix [p]) "" p = p.
Proof.
  assert (Hprefix : getBasePrefix [p] = p +:+ "/").
  { unfold getBasePrefix. cbn [map fold_left].
    rewrite pushColumns_first, leadingSingletons_all, join_singletons.
    unfold Str.split. now rewrite join_split_aux, append_nil_l. }
  split; [exact Hprefix|]. rewrite Hprefix.
  apply replaceFirst_longer. rewrite length_append. cbn [String.length]. lia.
Qed.

(** ** Function names: the suffix can meet a name *)

Lemma suffixed_name_ends_in_suffix (name k : string) :
  name +:+ "_2" = k -> Str.drop (String.length k - 2) k = "_2".
Proof.
  intros <-. rewrite length_append. cbn [String.length].
  replace (String.length name + 2 - 2) with (String.length name) by lia.
  apply drop_append.
Qed.

Lemma suffixed_name_is_not_inherited (name : string) :
  Js.inherited (name +:+ "_2") = false.
Proof.
  destruct (Js.inherited (name +:+ "_2")) eqn:E; [|reflexivity].
  apply existsb_exists in E as (k & Hk & E). apply String.eqb_eq in E.
  apply suffixed_name_ends_in_suffix in E.
  cbn [Js.objectPrototypeKeys In] in Hk.
  repeat (destruct Hk as [<-|Hk]; [vm_compute in E; discriminate|]).
  contradiction.
Qed.

(** X25.  The collision suffix does not make the function names of a tag
    distinct: when two operations produce a name and a third one produces
    that name followed by [_2], the second and the third descriptor carry
    the same function name.  The name is any non-empty string that is not
    a property of [Object.prototype]. *)
Theorem collision_suffix_can_repeat_a_name (name : string) :
  name <> "" ->
  Js.inherited name = false ->
  exists first second third,
    dedupFunctionName ∅ (JStr name) = Ok (JStr name, first)
    /\ dedupFunctionName first (JStr name) = Ok (JStr (name +:+ "_2"), second)
    /\ dedupFunctionName second (JStr (name +:+ "_2")) = Ok (JStr (name +:+ "_2"), third).
Proof.
  intros Hname Hown.
  assert (Htruthy : Js.truthy (JStr name) = true).
  { cbn [Js.truthy]. apply String.eqb_neq in Hname. now rewrite Hname. }
  assert (Htruthy' : Js.truthy (JStr (name +:+ "_2")) = true).
  { destruct name; [contradiction | reflexivity]. }
  assert (Hother : name <> name +:+ "_2").
  { intros E. apply (f_equal String.length) in E. rewrite length_append in E.
    cbn [String.length] in E. lia. }
  do 3 eexists. split; [|split].
  - unfold dedupFunctionName. rewrite Htruthy. cbn [Js.toStr].
    rewrite lookup_empty, Hown. reflexivity.
  - unfold dedupFunctionName. rewrite Htruthy. cbn [Js.toStr].
    rewrite lookup_insert_eq. reflexivity.
  - unfold dedupFunctionName. rewrite Htruthy'. cbn [Js.toStr].
    rewrite lookup_insert_ne by exact Hother.
    rewrite lookup_insert_ne by exact Hother.
    rewrite lookup_empty, suffixed_name_is_not_inherited. reflexivity.
Qed.

Lemma collision_suffix_witness :
  "listUsers" <> ""
  /\ Js.inherited "listUsers" = false
  /\ exists first second third,
       dedupFunctionName ∅ (JStr "listUsers") = Ok (JStr "listUsers", first)
       /\ dedupFunctionName first (JStr "listUsers") = Ok (JStr "listUsers_2", second)
       /\ dedupFunctionName second (JStr "listUsers_2") = Ok (JStr "listUsers_2", third).
Proof.
  split; [discriminate|]. split; [reflexivity|].
  exact (collision_suffix_can_repeat_a_name "listUsers" ltac:(discriminate) eq_refl).
Defined.


(** ** Grouping: the methods that are read *)

Section GroupedMethods.
Context `{Platform}.
Variable config : GenerateServiceProps.

(** X26.  Of a path item, the constructor reads the operations under [get],
    [put], [post], [delete] and [patch] and no other: a path item that has
    none of the five adds nothing to the groups, whatever it holds under
    [head], [options] or [trace]. *)
Theorem only_five_methods_are_grouped (paths : JsVal) (p : string) (apiData : TagAPIDataType) :
  (forall method, In method methods ->
     exists operationObject,
       Js.getR method (Js.get p paths) = Ok operationObject
       /\ Js.truthy operationObject = false) ->
  groupPath config paths apiData p = Ok apiData.
Proof.
  intros Hnone. unfold groupPath.
  assert (Hstep : forall method, In method methods ->
             groupMethod config p (Js.get p paths) apiData method = Ok apiData).
  { intros method Hin. destruct (Hnone method Hin) as (op & Hop & Hfalsy).
    unfold groupMethod. rewrite Hop. cbn [bind]. now rewrite Hfalsy. }
  revert Hstep. generalize methods as ms.
  induction ms as [|m ms IH]; intros Hstep; [reflexivity|].
  cbn [foldR]. rewrite Hstep by (now left). cbn [bind].
  apply IH. intros method Hin. apply Hstep. now right.
Qed.

End GroupedMethods.

Lemma only_five_methods_witness :
  groupPath sampleConfig (Js.get "paths" headOnlyDoc) [] "/ping" = Ok []
  /\ groupOperations sampleConfig headOnlyDoc = Ok [].
Proof.
  split; [|reflexivity].
  apply (only_five_methods_are_grouped sampleConfig (Js.get "paths" headOnlyDoc) "/ping" []).
  intros method Hin. exists JUndef.
  repeat (destruct Hin as [<- | Hin]; [split; reflexivity|]). destruct Hin.
Defined.

(** ** File names: the extension *)

Lemma upperAfter_cons2 (sep : ascii -> bool) (c d : ascii) (s : string) :
  Str.upperAfter sep (String c (String d s))
  = if sep c && Str.isWord d
    then String (Str.toUpperChar d) (Str.upperAfter sep s)
    else String c (Str.upperAfter sep (String d s)).
Proof. reflexivity. Qed.

Lemma upperAfter_before (sep : ascii -> bool) (x : ascii) (rest : string) :
  sep x = false -> Str.isWord x = false ->
  forall n s, String.length s <= n ->
    Str.upperAfter sep (s +:+ String x rest)
    = Str.upperAfter sep s +:+ Str.upperAfter sep (String x rest).
Proof.
  intros Hsep Hword. induction n as [|n IH]; intros s Hlen.
  - destruct s; [reflexivity | cbn [String.length] in Hlen; lia].
  - destruct s as [|c [|d s]]; [reflexivity | |].
    + change (String c "" +:+ String x rest) with (String c (String x rest)).
      rewrite upperAfter_cons2, Hword, andb_false_r. reflexivity.
    + cbn [String.length] in Hlen.
      change (String c (String d s) +:+ String x rest)
        with (String c (String d (s +:+ String x rest))).
      rewrite !upperAfter_cons2. destruct (sep c && Str.isWord d).
      * rewrite (IH s) by lia. reflexivity.
      * change (String d (s +:+ String x rest)) with (String d s +:+ String x rest).
        rewrite (IH (String d s)) by (cbn [String.length]; lia). reflexivity.
Qed.

(** X27.  The name of a service file keeps its extension: the file name of
    [className.ts] is the file name of [className] followed by [.ts]. *)
Theorem final_file_name_keeps_the_extension (className : string) :
  getFinalFileName (className +:+ ".ts") = getFinalFileName className +:+ ".ts".
Proof.
  unfold getFinalFileName.
  change (className +:+ ".ts") with (className +:+ String "." "ts").
  now rewrite (upperAfter_before Str.isDashUnderscoreSpace "." "ts" eq_refl eq_refl
                 (String.length className) className (Nat.le_refl _)).
Qed.


(** ** util.ts: parameters with dotted names *)

Lemma assoc_app_fresh (k : string) (v : JsVal) (l : list (string * JsVal)) :
  ~ In k (map fst l) -> Js.assoc k (l ++ [(k, v)]) = Some v.
Proof.
  induction l as [|[k' v'] l IH]; intros Hfresh; simpl.
  - now rewrite String.eqb_refl.
  - destruct (String.eqb k k') eqn:E.
    + apply String.eqb_eq in E. subst k'. exfalso. apply Hfresh. now left.
    + apply IH. intros Hin. apply Hfresh. now right.
Qed.

Lemma setField_fresh (k : string) (v : JsVal) (l : list (string * JsVal)) :
  ~ In k (map fst l) -> Js.setField k v l = l ++ [(k, v)].
Proof.
  induction l as [|[k' v'] l IH]; intros Hfresh; simpl; [reflexivity|].
  destruct (String.eqb k k') eqn:E.
  - apply String.eqb_eq in E. subst k'. exfalso. apply Hfresh. now left.
  - rewrite IH; [reflexivity|]. intros Hin. apply Hfresh. now right.
Qed.

Lemma setField_last (k : string) (v v' : JsVal) (l : list (string * JsVal)) :
  ~ In k (map fst l) -> Js.setField k v' (l ++ [(k, v)]) = l ++ [(k, v')].
Proof.
  induction l as [|[k' v0] l IH]; intros Hfresh; simpl.
  - now rewrite String.eqb_refl.
  - destruct (String.eqb k k') eqn:E.
    + apply String.eqb_eq in E. subst k'. exfalso. apply Hfresh. now left.
    + rewrite IH; [reflexivity|]. intros Hin. apply Hfresh. now right.
Qed.

Lemma includes_dot_without (s : string) :
  without "." s = true -> Str.includes "." s = false.
Proof. intros Hs. rewrite includes_char. now apply negb_true_iff. Qed.

Section DottedNames.
Context `{Platform}.

Lemma inherited_without_dot (s : string) : Js.inherited s = true -> without "." s = true.
Proof.
  intros E. apply existsb_exists in E as (k & Hk & E). apply String.eqb_eq in E. subst s.
  cbn [Js.objectPrototypeKeys In] in Hk.
  repeat (destruct Hk as [<-|Hk]; [reflexivity|]). contradiction.
Qed.

(** X28.  A parameter whose name has two dotted parts, the second neither
    [n] nor [m], makes [formatParamsForYFH] throw when it is the first of
    the object: the parameter is written under the first part of the name,
    and the name is then set on the entry under the whole name, which is
    not there. *)
Theorem two_part_name_makes_formatParamsForYFH_throw
    (fuel : nat) (key child : string) (prop : JsVal) (rest : list (string * JsVal)) :
  without "." key = true ->
  without "." child = true ->
  isCounter child = false ->
  formatParamsForYFH (S fuel) (JObj ((key +:+ "." +:+ child, prop) :: rest))
  = Throw TypeError.
Proof.
  intros Hkey Hchild Hcounter.
  set (name := key +:+ "." +:+ child).
  assert (Hsplit : Str.split "." name = [key; child]).
  { apply (split_char_join "." [key; child]); [discriminate|].
    repeat constructor; assumption. }
  assert (Hother : String.eqb name key = false).
  { apply String.eqb_neq. intros E. apply (f_equal String.length) in E.
    unfold name in E. rewrite !length_append in E. cbn [String.length] in E. lia. }
  assert (Hdotted : Js.inherited name = false).
  { destruct (Js.inherited name) eqn:E; [|reflexivity].
    apply inherited_without_dot in E. unfold name in E.
    rewrite !without_append, Hkey, Hchild in E. discriminate E. }
  assert (Hfirst : formatParam (JObj ((name, prop) :: rest)) [] name = Throw TypeError).
  { unfold formatParam, placeParam. cbn [Js.get Js.assoc]. rewrite String.eqb_refl.
    rewrite Hsplit. cbn [length Nat.eqb nth hd andb]. rewrite Hcounter. cbn [negb].
    unfold combineParams. cbn [Js.get Js.assoc Js.truthy hasOwn negb].
    destruct (Js.getR "type" prop) as [propType| e | |] eqn:Htype;
      try (destruct prop; discriminate Htype).
    - cbn [bind]. destruct (Js.inherited key); [reflexivity|]. cbn [andb bind].
      unfold nameParam. rewrite Hdotted. cbn [andb Js.setField Js.get Js.assoc].
      now rewrite Hother.
    - destruct prop; try discriminate Htype; now injection Htype as <-. }
  cbn [formatParamsForYFH Js.keys Js.ownProps map fst bind foldR].
  fold name. now rewrite Hfirst.
Qed.

Lemma formatParam_plain (params : JsVal) (done : list (string * JsVal)) (name : string) :
  without "." name = true ->
  name <> "__proto__" ->
  ~ In name (map fst done) ->
  formatParam params done name = Ok (done ++ [namedCopy (name, Js.get name params)]).
Proof.
  intros Hplain Hproto Hfresh. unfold formatParam, placeParam.
  rewrite (split_without "." "." name eq_refl Hplain). cbn [length Nat.eqb].
  unfold writeParam. apply String.eqb_neq in Hproto. rewrite Hproto. cbn [andb bind].
  unfold nameParam, hasOwn. rewrite assoc_setField, String.eqb_refl.
  cbn [negb]. rewrite andb_false_r.
  rewrite (setField_fresh _ _ _ Hfresh).
  cbn [Js.get]. rewrite (assoc_app_fresh _ _ _ Hfresh).
  now rewrite (setField_last _ _ _ _ Hfresh).
Qed.

Lemma formatParams_plain (entries : list (string * JsVal)) :
  forall (all done : list (string * JsVal)),
    NoDup (map fst done ++ map fst entries) ->
    Forall (fun k => without "." k = true) (map fst entries) ->
    ~ In "__proto__" (map fst entries) ->
    (forall k, In k (map fst entries) -> Js.assoc k all = Js.assoc k entries) ->
    foldR (formatParam (JObj all)) (map fst entries) done
    = Ok (done ++ map namedCopy entries).
Proof.
  induction entries as [|[k v] entries IH]; intros all done Hnodup Hplain Hproto Hall.
  - cbn. now rewrite app_nil_r.
  - cbn [map fst foldR] in *. inversion Hplain as [|? ? Hk Hrest]; subst.
    assert (Hfresh : ~ In k (map fst done)).
    { intros Hin. apply NoDup_app in Hnodup as (_ & Hdisjoint & _).
      apply (Hdisjoint k); [now apply list_elem_of_In | now left]. }
    assert (Hk' : k <> "__proto__") by (intros ->; apply Hproto; now left).
    rewrite (formatParam_plain _ _ _ Hk Hk' Hfresh). cbn [bind].
    assert (Hv : Js.get k (JObj all) = v).
    { cbn [Js.get]. rewrite (Hall k (or_introl eq_refl)). cbn [Js.assoc].
      now rewrite String.eqb_refl. }
    rewrite Hv. rewrite (IH all (done ++ [namedCopy (k, v)])).
    + now rewrite <- app_assoc.
    + rewrite map_app. cbn [map fst namedCopy]. rewrite <- app_assoc. exact Hnodup.
    + exact Hrest.
    + intros Hin. apply Hproto. now right.
    + intros k' Hk''. rewrite (Hall k' (or_intror Hk'')). cbn [Js.assoc].
      destruct (String.eqb k' k) eqn:E; [|reflexivity].
      apply String.eqb_eq in E. subst k'.
      apply NoDup_app in Hnodup as (_ & _ & Hnodup).
      apply NoDup_cons in Hnodup as (Hnotin & _).
      exfalso. apply Hnotin. now apply list_elem_of_In.
Qed.

(** X29.  When no name of the object holds a dot (and no name comes
    twice), [formatParamsForYFH] returns the parameters under their names
    and in their order, each as a copy with its [name] set to the folded
    key, in one pass.  The name [__proto__] is left out: the assignment
    under it sets the prototype of the result and files no parameter. *)
Theorem plain_names_are_copied_and_named (fuel : nat) (entries : list (string * JsVal)) :
  NoDup (map fst entries) ->
  Forall (fun k => without "." k = true) (map fst entries) ->
  ~ In "__proto__" (map fst entries) ->
  formatParamsForYFH (S fuel) (JObj entries) = Ok (JObj (map namedCopy entries)).
Proof.
  intros Hnodup Hplain Hproto. cbn [formatParamsForYFH Js.keys Js.ownProps bind].
  rewrite (formatParams_plain entries entries []);
    [| exact Hnodup | exact Hplain | exact Hproto | auto].
  cbn [bind app].
  assert (Hkeys : map fst (map namedCopy entries) = map fst entries).
  { rewrite map_map. apply map_ext. now intros [k v]. }
  rewrite Hkeys.
  assert (Hnone : existsb (Str.includes ".") (map fst entries) = false).
  { clear Hnodup Hproto Hkeys. induction Hplain as [|k ks Hk Hks IH]; [reflexivity|].
    cbn [existsb]. now rewrite (includes_dot_without k Hk), IH. }
  now rewrite Hnone.
Qed.

End DottedNames.

Lemma two_part_name_witness :
  formatParamsForYFH 1 (JObj [("user.name", JObj [("type", JStr "string")])])
  = Throw TypeError.
Proof.
  exact (@two_part_name_makes_formatParamsForYFH_throw samplePlatform 0 "user" "name"
           (JObj [("type", JStr "string")]) [] eq_refl eq_refl eq_refl).
Defined.

Lemma plain_names_witness :
  formatParamsForYFH 1 (JObj [("user", JObj [("type", JStr "string")]);
                              ("age", JObj [("type", JStr "integer")])])
  = Ok (JObj [("user", JObj [("type", JStr "string"); ("name", JStr "user")]);
              ("age", JObj [("type", JStr "integer"); ("name", JStr "age")])]).
Proof.
  exact (@plain_names_are_copied_and_named samplePlatform 0
           [("user", JObj [("type", JStr "string")]);
            ("age", JObj [("type", JStr "integer")])]
           ltac:(repeat (apply NoDup_cons_2;
                           [rewrite list_elem_of_In; simpl; intuition discriminate|]);
                 apply NoDup_nil_2)
           ltac:(repeat constructor)
           ltac:(simpl; intuition discriminate)).
Defined.
